(** * The topology core of [network_diagram.py]

    A shallow embedding of the loader phases ([AWSDataLoader]), of the subnet
    classifier and of the connectivity checks ([ConnectivityAnalyzer]) that
    the specification talks about, followed by the properties settled on
    them.

    Conventions.
    - A Python [str] is a [string] (its UTF-8 bytes); [Optional[str]] is
      [option string]; a field read with [d.get(k)] is an [option], a field
      read with [d[k]] is mandatory.
    - A Python [dict] keeps insertion order and the checks iterate over
      [.values()], so a dict is an association list with Python's
      assignment semantics (see [dict_set]).
    - Collections and fields that no phase modelled here reads (internet and
      NAT gateways, peerings, VPN, Direct Connect, prefix lists) are left
      out of [NetworkData]. *)

From Stdlib Require Import String Ascii List ZArith Bool Lia Permutation Sorted.
From Stdlib Require Import DecimalString.
Import ListNotations.
Open Scope string_scope.

(** ** Python values *)

(** Truth value of a [str]: every string but the empty one. *)
Definition truthy (s : string) : bool := negb (s =? "").

(** Truth value of an [Optional[str]] ([None] and [""] are false). *)
Definition opt_truthy (o : option string) : bool :=
  match o with Some s => truthy s | None => false end.

(** [d.get(k, default)]. *)
Definition get_default {A : Type} (o : option A) (d : A) : A :=
  match o with Some x => x | None => d end.

(** [a or b] on two strings. *)
Definition str_or (a b : string) : string := if truthy a then a else b.

(** [o or b] where [o] is an [Optional[str]]. *)
Definition opt_or (o : option string) (b : string) : string :=
  match o with Some a => str_or a b | None => b end.

(** [o == s] for an [Optional[str]] against a [str]. *)
Definition opt_eqb (o : option string) (s : string) : bool :=
  match o with Some x => x =? s | None => false end.

(** Truth value of a list: non-empty. *)
Definition nonempty {A : Type} (l : list A) : bool :=
  match l with [] => false | _ :: _ => true end.

(** [x in l] on lists of strings. *)
Definition str_in (x : string) (l : list string) : bool :=
  existsb (String.eqb x) l.

(** ** Dictionaries *)

Definition dict (V : Type) : Type := list (string * V).

Section Dict.
Context {V : Type}.

Fixpoint dict_get (d : dict V) (k : string) : option V :=
  match d with
  | [] => None
  | (k', v) :: r => if k' =? k then Some v else dict_get r k
  end.

(** [k in d] *)
Definition dict_mem (d : dict V) (k : string) : bool :=
  match dict_get d k with Some _ => true | None => false end.

(** [d[k] = v]: an existing key keeps its position, a new one goes last. *)
Fixpoint dict_set (d : dict V) (k : string) (v : V) : dict V :=
  match d with
  | [] => [(k, v)]
  | (k', v') :: r =>
      if k' =? k then (k', v) :: r else (k', v') :: dict_set r k v
  end.

(** [d[k].field = ...], guarded in the source by [if k in d]. *)
Fixpoint dict_update (d : dict V) (k : string) (f : V -> V) : dict V :=
  match d with
  | [] => []
  | (k', v) :: r =>
      if k' =? k then (k', f v) :: r else (k', v) :: dict_update r k f
  end.

Definition dict_keys (d : dict V) : list string := map fst d.
Definition dict_values (d : dict V) : list V := map snd d.

End Dict.

(** ** Enumerations *)

Module AttachmentType.
Inductive t := VPC | VPN | DIRECT_CONNECT | PEERING | TGW_PEERING | CONNECT | UNKNOWN.

Definition eqb (a b : t) : bool :=
  match a, b with
  | VPC, VPC | VPN, VPN | DIRECT_CONNECT, DIRECT_CONNECT | PEERING, PEERING
  | TGW_PEERING, TGW_PEERING | CONNECT, CONNECT | UNKNOWN, UNKNOWN => true
  | _, _ => false
  end.

(** [AttachmentType(s)], with the [ValueError] handler of the loader. *)
Definition of_string (s : string) : t :=
  if s =? "vpc" then VPC
  else if s =? "vpn" then VPN
  else if s =? "direct-connect-gateway" then DIRECT_CONNECT
  else if s =? "peering" then PEERING
  else if s =? "tgw-peering" then TGW_PEERING
  else if s =? "connect" then CONNECT
  else UNKNOWN.
End AttachmentType.

Module RouteType.
Inductive t := STATIC | PROPAGATED.
Definition eqb (a b : t) : bool :=
  match a, b with
  | STATIC, STATIC | PROPAGATED, PROPAGATED => true
  | _, _ => false
  end.
End RouteType.

Module RouteState.
Inductive t := ACTIVE | BLACKHOLE.
Definition eqb (a b : t) : bool :=
  match a, b with
  | ACTIVE, ACTIVE | BLACKHOLE, BLACKHOLE => true
  | _, _ => false
  end.
End RouteState.

Module SubnetType.
Inductive t := PUBLIC | PRIVATE | ISOLATED | TGW_ATTACHED.
End SubnetType.

Module RouteTargetType.
Inductive t :=
  LOCAL | IGW | NAT | TGW | VPC_PEERING | VPC_ENDPOINT | VGW | ENI | EGRESS_IGW | UNKNOWN.
Definition eqb (a b : t) : bool :=
  match a, b with
  | LOCAL, LOCAL | IGW, IGW | NAT, NAT | TGW, TGW | VPC_PEERING, VPC_PEERING
  | VPC_ENDPOINT, VPC_ENDPOINT | VGW, VGW | ENI, ENI | EGRESS_IGW, EGRESS_IGW
  | UNKNOWN, UNKNOWN => true
  | _, _ => false
  end.
End RouteTargetType.

(** ** Data classes *)

Module TGWRoute.
Record t := mk {
  destination_cidr : string;
  prefix_list_id : option string;
  attachment_id : option string;
  resource_id : option string;
  resource_type : option string;
  route_type : RouteType.t;
  state : RouteState.t
}.

Definition destination (r : t) : string :=
  opt_or (prefix_list_id r) (str_or (destination_cidr r) "").

Definition is_blackhole (r : t) : bool :=
  RouteState.eqb (state r) RouteState.BLACKHOLE.
End TGWRoute.

Module TGWRouteTable.
Record t := mk {
  id : string;
  tgw_id : string;
  name : string;
  is_default_association : bool;
  is_default_propagation : bool;
  routes : list TGWRoute.t;
  associations : list string;
  propagations : list string
}.

Definition add_association (a : string) (rt : t) : t :=
  mk (id rt) (tgw_id rt) (name rt) (is_default_association rt)
     (is_default_propagation rt) (routes rt) (associations rt ++ [a])
     (propagations rt).

Definition add_propagation (a : string) (rt : t) : t :=
  mk (id rt) (tgw_id rt) (name rt) (is_default_association rt)
     (is_default_propagation rt) (routes rt) (associations rt)
     (propagations rt ++ [a]).

Definition add_route (r : TGWRoute.t) (rt : t) : t :=
  mk (id rt) (tgw_id rt) (name rt) (is_default_association rt)
     (is_default_propagation rt) (routes rt ++ [r]) (associations rt)
     (propagations rt).
End TGWRouteTable.

Module TGWAttachment.
Record t := mk {
  id : string;
  tgw_id : string;
  type : AttachmentType.t;
  resource_id : string;
  resource_owner_id : string;
  name : string;
  state : string;
  cidrs : list string;
  associated_route_table_id : option string;
  propagating_to : list string;
  is_cross_account : bool;
  tgw_owner_id : string
}.

Definition set_associated_route_table_id (v : option string) (a : t) : t :=
  mk (id a) (tgw_id a) (type a) (resource_id a) (resource_owner_id a) (name a)
     (state a) (cidrs a) v (propagating_to a) (is_cross_account a)
     (tgw_owner_id a).

Definition add_propagating_to (v : string) (a : t) : t :=
  mk (id a) (tgw_id a) (type a) (resource_id a) (resource_owner_id a) (name a)
     (state a) (cidrs a) (associated_route_table_id a) (propagating_to a ++ [v])
     (is_cross_account a) (tgw_owner_id a).

Definition set_cidrs (v : list string) (a : t) : t :=
  mk (id a) (tgw_id a) (type a) (resource_id a) (resource_owner_id a) (name a)
     (state a) v (associated_route_table_id a) (propagating_to a)
     (is_cross_account a) (tgw_owner_id a).

Definition set_name (v : string) (a : t) : t :=
  mk (id a) (tgw_id a) (type a) (resource_id a) (resource_owner_id a) v
     (state a) (cidrs a) (associated_route_table_id a) (propagating_to a)
     (is_cross_account a) (tgw_owner_id a).
End TGWAttachment.

Module VPCRoute.
Record t := mk {
  destination : string;
  target_type : RouteTargetType.t;
  target_id : string;
  state : RouteState.t
}.

Definition is_blackhole (r : t) : bool :=
  RouteState.eqb (state r) RouteState.BLACKHOLE.
End VPCRoute.

Module VPCRouteTable.
Record t := mk {
  id : string;
  vpc_id : string;
  name : string;
  is_main : bool;
  routes : list VPCRoute.t;
  subnet_ids : list string
}.

Definition set_is_main (b : bool) (rt : t) : t :=
  mk (id rt) (vpc_id rt) (name rt) b (routes rt) (subnet_ids rt).

Definition add_subnet_id (s : string) (rt : t) : t :=
  mk (id rt) (vpc_id rt) (name rt) (is_main rt) (routes rt) (subnet_ids rt ++ [s]).

Definition add_route (r : VPCRoute.t) (rt : t) : t :=
  mk (id rt) (vpc_id rt) (name rt) (is_main rt) (routes rt ++ [r]) (subnet_ids rt).
End VPCRouteTable.

Module Subnet.
Record t := mk {
  id : string;
  vpc_id : string;
  cidr : string;
  az : string;
  name : string;
  route_table_id : option string;
  subnet_type : SubnetType.t
}.

Definition set_route_table_id (v : option string) (s : t) : t :=
  mk (id s) (vpc_id s) (cidr s) (az s) (name s) v (subnet_type s).

Definition set_subnet_type (v : SubnetType.t) (s : t) : t :=
  mk (id s) (vpc_id s) (cidr s) (az s) (name s) (route_table_id s) v.
End Subnet.

Module VPC.
Record t := mk {
  id : string;
  name : string;
  cidrs : list string;
  owner_id : string;
  is_default : bool;
  tgw_attachment_id : option string;
  main_route_table_id : option string
}.

Definition set_tgw_attachment_id (v : option string) (p : t) : t :=
  mk (id p) (name p) (cidrs p) (owner_id p) (is_default p) v
     (main_route_table_id p).

Definition set_main_route_table_id (v : option string) (p : t) : t :=
  mk (id p) (name p) (cidrs p) (owner_id p) (is_default p)
     (tgw_attachment_id p) v.
End VPC.

Module TransitGateway.
Record t := mk {
  id : string;
  name : string;
  owner_id : string;
  asn : Z;
  state : string
}.
End TransitGateway.

Module NetworkData.
Record t := mk {
  tgws : dict TransitGateway.t;
  tgw_route_tables : dict TGWRouteTable.t;
  tgw_attachments : dict TGWAttachment.t;
  vpcs : dict VPC.t;
  vpc_route_tables : dict VPCRouteTable.t;
  subnets : dict Subnet.t;
  local_account_id : string
}.

Definition empty : t := mk [] [] [] [] [] [] "".

Definition set_tgws v (d : t) : t :=
  mk v (tgw_route_tables d) (tgw_attachments d) (vpcs d) (vpc_route_tables d)
     (subnets d) (local_account_id d).
Definition set_tgw_route_tables v (d : t) : t :=
  mk (tgws d) v (tgw_attachments d) (vpcs d) (vpc_route_tables d)
     (subnets d) (local_account_id d).
Definition set_tgw_attachments v (d : t) : t :=
  mk (tgws d) (tgw_route_tables d) v (vpcs d) (vpc_route_tables d)
     (subnets d) (local_account_id d).
Definition set_vpcs v (d : t) : t :=
  mk (tgws d) (tgw_route_tables d) (tgw_attachments d) v (vpc_route_tables d)
     (subnets d) (local_account_id d).
Definition set_vpc_route_tables v (d : t) : t :=
  mk (tgws d) (tgw_route_tables d) (tgw_attachments d) (vpcs d) v
     (subnets d) (local_account_id d).
Definition set_subnets v (d : t) : t :=
  mk (tgws d) (tgw_route_tables d) (tgw_attachments d) (vpcs d)
     (vpc_route_tables d) v (local_account_id d).
Definition set_local_account_id v (d : t) : t :=
  mk (tgws d) (tgw_route_tables d) (tgw_attachments d) (vpcs d)
     (vpc_route_tables d) (subnets d) v.
End NetworkData.

(** ** Input records

    The JSON records of the export, one record type per shape.  A key the
    loader reads with [d[k]] is a mandatory field, a key it reads with
    [d.get(k)] an optional one. *)

Module Tag.
Record t := mk { Key : option string; Value : option string }.
End Tag.

Module RawTGW.
Record t := mk {
  TransitGatewayId : string;
  Tags : list Tag.t;
  OwnerId : option string;
  AmazonSideAsn : option Z;
  State : option string
}.
End RawTGW.

Module RawAttachment.
Record t := mk {
  TransitGatewayAttachmentId : string;
  TransitGatewayId : string;
  ResourceType : option string;
  ResourceId : option string;
  ResourceOwnerId : option string;
  TransitGatewayOwnerId : option string;
  Tags : list Tag.t;
  State : option string
}.
End RawAttachment.

Module RawTGWRouteTable.
Record t := mk {
  TransitGatewayRouteTableId : string;
  TransitGatewayId : string;
  Tags : list Tag.t;
  DefaultAssociationRouteTable : option bool;
  DefaultPropagationRouteTable : option bool
}.
End RawTGWRouteTable.

(** An entry of an [associations-*.json] or of a [propagations-*.json]
    file: the loader reads the same two keys of both. *)
Module RawAssociation.
Record t := mk {
  State : option string;
  TransitGatewayAttachmentId : option string
}.
End RawAssociation.

Module RawRouteAttachment.
Record t := mk {
  TransitGatewayAttachmentId : option string;
  ResourceId : option string;
  ResourceType : option string
}.
End RawRouteAttachment.

Module RawTGWRoute.
Record t := mk {
  State : option string;
  Type_ : option string;
  DestinationCidrBlock : option string;
  PrefixListId : option string;
  TransitGatewayAttachments : list RawRouteAttachment.t
}.
End RawTGWRoute.

Module RawVPC.
Record t := mk {
  VpcId : string;
  CidrBlock : option string;
  CidrBlockAssociationSet : list string;
  Tags : list Tag.t;
  OwnerId : option string;
  IsDefault : option bool
}.
End RawVPC.

Module RawSubnet.
Record t := mk {
  SubnetId : string;
  VpcId : string;
  CidrBlock : option string;
  AvailabilityZone : option string;
  Tags : list Tag.t
}.
End RawSubnet.

Module RawRTAssociation.
Record t := mk { Main : option bool; SubnetId : option string }.
End RawRTAssociation.

Module RawVPCRoute.
Record t := mk {
  DestinationCidrBlock : option string;
  DestinationPrefixListId : option string;
  GatewayId : option string;
  NatGatewayId : option string;
  TransitGatewayId : option string;
  VpcPeeringConnectionId : option string;
  NetworkInterfaceId : option string;
  State : option string
}.
End RawVPCRoute.

Module RawVPCRouteTable.
Record t := mk {
  RouteTableId : string;
  VpcId : string;
  Tags : list Tag.t;
  Associations : list RawRTAssociation.t;
  Routes : list RawVPCRoute.t
}.
End RawVPCRouteTable.

(** The input directory.  A per-table file ([associations-<id>.json] and
    the like) is the pair of the table id its name carries and of its
    entries; the files come in the order the directory listing gives. *)
Module RawInput.
Record t := mk {
  aws_account_id : option string;
  TransitGateways : list RawTGW.t;
  TransitGatewayAttachments : list RawAttachment.t;
  TransitGatewayRouteTables : list RawTGWRouteTable.t;
  association_files : list (string * list RawAssociation.t);
  propagation_files : list (string * list RawAssociation.t);
  route_files : list (string * list RawTGWRoute.t);
  Vpcs : list RawVPC.t;
  Subnets : list RawSubnet.t;
  RouteTables : list RawVPCRouteTable.t
}.
End RawInput.

(** ** AWSDataLoader *)

Fixpoint _get_name (tags : list Tag.t) : string :=
  match tags with
  | [] => ""
  | tag :: rest =>
      if opt_eqb (Tag.Key tag) "Name" then get_default (Tag.Value tag) ""
      else _get_name rest
  end.

Definition _load_metadata (inp : RawInput.t) (d : NetworkData.t) : NetworkData.t :=
  NetworkData.set_local_account_id (get_default (RawInput.aws_account_id inp) "") d.

Definition make_tgw (tgw : RawTGW.t) : TransitGateway.t :=
  TransitGateway.mk
    (RawTGW.TransitGatewayId tgw)
    (str_or (_get_name (RawTGW.Tags tgw)) (RawTGW.TransitGatewayId tgw))
    (get_default (RawTGW.OwnerId tgw) "")
    (get_default (RawTGW.AmazonSideAsn tgw) 0%Z)
    (get_default (RawTGW.State tgw) "").

Definition _load_tgws (inp : RawInput.t) (d : NetworkData.t) : NetworkData.t :=
  NetworkData.set_tgws
    (fold_left (fun acc tgw => dict_set acc (RawTGW.TransitGatewayId tgw) (make_tgw tgw))
               (RawInput.TransitGateways inp) (NetworkData.tgws d))
    d.

(** The cross-account decision of [_load_tgw_attachments]. *)
Definition cross_account_flag (local_account_id tgw_owner resource_owner : string) : bool :=
  if truthy tgw_owner && truthy resource_owner then
    negb (resource_owner =? tgw_owner)
  else if truthy local_account_id && truthy resource_owner then
    negb (resource_owner =? local_account_id)
  else false.

Definition make_attachment (local_account_id : string) (att : RawAttachment.t)
  : TGWAttachment.t :=
  let att_type := AttachmentType.of_string (get_default (RawAttachment.ResourceType att) "unknown") in
  let resource_owner := get_default (RawAttachment.ResourceOwnerId att) "" in
  let tgw_owner := get_default (RawAttachment.TransitGatewayOwnerId att) "" in
  let is_cross_account := cross_account_flag local_account_id tgw_owner resource_owner in
  TGWAttachment.mk
    (RawAttachment.TransitGatewayAttachmentId att)
    (RawAttachment.TransitGatewayId att)
    att_type
    (get_default (RawAttachment.ResourceId att) "")
    resource_owner
    (str_or (_get_name (RawAttachment.Tags att)) (get_default (RawAttachment.ResourceId att) ""))
    (get_default (RawAttachment.State att) "")
    [] None []
    is_cross_account
    tgw_owner.

Definition _load_tgw_attachments (inp : RawInput.t) (d : NetworkData.t) : NetworkData.t :=
  NetworkData.set_tgw_attachments
    (fold_left
       (fun acc att =>
          dict_set acc (RawAttachment.TransitGatewayAttachmentId att)
                   (make_attachment (NetworkData.local_account_id d) att))
       (RawInput.TransitGatewayAttachments inp) (NetworkData.tgw_attachments d))
    d.

Definition make_tgw_route_table (rt : RawTGWRouteTable.t) : TGWRouteTable.t :=
  TGWRouteTable.mk
    (RawTGWRouteTable.TransitGatewayRouteTableId rt)
    (RawTGWRouteTable.TransitGatewayId rt)
    (str_or (_get_name (RawTGWRouteTable.Tags rt)) (RawTGWRouteTable.TransitGatewayRouteTableId rt))
    (get_default (RawTGWRouteTable.DefaultAssociationRouteTable rt) false)
    (get_default (RawTGWRouteTable.DefaultPropagationRouteTable rt) false)
    [] [] [].

Definition _load_tgw_route_tables (inp : RawInput.t) (d : NetworkData.t) : NetworkData.t :=
  NetworkData.set_tgw_route_tables
    (fold_left
       (fun acc rt =>
          dict_set acc (RawTGWRouteTable.TransitGatewayRouteTableId rt)
                   (make_tgw_route_table rt))
       (RawInput.TransitGatewayRouteTables inp) (NetworkData.tgw_route_tables d))
    d.

(** One entry of an associations file of table [rt_id]. *)
Definition load_association (rt_id : string) (d : NetworkData.t) (assoc : RawAssociation.t)
  : NetworkData.t :=
  if opt_eqb (RawAssociation.State assoc) "associated" then
    match RawAssociation.TransitGatewayAttachmentId assoc with
    | Some att_id =>
        if truthy att_id then
          let d1 :=
            NetworkData.set_tgw_route_tables
              (dict_update (NetworkData.tgw_route_tables d) rt_id
                           (TGWRouteTable.add_association att_id)) d in
          NetworkData.set_tgw_attachments
            (dict_update (NetworkData.tgw_attachments d1) att_id
                         (TGWAttachment.set_associated_route_table_id (Some rt_id))) d1
        else d
    | None => d
    end
  else d.

Definition load_association_file (d : NetworkData.t) (f : string * list RawAssociation.t)
  : NetworkData.t :=
  let rt_id := fst f in
  if dict_mem (NetworkData.tgw_route_tables d) rt_id then
    fold_left (load_association rt_id) (snd f) d
  else d.

(** One entry of a propagations file of table [rt_id]. *)
Definition load_propagation (rt_id : string) (d : NetworkData.t) (prop : RawAssociation.t)
  : NetworkData.t :=
  if opt_eqb (RawAssociation.State prop) "enabled" then
    match RawAssociation.TransitGatewayAttachmentId prop with
    | Some att_id =>
        if truthy att_id then
          let d1 :=
            NetworkData.set_tgw_route_tables
              (dict_update (NetworkData.tgw_route_tables d) rt_id
                           (TGWRouteTable.add_propagation att_id)) d in
          NetworkData.set_tgw_attachments
            (dict_update (NetworkData.tgw_attachments d1) att_id
                         (TGWAttachment.add_propagating_to rt_id)) d1
        else d
    | None => d
    end
  else d.

Definition load_propagation_file (d : NetworkData.t) (f : string * list RawAssociation.t)
  : NetworkData.t :=
  let rt_id := fst f in
  if dict_mem (NetworkData.tgw_route_tables d) rt_id then
    fold_left (load_propagation rt_id) (snd f) d
  else d.

Definition make_tgw_route (route : RawTGWRoute.t) : TGWRoute.t :=
  let state :=
    if opt_eqb (RawTGWRoute.State route) "blackhole"
    then RouteState.BLACKHOLE else RouteState.ACTIVE in
  let route_type :=
    if opt_eqb (RawTGWRoute.Type_ route) "propagated"
    then RouteType.PROPAGATED else RouteType.STATIC in
  let first := hd_error (RawTGWRoute.TransitGatewayAttachments route) in
  let att_id :=
    match first with Some att => RawRouteAttachment.TransitGatewayAttachmentId att | None => None end in
  let resource_id :=
    match first with Some att => RawRouteAttachment.ResourceId att | None => None end in
  let resource_type :=
    match first with Some att => RawRouteAttachment.ResourceType att | None => None end in
  TGWRoute.mk
    (get_default (RawTGWRoute.DestinationCidrBlock route) "")
    (RawTGWRoute.PrefixListId route)
    att_id resource_id resource_type route_type state.

Definition load_route_file (d : NetworkData.t) (f : string * list RawTGWRoute.t)
  : NetworkData.t :=
  let rt_id := fst f in
  if dict_mem (NetworkData.tgw_route_tables d) rt_id then
    fold_left
      (fun d route =>
         NetworkData.set_tgw_route_tables
           (dict_update (NetworkData.tgw_route_tables d) rt_id
                        (TGWRouteTable.add_route (make_tgw_route route))) d)
      (snd f) d
  else d.

Definition _load_tgw_route_details (inp : RawInput.t) (d : NetworkData.t) : NetworkData.t :=
  let d1 := fold_left load_association_file (RawInput.association_files inp) d in
  let d2 := fold_left load_propagation_file (RawInput.propagation_files inp) d1 in
  fold_left load_route_file (RawInput.route_files inp) d2.

Definition vpc_cidrs (vpc : RawVPC.t) : list string :=
  fold_left
    (fun cidrs assoc => if str_in assoc cidrs then cidrs else (cidrs ++ [assoc])%list)
    (RawVPC.CidrBlockAssociationSet vpc)
    [get_default (RawVPC.CidrBlock vpc) ""].

Definition make_vpc (vpc : RawVPC.t) : VPC.t :=
  VPC.mk
    (RawVPC.VpcId vpc)
    (str_or (_get_name (RawVPC.Tags vpc)) (RawVPC.VpcId vpc))
    (vpc_cidrs vpc)
    (get_default (RawVPC.OwnerId vpc) "")
    (get_default (RawVPC.IsDefault vpc) false)
    None None.

Definition _load_vpcs (inp : RawInput.t) (d : NetworkData.t) : NetworkData.t :=
  NetworkData.set_vpcs
    (fold_left (fun acc vpc => dict_set acc (RawVPC.VpcId vpc) (make_vpc vpc))
               (RawInput.Vpcs inp) (NetworkData.vpcs d))
    d.

Definition make_subnet (subnet : RawSubnet.t) : Subnet.t :=
  Subnet.mk
    (RawSubnet.SubnetId subnet)
    (RawSubnet.VpcId subnet)
    (get_default (RawSubnet.CidrBlock subnet) "")
    (get_default (RawSubnet.AvailabilityZone subnet) "")
    (str_or (_get_name (RawSubnet.Tags subnet)) (RawSubnet.SubnetId subnet))
    None
    SubnetType.ISOLATED.

Definition _load_subnets (inp : RawInput.t) (d : NetworkData.t) : NetworkData.t :=
  NetworkData.set_subnets
    (fold_left (fun acc subnet => dict_set acc (RawSubnet.SubnetId subnet) (make_subnet subnet))
               (RawInput.Subnets inp) (NetworkData.subnets d))
    d.

(** The four [if] statements that follow the gateway block. *)
Definition parse_after_gateway (route : RawVPCRoute.t) : RouteTargetType.t * string :=
  if opt_truthy (RawVPCRoute.NatGatewayId route) then
    (RouteTargetType.NAT, get_default (RawVPCRoute.NatGatewayId route) "")
  else if opt_truthy (RawVPCRoute.TransitGatewayId route) then
    (RouteTargetType.TGW, get_default (RawVPCRoute.TransitGatewayId route) "")
  else if opt_truthy (RawVPCRoute.VpcPeeringConnectionId route) then
    (RouteTargetType.VPC_PEERING, get_default (RawVPCRoute.VpcPeeringConnectionId route) "")
  else if opt_truthy (RawVPCRoute.NetworkInterfaceId route) then
    (RouteTargetType.ENI, get_default (RawVPCRoute.NetworkInterfaceId route) "")
  else (RouteTargetType.UNKNOWN, "").

Definition _parse_vpc_route_target (route : RawVPCRoute.t) : RouteTargetType.t * string :=
  if opt_truthy (RawVPCRoute.GatewayId route) then
    let gw := get_default (RawVPCRoute.GatewayId route) "" in
    if gw =? "local" then (RouteTargetType.LOCAL, "local")
    else if prefix "igw-" gw then (RouteTargetType.IGW, gw)
    else if prefix "vgw-" gw then (RouteTargetType.VGW, gw)
    else if prefix "eigw-" gw then (RouteTargetType.EGRESS_IGW, gw)
    else if prefix "vpce-" gw then (RouteTargetType.VPC_ENDPOINT, gw)
    else parse_after_gateway route
  else parse_after_gateway route.

Definition make_vpc_route (route : RawVPCRoute.t) : VPCRoute.t :=
  let dest :=
    opt_or (RawVPCRoute.DestinationCidrBlock route)
           (opt_or (RawVPCRoute.DestinationPrefixListId route) "") in
  let '(target_type, target_id) := _parse_vpc_route_target route in
  let state :=
    if opt_eqb (RawVPCRoute.State route) "blackhole"
    then RouteState.BLACKHOLE else RouteState.ACTIVE in
  VPCRoute.mk dest target_type target_id state.

(** One entry of the [Associations] of a VPC route table record [rt]; the
    table under construction is threaded next to the catalog. *)
Definition load_rt_association (rt : RawVPCRouteTable.t)
  (st : NetworkData.t * VPCRouteTable.t) (assoc : RawRTAssociation.t)
  : NetworkData.t * VPCRouteTable.t :=
  let '(d, vpc_rt) := st in
  let '(d, vpc_rt) :=
    if get_default (RawRTAssociation.Main assoc) false then
      (NetworkData.set_vpcs
         (dict_update (NetworkData.vpcs d) (RawVPCRouteTable.VpcId rt)
                      (VPC.set_main_route_table_id (Some (RawVPCRouteTable.RouteTableId rt)))) d,
       VPCRouteTable.set_is_main true vpc_rt)
    else (d, vpc_rt) in
  match RawRTAssociation.SubnetId assoc with
  | Some subnet_id =>
      if truthy subnet_id then
        (NetworkData.set_subnets
           (dict_update (NetworkData.subnets d) subnet_id
                        (Subnet.set_route_table_id (Some (RawVPCRouteTable.RouteTableId rt)))) d,
         VPCRouteTable.add_subnet_id subnet_id vpc_rt)
      else (d, vpc_rt)
  | None => (d, vpc_rt)
  end.

Definition load_vpc_route_table (d : NetworkData.t) (rt : RawVPCRouteTable.t)
  : NetworkData.t :=
  let vpc_rt :=
    VPCRouteTable.mk
      (RawVPCRouteTable.RouteTableId rt)
      (RawVPCRouteTable.VpcId rt)
      (str_or (_get_name (RawVPCRouteTable.Tags rt)) (RawVPCRouteTable.RouteTableId rt))
      false [] [] in
  let '(d, vpc_rt) :=
    fold_left (load_rt_association rt) (RawVPCRouteTable.Associations rt) (d, vpc_rt) in
  let vpc_rt :=
    fold_left (fun acc route => VPCRouteTable.add_route (make_vpc_route route) acc)
              (RawVPCRouteTable.Routes rt) vpc_rt in
  NetworkData.set_vpc_route_tables
    (dict_set (NetworkData.vpc_route_tables d) (RawVPCRouteTable.RouteTableId rt) vpc_rt) d.

Definition _load_vpc_route_tables (inp : RawInput.t) (d : NetworkData.t) : NetworkData.t :=
  fold_left load_vpc_route_table (RawInput.RouteTables inp) d.

(** *** Correlation *)

(** The body of the loop of [_correlate_data] for one attachment.  The
    attachment receives the list object of the VPC; no later phase mutates
    that list in place, so sharing it is the same as copying it. *)
Definition correlate_attachment (att : TGWAttachment.t) (vpcs : dict VPC.t)
  : TGWAttachment.t * dict VPC.t :=
  if AttachmentType.eqb (TGWAttachment.type att) AttachmentType.VPC then
    let vpc_id := TGWAttachment.resource_id att in
    match dict_get vpcs vpc_id with
    | Some vpc =>
        (TGWAttachment.set_name (VPC.name vpc)
           (TGWAttachment.set_cidrs (VPC.cidrs vpc) att),
         dict_update vpcs vpc_id
           (VPC.set_tgw_attachment_id (Some (TGWAttachment.id att))))
    | None => (att, vpcs)
    end
  else (att, vpcs).

Fixpoint correlate_attachments (atts : dict TGWAttachment.t) (vpcs : dict VPC.t)
  : dict TGWAttachment.t * dict VPC.t :=
  match atts with
  | [] => ([], vpcs)
  | (k, att) :: rest =>
      let '(att', vpcs') := correlate_attachment att vpcs in
      let '(rest', vpcs'') := correlate_attachments rest vpcs' in
      ((k, att') :: rest', vpcs'')
  end.

Definition _correlate_data (d : NetworkData.t) : NetworkData.t :=
  let '(atts, vpcs) :=
    correlate_attachments (NetworkData.tgw_attachments d) (NetworkData.vpcs d) in
  NetworkData.set_vpcs vpcs (NetworkData.set_tgw_attachments atts d).

(** *** Cross-account CIDR recovery *)

(** [s.add(c)] on a set kept as a list without repetition. *)
Definition set_add (c : string) (s : list string) : list string :=
  if str_in c s then s else (s ++ [c])%list.

(** [att_cidrs[k].add(c)] on a [defaultdict(set)]. *)
Definition defaultdict_add (att_cidrs : dict (list string)) (k c : string)
  : dict (list string) :=
  match dict_get att_cidrs k with
  | Some s => dict_set att_cidrs k (set_add c s)
  | None => dict_set att_cidrs k (set_add c [])
  end.

Definition collect_route (att_cidrs : dict (list string)) (route : TGWRoute.t)
  : dict (list string) :=
  if RouteType.eqb (TGWRoute.route_type route) RouteType.PROPAGATED
     && opt_truthy (TGWRoute.attachment_id route) then
    if truthy (TGWRoute.destination_cidr route) then
      match TGWRoute.attachment_id route with
      | Some att_id => defaultdict_add att_cidrs att_id (TGWRoute.destination_cidr route)
      | None => att_cidrs
      end
    else att_cidrs
  else att_cidrs.

Definition collect_att_cidrs (rts : dict TGWRouteTable.t) : dict (list string) :=
  fold_left
    (fun acc rt => fold_left collect_route (TGWRouteTable.routes rt) acc)
    (dict_values rts) [].

(** [sorted(...)] on strings: insertion into an ordered list, by the byte
    order of [String.leb] (code point order on UTF-8). *)
Fixpoint insert_sorted (x : string) (l : list string) : list string :=
  match l with
  | [] => [x]
  | y :: r => if String.leb x y then x :: l else y :: insert_sorted x r
  end.

Definition sorted (l : list string) : list string :=
  fold_right insert_sorted [] l.

Definition fill_for (t : AttachmentType.t) (att_cidrs : dict (list string))
  (att : TGWAttachment.t) : TGWAttachment.t :=
  if AttachmentType.eqb (TGWAttachment.type att) t
     && negb (nonempty (TGWAttachment.cidrs att)) then
    match dict_get att_cidrs (TGWAttachment.id att) with
    | Some s => TGWAttachment.set_cidrs (sorted s) att
    | None => att
    end
  else att.

Definition fill_cidrs (att_cidrs : dict (list string)) (att : TGWAttachment.t)
  : TGWAttachment.t :=
  fill_for AttachmentType.VPN att_cidrs (fill_for AttachmentType.VPC att_cidrs att).

Definition _extract_cross_account_cidrs (d : NetworkData.t) : NetworkData.t :=
  let att_cidrs := collect_att_cidrs (NetworkData.tgw_route_tables d) in
  NetworkData.set_tgw_attachments
    (map (fun kv => (fst kv, fill_cidrs att_cidrs (snd kv)))
         (NetworkData.tgw_attachments d))
    d.

(** *** Subnet classification *)

Definition is_default_destination (dest : string) : bool :=
  (dest =? "0.0.0.0/0") || (dest =? "::/0").

(** The [for route in rt.routes] loop: [current] is the class the subnet
    has when the loop starts, kept when the loop ends without a [break]. *)
Fixpoint scan_routes (routes : list VPCRoute.t) (current : SubnetType.t)
  : SubnetType.t :=
  match routes with
  | [] => current
  | route :: rest =>
      if is_default_destination (VPCRoute.destination route) then
        match VPCRoute.target_type route with
        | RouteTargetType.IGW => SubnetType.PUBLIC
        | RouteTargetType.NAT => SubnetType.PRIVATE
        | RouteTargetType.TGW => SubnetType.TGW_ATTACHED
        | _ => scan_routes rest current
        end
      else scan_routes rest current
  end.

(** The table id the loop body settles on before it looks the table up. *)
Definition effective_rt_id (d : NetworkData.t) (subnet : Subnet.t) : option string :=
  let rt_id := Subnet.route_table_id subnet in
  if opt_truthy rt_id then rt_id
  else
    match dict_get (NetworkData.vpcs d) (Subnet.vpc_id subnet) with
    | Some vpc => VPC.main_route_table_id vpc
    | None => rt_id
    end.

Definition classify_subnet (d : NetworkData.t) (subnet : Subnet.t) : Subnet.t :=
  match effective_rt_id d subnet with
  | Some rt_id =>
      if truthy rt_id then
        match dict_get (NetworkData.vpc_route_tables d) rt_id with
        | Some rt =>
            Subnet.set_subnet_type
              (scan_routes (VPCRouteTable.routes rt) (Subnet.subnet_type subnet))
              subnet
        | None => Subnet.set_subnet_type SubnetType.ISOLATED subnet
        end
      else Subnet.set_subnet_type SubnetType.ISOLATED subnet
  | None => Subnet.set_subnet_type SubnetType.ISOLATED subnet
  end.

Definition _classify_subnets (d : NetworkData.t) : NetworkData.t :=
  NetworkData.set_subnets
    (map (fun kv => (fst kv, classify_subnet d (snd kv))) (NetworkData.subnets d))
    d.

(** [AWSDataLoader.load], on a fresh [NetworkData]. *)
Definition load (inp : RawInput.t) : NetworkData.t :=
  let d := NetworkData.empty in
  let d := _load_metadata inp d in
  let d := _load_tgws inp d in
  let d := _load_tgw_attachments inp d in
  let d := _load_tgw_route_tables inp d in
  let d := _load_tgw_route_details inp d in
  let d := _load_vpcs inp d in
  let d := _load_subnets inp d in
  let d := _load_vpc_route_tables inp d in
  let d := _correlate_data d in
  let d := _extract_cross_account_cidrs d in
  _classify_subnets d.

(** ** Networks of the [ipaddress] module

    The methods the checks call on the result of [ipaddress.ip_network],
    as the module computes them from the version, the integer of the
    network address and the prefix length. *)

Module IPNetwork.
Inductive version_t := IPv4 | IPv6.

Definition version_eqb (a b : version_t) : bool :=
  match a, b with
  | IPv4, IPv4 | IPv6, IPv6 => true
  | _, _ => false
  end.

(** A network as the library holds it.  [scope_id] is the zone that an
    IPv6 network address written as [addr%zone] carries; an IPv4 network
    has none. *)
Record t := mk {
  version : version_t;
  network_address : Z;
  scope_id : option string;
  prefixlen : Z
}.

Definition max_prefixlen (v : version_t) : Z :=
  match v with IPv4 => 32 | IPv6 => 128 end.

Definition all_ones (v : version_t) : Z := 2 ^ max_prefixlen v - 1.

Definition netmask (n : t) : Z :=
  Z.lxor (all_ones (version n)) (Z.shiftr (all_ones (version n)) (prefixlen n)).

Definition hostmask (n : t) : Z :=
  Z.lxor (netmask n) (all_ones (version n)).

Definition broadcast_address (n : t) : Z :=
  Z.lor (network_address n) (hostmask n).

(** [addr in n], for an address [ip] of version [v]. *)
Definition contains (n : t) (v : version_t) (ip : Z) : bool :=
  if negb (version_eqb (version n) v) then false
  else (Z.land ip (netmask n) =? network_address n)%Z.

(** [a.overlaps(b)] *)
Definition overlaps (a b : t) : bool :=
  contains b (version a) (network_address a)
  || (contains b (version a) (broadcast_address a)
      || (contains a (version b) (network_address b)
          || contains a (version b) (broadcast_address b))).

Definition scope_eqb (a b : option string) : bool :=
  match a, b with
  | Some x, Some y => x =? y
  | None, None => true
  | _, _ => false
  end.

(** [a.network_address == b.network_address] for networks of one version:
    the integers are equal and so are the scope ids. *)
Definition address_eqb (a b : t) : bool :=
  (network_address a =? network_address b)%Z && scope_eqb (scope_id a) (scope_id b).

(** [a.network_address <= b.network_address]: the library derives [<=]
    from [<], which compares the integers only, and from [==]. *)
Definition address_leb (a b : t) : bool :=
  (network_address a <? network_address b)%Z || address_eqb a b.

(** [a.subnet_of(b)]; [None] is the [TypeError] raised when the versions
    differ.  The test is
    [b.network_address <= a.network_address and
     b.broadcast_address >= a.broadcast_address]; a broadcast address is
    built from an integer and carries no scope id, and [>=] is the negation
    of [<]. *)
Definition subnet_of (a b : t) : option bool :=
  if negb (version_eqb (version a) (version b)) then None
  else Some (address_leb b a
             && negb (broadcast_address b <? broadcast_address a)%Z).

(** [a == b] *)
Definition eqb (a b : t) : bool :=
  version_eqb (version a) (version b)
  && address_eqb a b
  && (netmask a =? netmask b)%Z.
End IPNetwork.

(** ** ConnectivityAnalyzer *)

Module Issue.
Record t := mk {
  type : string;
  severity : string;
  location : string;
  message : string
}.
End Issue.

Section Analyzer.

(** [ipaddress.ip_network(s, strict=False)]: [None] when it raises
    [ValueError]; the network it returns carries the scope id the library
    keeps.  The checks are written over any such parser. *)
Variable ip_network : string -> option IPNetwork.t.

(** The [try] block of [_cidr_matches]; [None] when an exception leaves it. *)
Definition cidr_matches_try (route_cidr target_cidr : string) : option bool :=
  match ip_network route_cidr with
  | None => None
  | Some route_net =>
      match ip_network target_cidr with
      | None => None
      | Some target_net =>
          match IPNetwork.subnet_of target_net route_net with
          | None => None
          | Some b => Some (b || IPNetwork.eqb route_net target_net)
          end
      end
  end.

Definition _cidr_matches (route_cidr target_cidr : string) : bool :=
  if route_cidr =? "0.0.0.0/0" then true
  else
    match cidr_matches_try route_cidr target_cidr with
    | Some b => b
    | None => route_cidr =? target_cidr
    end.

Definition _can_reach (d : NetworkData.t) (src dst : TGWAttachment.t) : bool :=
  if negb (opt_truthy (TGWAttachment.associated_route_table_id src)) then false
  else
    match dict_get (NetworkData.tgw_route_tables d)
                   (get_default (TGWAttachment.associated_route_table_id src) "") with
    | None => false
    | Some rt =>
        existsb
          (fun cidr =>
             existsb
               (fun route =>
                  if TGWRoute.is_blackhole route then false
                  else if opt_eqb (TGWRoute.attachment_id route) (TGWAttachment.id dst) then
                    _cidr_matches (TGWRoute.destination_cidr route) cidr
                  else false)
               (TGWRouteTable.routes rt))
          (TGWAttachment.cidrs dst)
    end.

Definition asymmetric_issue (src dst : TGWAttachment.t) : Issue.t :=
  Issue.mk "asymmetric" "warning"
    (TGWAttachment.name src ++ " → " ++ TGWAttachment.name dst)
    ("Asymmetric routing: " ++ TGWAttachment.name src ++ " can reach "
       ++ TGWAttachment.name dst ++ " but not vice versa").

(** The attachments of one gateway. *)
Definition tgw_atts (d : NetworkData.t) (tgw : TransitGateway.t) : list TGWAttachment.t :=
  filter (fun a => TGWAttachment.tgw_id a =? TransitGateway.id tgw)
         (dict_values (NetworkData.tgw_attachments d)).

(** The loops of [_check_asymmetric_routing]; [emit src dst] is what the
    body appends for a pair that is flagged. *)
Definition asymmetric_loop {A : Type} (emit : TGWAttachment.t -> TGWAttachment.t -> A)
  (d : NetworkData.t) : list A :=
  flat_map
    (fun tgw =>
       flat_map
         (fun src =>
            flat_map
              (fun dst =>
                 if TGWAttachment.id src =? TGWAttachment.id dst then []
                 else
                   let can_reach := _can_reach d src dst in
                   let can_return := _can_reach d dst src in
                   if can_reach && negb can_return then [emit src dst] else [])
              (tgw_atts d tgw))
         (tgw_atts d tgw))
    (dict_values (NetworkData.tgws d)).

Definition _check_asymmetric_routing (d : NetworkData.t) : list Issue.t :=
  asymmetric_loop asymmetric_issue d.

(** The pairs the check flags, in the order of the findings. *)
Definition asymmetric_pairs (d : NetworkData.t)
  : list (TGWAttachment.t * TGWAttachment.t) :=
  asymmetric_loop (fun src dst => (src, dst)) d.

(** The [try] block of [_check_cidr_overlaps]: [None] when a CIDR does not
    parse (the handler is [pass]). *)
Definition overlap_try (cidr1 cidr2 : string) : option bool :=
  match ip_network cidr1 with
  | None => None
  | Some net1 =>
      match ip_network cidr2 with
      | None => None
      | Some net2 => Some (IPNetwork.overlaps net1 net2)
      end
  end.

Definition cidrs_overlap (cidr1 cidr2 : string) : bool :=
  match overlap_try cidr1 cidr2 with
  | Some b => b
  | None => false
  end.

Definition overlap_issue (vpc1 : VPC.t) (cidr1 : string) (vpc2 : VPC.t) (cidr2 : string)
  : Issue.t :=
  Issue.mk "overlap" "warning"
    (VPC.name vpc1 ++ " / " ++ VPC.name vpc2)
    ("CIDR overlap: " ++ VPC.name vpc1 ++ " (" ++ cidr1 ++ ") overlaps with "
       ++ VPC.name vpc2 ++ " (" ++ cidr2 ++ ")").

(** The two inner loops, over the CIDRs of a pair of VPCs. *)
Definition overlap_pair {A : Type} (emit : VPC.t -> string -> VPC.t -> string -> A)
  (vpc1 vpc2 : VPC.t) : list A :=
  flat_map
    (fun cidr1 =>
       flat_map
         (fun cidr2 =>
            if cidrs_overlap cidr1 cidr2 then [emit vpc1 cidr1 vpc2 cidr2] else [])
         (VPC.cidrs vpc2))
    (VPC.cidrs vpc1).

(** The two outer loops: [vpc1] against every VPC after it in the list. *)
Fixpoint overlap_loop {A : Type} (emit : VPC.t -> string -> VPC.t -> string -> A)
  (vpcs : list VPC.t) : list A :=
  match vpcs with
  | [] => []
  | vpc1 :: rest =>
      (flat_map (overlap_pair emit vpc1) rest ++ overlap_loop emit rest)%list
  end.

Definition _check_cidr_overlaps (d : NetworkData.t) : list Issue.t :=
  overlap_loop overlap_issue (dict_values (NetworkData.vpcs d)).

(** The quadruples the check flags, in the order of the findings. *)
Definition overlap_hits (d : NetworkData.t) : list (VPC.t * string * VPC.t * string) :=
  overlap_loop (fun vpc1 cidr1 vpc2 cidr2 => (vpc1, cidr1, vpc2, cidr2))
               (dict_values (NetworkData.vpcs d)).

End Analyzer.

(** ** A parser to run the checks with

    The IPv4 branch of [ipaddress.ip_network(s, strict=False)] on a dotted
    quad with an optional decimal prefix length: four octets of one to
    three ASCII digits, no leading zero, each at most 255; a prefix of
    ASCII digits at most 32; host bits cleared.  The netmask notation and
    IPv6 are not covered: it stands for the library only on strings of that
    form, and serves to evaluate the checks on concrete catalogs. *)

(** [s.split(sep)] for a one-character separator. *)
Fixpoint split_on (sep : ascii) (s : string) : list string :=
  match s with
  | EmptyString => [EmptyString]
  | String c r =>
      match split_on sep r with
      | [] => []
      | h :: t =>
          if Ascii.eqb c sep then EmptyString :: h :: t else String c h :: t
      end
  end.

Definition digit_of (c : ascii) : option Z :=
  let n := nat_of_ascii c in
  if (48 <=? n)%nat && (n <=? 57)%nat then Some (Z.of_nat (n - 48)) else None.

Fixpoint decimal_from (acc : Z) (s : string) : option Z :=
  match s with
  | EmptyString => Some acc
  | String c r =>
      match digit_of c with
      | Some v => decimal_from (10 * acc + v) r
      | None => None
      end
  end.

Definition parse_decimal (s : string) : option Z :=
  match s with
  | EmptyString => None
  | _ => decimal_from 0 s
  end.

Definition parse_octet (s : string) : option Z :=
  if (3 <? String.length s)%nat then None
  else if (1 <? String.length s)%nat && prefix "0" s then None
  else
    match parse_decimal s with
    | Some v => if (v <=? 255)%Z then Some v else None
    | None => None
    end.

Definition ipv4_int (s : string) : option Z :=
  match map parse_octet (split_on "." s) with
  | [Some a; Some b; Some c; Some e] =>
      Some (Z.lor (Z.shiftl a 24) (Z.lor (Z.shiftl b 16) (Z.lor (Z.shiftl c 8) e)))
  | _ => None
  end.

Definition ipv4_with_prefix (ip prefixlen : Z) : IPNetwork.t :=
  let unmasked := IPNetwork.mk IPNetwork.IPv4 ip None prefixlen in
  IPNetwork.mk IPNetwork.IPv4 (Z.land ip (IPNetwork.netmask unmasked)) None prefixlen.

Definition ipv4_network (address : string) : option IPNetwork.t :=
  match split_on "/" address with
  | [addr] =>
      match ipv4_int addr with
      | Some ip => Some (ipv4_with_prefix ip 32)
      | None => None
      end
  | [addr; mask] =>
      match ipv4_int addr, parse_decimal mask with
      | Some ip, Some n =>
          if (n <=? 32)%Z then Some (ipv4_with_prefix ip n) else None
      | _, _ => None
      end
  | _ => None
  end.

(** ** Vocabulary of the statements *)

(** A gateway id the gateway block of [_parse_vpc_route_target] returns on. *)
Definition gateway_recognised (gw : string) : bool :=
  (gw =? "local") || prefix "igw-" gw || prefix "vgw-" gw
  || prefix "eigw-" gw || prefix "vpce-" gw.

(** The route table a subnet is classified by: the table of the catalog
    under the explicit [route_table_id], or else under the main route table
    id of the subnet's VPC. *)
Definition effective_table (d : NetworkData.t) (subnet : Subnet.t)
  : option VPCRouteTable.t :=
  match effective_rt_id d subnet with
  | Some rt_id =>
      if truthy rt_id then dict_get (NetworkData.vpc_route_tables d) rt_id else None
  | None => None
  end.

(** A default route whose target is one of the three the classifier acts on. *)
Definition decisive (route : VPCRoute.t) : bool :=
  is_default_destination (VPCRoute.destination route)
  && match VPCRoute.target_type route with
     | RouteTargetType.IGW | RouteTargetType.NAT | RouteTargetType.TGW => true
     | _ => false
     end.

Definition class_of_target (t : RouteTargetType.t) : SubnetType.t :=
  match t with
  | RouteTargetType.IGW => SubnetType.PUBLIC
  | RouteTargetType.NAT => SubnetType.PRIVATE
  | RouteTargetType.TGW => SubnetType.TGW_ATTACHED
  | _ => SubnetType.ISOLATED
  end.




(** The owner an attachment's resource owner is compared with: the owner
    of the gateway when known, else the local account. *)
Definition effective_owner (d : NetworkData.t) (a : TGWAttachment.t) : string :=
  if truthy (TGWAttachment.tgw_owner_id a) then TGWAttachment.tgw_owner_id a
  else NetworkData.local_account_id d.

(** The flag of an attachment is the one the loader computes from its two
    owner fields and the local account [l]. *)
Definition flag_consistent (l : string) (a : TGWAttachment.t) : Prop :=
  TGWAttachment.is_cross_account a =
  cross_account_flag l (TGWAttachment.tgw_owner_id a) (TGWAttachment.resource_owner_id a).

(** What the phases after the gateway loaders leave alone. *)
Definition tgw_side (d : NetworkData.t)
  : dict TGWAttachment.t * dict TGWRouteTable.t * string :=
  (NetworkData.tgw_attachments d, NetworkData.tgw_route_tables d,
   NetworkData.local_account_id d).

(** A dictionary seen through a projection of its values. *)
Definition dict_view {V B : Type} (pr : V -> B) (d : dict V) : dict B :=
  map (fun kv => (fst kv, pr (snd kv))) d.

(** The fields of an attachment the cross-account flag is about. *)
Definition owner_fields (a : TGWAttachment.t) : bool * string * string :=
  (TGWAttachment.is_cross_account a, TGWAttachment.tgw_owner_id a,
   TGWAttachment.resource_owner_id a).

(** The catalog as [load] has it after [_load_tgw_attachments], after
    [_load_tgw_route_tables] and after [_load_tgw_route_details]. *)
Definition after_attachments (inp : RawInput.t) : NetworkData.t :=
  _load_tgw_attachments inp (_load_tgws inp (_load_metadata inp NetworkData.empty)).

Definition after_route_tables (inp : RawInput.t) : NetworkData.t :=
  _load_tgw_route_tables inp (after_attachments inp).

Definition after_route_details (inp : RawInput.t) : NetworkData.t :=
  _load_tgw_route_details inp (after_route_tables inp).

(** The catalog once the association files are read, before the
    propagation and route files. *)
Definition after_association_files (inp : RawInput.t) : NetworkData.t :=
  fold_left load_association_file (RawInput.association_files inp)
            (after_route_tables inp).

(** Agreement of the two sides of the association, on the attachments'
    [associated_route_table_id] and the tables' [associations] seen as
    dictionaries: the table an attachment names lists it, and an attachment
    that some table lists names a table. *)
Definition associations_agree (va : dict (option string)) (vt : dict (list string)) : Prop :=
  (forall x t, dict_get va x = Some (Some t) ->
     exists l, dict_get vt t = Some l /\ In x l)
  /\ (forall x o k l, dict_get va x = Some o -> dict_get vt k = Some l -> In x l ->
        o <> None).

Definition association_views (d : NetworkData.t)
  : dict (option string) * dict (list string) :=
  (dict_view TGWAttachment.associated_route_table_id (NetworkData.tgw_attachments d),
   dict_view TGWRouteTable.associations (NetworkData.tgw_route_tables d)).

(** The catalog as [load] has it when it enters [_classify_subnets]. *)
Definition before_classification (inp : RawInput.t) : NetworkData.t :=
  _extract_cross_account_cidrs
    (_correlate_data
       (_load_vpc_route_tables inp
          (_load_subnets inp
             (_load_vpcs inp
                (_load_tgw_route_details inp
                   (_load_tgw_route_tables inp
                      (_load_tgw_attachments inp
                         (_load_tgws inp
                            (_load_metadata inp NetworkData.empty))))))))).

(** Two VPC routes, two VPC route tables, two catalogs that differ at most
    in the states of VPC routes. *)
Definition same_route_but_state (r r' : VPCRoute.t) : Prop :=
  VPCRoute.destination r = VPCRoute.destination r'
  /\ VPCRoute.target_type r = VPCRoute.target_type r'
  /\ VPCRoute.target_id r = VPCRoute.target_id r'.

Definition same_table_but_states (t t' : VPCRouteTable.t) : Prop :=
  VPCRouteTable.id t = VPCRouteTable.id t'
  /\ VPCRouteTable.vpc_id t = VPCRouteTable.vpc_id t'
  /\ VPCRouteTable.name t = VPCRouteTable.name t'
  /\ VPCRouteTable.is_main t = VPCRouteTable.is_main t'
  /\ VPCRouteTable.subnet_ids t = VPCRouteTable.subnet_ids t'
  /\ Forall2 same_route_but_state (VPCRouteTable.routes t) (VPCRouteTable.routes t').

Definition same_catalog_but_vpc_route_states (d d' : NetworkData.t) : Prop :=
  NetworkData.tgws d = NetworkData.tgws d'
  /\ NetworkData.tgw_route_tables d = NetworkData.tgw_route_tables d'
  /\ NetworkData.tgw_attachments d = NetworkData.tgw_attachments d'
  /\ NetworkData.vpcs d = NetworkData.vpcs d'
  /\ NetworkData.subnets d = NetworkData.subnets d'
  /\ NetworkData.local_account_id d = NetworkData.local_account_id d'
  /\ Forall2 (fun kv kv' => fst kv = fst kv' /\ same_table_but_states (snd kv) (snd kv'))
             (NetworkData.vpc_route_tables d) (NetworkData.vpc_route_tables d').

(** ** Example inputs *)

(** A route record with an unrecognised gateway id (a carrier gateway) and
    a NAT gateway id, and the same record without the NAT gateway id. *)
Definition route_cagw_nat : RawVPCRoute.t :=
  RawVPCRoute.mk (Some "10.1.0.0/16") None (Some "cagw-0a1b") (Some "nat-0c2d")
                 None None None (Some "active").

Definition route_cagw_only : RawVPCRoute.t :=
  RawVPCRoute.mk (Some "10.1.0.0/16") None (Some "cagw-0a1b") None
                 None None None (Some "active").

(** A route record with every target field filled in. *)
Definition route_all_fields : RawVPCRoute.t :=
  RawVPCRoute.mk (Some "0.0.0.0/0") None (Some "igw-0123") (Some "nat-0c2d")
                 (Some "tgw-0e3f") (Some "pcx-0a4b") (Some "eni-0c5d") (Some "active").

(** An export with one VPC and two subnets.  [subnet-a] is associated with
    [rtb-a], whose first default route targets a virtual private gateway
    and whose second targets an internet gateway, in the state given;
    [subnet-b] has no association and falls under the main table
    [rtb-main], with a default route to a NAT gateway and a local route. *)
Definition vpc_export (igw_state : string) : RawInput.t :=
  RawInput.mk (Some "111122223333") [] [] [] [] [] []
    [RawVPC.mk "vpc-1" (Some "10.0.0.0/16") ["10.0.0.0/16"] [] (Some "111122223333") None]
    [RawSubnet.mk "subnet-a" "vpc-1" (Some "10.0.1.0/24") (Some "eu-west-1a") [];
     RawSubnet.mk "subnet-b" "vpc-1" (Some "10.0.2.0/24") (Some "eu-west-1b") []]
    [RawVPCRouteTable.mk "rtb-a" "vpc-1" []
       [RawRTAssociation.mk None (Some "subnet-a")]
       [RawVPCRoute.mk (Some "0.0.0.0/0") None (Some "vgw-0a1b") None None None None (Some "active");
        RawVPCRoute.mk (Some "0.0.0.0/0") None (Some "igw-0123") None None None None (Some igw_state)];
     RawVPCRouteTable.mk "rtb-main" "vpc-1" []
       [RawRTAssociation.mk (Some true) None]
       [RawVPCRoute.mk (Some "0.0.0.0/0") None None (Some "nat-0c2d") None None None (Some "active");
        RawVPCRoute.mk (Some "10.0.0.0/8") None (Some "local") None None None None (Some "active")]].

(** An export without [metadata.json]: one attachment whose record has no
    resource owner, one whose record has no gateway owner. *)
Definition owner_export : RawInput.t :=
  RawInput.mk None [] 
    [RawAttachment.mk "tgw-attach-1" "tgw-1" (Some "vpc") (Some "vpc-9") None
                      (Some "111122223333") [] (Some "available");
     RawAttachment.mk "tgw-attach-2" "tgw-1" (Some "vpn") (Some "vpn-7")
                      (Some "444455556666") None [] (Some "available")]
    [] [] [] [] [] [] [].

(** The export of a hub account [111122223333] with one gateway and three
    attachments: [tgw-attach-a] to the local VPC [vpc-1]; [tgw-attach-b]
    to a VPC of account [444455556666], which the export cannot describe;
    [tgw-attach-v] to a VPN.  Table [tgw-rtb-a] is associated with
    [tgw-attach-a] and holds the routes the two others propagate; table
    [tgw-rtb-b] is associated with [tgw-attach-b] and [tgw-attach-v] and
    holds the routes propagated by [tgw-attach-a] towards [tgw-attach-v]
    only, plus a blackhole route. *)
Definition hub_export : RawInput.t :=
  RawInput.mk (Some "111122223333")
    [RawTGW.mk "tgw-1" [Tag.mk (Some "Name") (Some "hub")] (Some "111122223333")
               (Some 64512%Z) (Some "available")]
    [RawAttachment.mk "tgw-attach-a" "tgw-1" (Some "vpc") (Some "vpc-1")
                      (Some "111122223333") (Some "111122223333") [] (Some "available");
     RawAttachment.mk "tgw-attach-b" "tgw-1" (Some "vpc") (Some "vpc-9")
                      (Some "444455556666") (Some "111122223333")
                      [Tag.mk (Some "Name") (Some "spoke")] (Some "available");
     RawAttachment.mk "tgw-attach-v" "tgw-1" (Some "vpn") (Some "vpn-7")
                      (Some "111122223333") (Some "111122223333") [] (Some "available")]
    [RawTGWRouteTable.mk "tgw-rtb-a" "tgw-1" [] (Some true) None;
     RawTGWRouteTable.mk "tgw-rtb-b" "tgw-1" [] None (Some true)]
    [("tgw-rtb-a", [RawAssociation.mk (Some "associated") (Some "tgw-attach-a")]);
     ("tgw-rtb-b", [RawAssociation.mk (Some "associated") (Some "tgw-attach-b");
                    RawAssociation.mk (Some "associated") (Some "tgw-attach-v");
                    RawAssociation.mk (Some "disassociating") (Some "tgw-attach-a")])]
    [("tgw-rtb-a", [RawAssociation.mk (Some "enabled") (Some "tgw-attach-b");
                    RawAssociation.mk (Some "enabled") (Some "tgw-attach-v")])]
    [("tgw-rtb-a",
      [RawTGWRoute.mk (Some "active") (Some "propagated") (Some "10.9.8.0/24") None
         [RawRouteAttachment.mk (Some "tgw-attach-b") (Some "vpc-9") (Some "vpc")];
       RawTGWRoute.mk (Some "active") (Some "propagated") (Some "10.9.0.0/16") None
         [RawRouteAttachment.mk (Some "tgw-attach-b") (Some "vpc-9") (Some "vpc")];
       RawTGWRoute.mk (Some "active") (Some "propagated") (Some "10.9.8.0/24") None
         [RawRouteAttachment.mk (Some "tgw-attach-b") (Some "vpc-9") (Some "vpc")];
       RawTGWRoute.mk (Some "active") (Some "static") (Some "172.16.0.0/12") None
         [RawRouteAttachment.mk (Some "tgw-attach-b") (Some "vpc-9") (Some "vpc")];
       RawTGWRoute.mk (Some "active") (Some "propagated") None (Some "pl-63a5400a")
         [RawRouteAttachment.mk (Some "tgw-attach-b") (Some "vpc-9") (Some "vpc")];
       RawTGWRoute.mk (Some "active") (Some "propagated") (Some "192.168.7.0/24") None
         [RawRouteAttachment.mk (Some "tgw-attach-v") (Some "vpn-7") (Some "vpn")];
       RawTGWRoute.mk (Some "active") (Some "propagated") (Some "10.200.0.0/16") None
         [RawRouteAttachment.mk (Some "tgw-attach-a") (Some "vpc-1") (Some "vpc")]]);
     ("tgw-rtb-b",
      [RawTGWRoute.mk (Some "active") (Some "propagated") (Some "192.168.7.0/24") None
         [RawRouteAttachment.mk (Some "tgw-attach-v") (Some "vpn-7") (Some "vpn")];
       RawTGWRoute.mk (Some "blackhole") (Some "static") (Some "10.0.0.0/16") None
         [RawRouteAttachment.mk (Some "tgw-attach-a") (Some "vpc-1") (Some "vpc")]])]
    [RawVPC.mk "vpc-1" (Some "10.0.0.0/16") ["10.0.0.0/16"; "10.1.0.0/16"]
               [Tag.mk (Some "Name") (Some "core")] (Some "111122223333") None]
    [] [].

(** An export whose association files name [tgw-attach-1] under two
    tables, and under the first also an attachment the export does not
    describe. *)
Definition two_table_export : RawInput.t :=
  RawInput.mk (Some "111122223333") []
    [RawAttachment.mk "tgw-attach-1" "tgw-1" (Some "vpc") (Some "vpc-1")
                      (Some "111122223333") (Some "111122223333") [] (Some "available")]
    [RawTGWRouteTable.mk "tgw-rtb-1" "tgw-1" [] None None;
     RawTGWRouteTable.mk "tgw-rtb-2" "tgw-1" [] None None]
    [("tgw-rtb-1", [RawAssociation.mk (Some "associated") (Some "tgw-attach-1");
                    RawAssociation.mk (Some "associated") (Some "tgw-attach-0")]);
     ("tgw-rtb-2", [RawAssociation.mk (Some "associated") (Some "tgw-attach-1")])]
    [] [] [] [] [].

(** The export of a spoke account [111122223333]: one attachment of a VPN
    owned by account [444455556666], whose record names no gateway owner. *)
Definition spoke_export : RawInput.t :=
  RawInput.mk (Some "111122223333") []
    [RawAttachment.mk "tgw-attach-s" "tgw-1" (Some "vpn") (Some "vpn-3")
                      (Some "444455556666") None [] (Some "available")]
    [] [] [] [] [] [] [].

(** ** Vocabulary of the recovery of cross-account CIDRs *)

(** A route that contributes its destination to the candidates of
    [att_id]: propagated, attributed to [att_id], with a destination CIDR. *)
Definition contributes (att_id cidr : string) (route : TGWRoute.t) : Prop :=
  TGWRoute.route_type route = RouteType.PROPAGATED
  /\ TGWRoute.attachment_id route = Some att_id /\ att_id <> ""
  /\ TGWRoute.destination_cidr route = cidr /\ cidr <> "".

(** [cidr] is a candidate for [att_id] among the routes [routes]. *)
Definition candidate_in (routes : list TGWRoute.t) (att_id cidr : string) : Prop :=
  exists route, In route routes /\ contributes att_id cidr route.

(** The routes of all TGW route tables, in the order the loops visit them. *)
Definition all_tgw_routes (d : NetworkData.t) : list TGWRoute.t :=
  flat_map TGWRouteTable.routes (dict_values (NetworkData.tgw_route_tables d)).

(** [cidr] is a candidate for [att_id] in the catalog: some route of some
    TGW route table contributes it. *)
Definition candidate (d : NetworkData.t) (att_id cidr : string) : Prop :=
  exists rt route,
    In rt (dict_values (NetworkData.tgw_route_tables d))
    /\ In route (TGWRouteTable.routes rt)
    /\ contributes att_id cidr route.

(** The attachments the recovery fills: of type VPC or VPN, without CIDRs. *)
Definition lacks_cidrs (a : TGWAttachment.t) : bool :=
  (AttachmentType.eqb (TGWAttachment.type a) AttachmentType.VPC
   || AttachmentType.eqb (TGWAttachment.type a) AttachmentType.VPN)
  && negb (nonempty (TGWAttachment.cidrs a)).

(** Ascending order of strings. *)
Definition str_le (x y : string) : Prop := String.leb x y = true.

(** What the candidate dictionary holds after the routes [done]: under
    each key the candidates of that key, at least one, without repetition. *)
Definition collected (acc : dict (list string)) (done : list TGWRoute.t) : Prop :=
  forall k,
    match dict_get acc k with
    | Some s => s <> [] /\ NoDup s /\ forall c, In c s <-> candidate_in done k c
    | None => forall c, ~ candidate_in done k c
    end.

(** A catalog written out by hand: one gateway, attachments [A] and [B].
    The table associated with [A] has an active route to the CIDR of [B]
    attributed to [B]; the table associated with [B] has only a blackhole
    route towards [A]. *)
Definition oneway_A : TGWAttachment.t :=
  TGWAttachment.mk "tgw-attach-A" "tgw-1" AttachmentType.VPC "vpc-A" "111122223333"
                   "A" "available" ["10.1.0.0/16"] (Some "tgw-rtb-A") [] false
                   "111122223333".

Definition oneway_B : TGWAttachment.t :=
  TGWAttachment.mk "tgw-attach-B" "tgw-1" AttachmentType.VPC "vpc-B" "111122223333"
                   "B" "available" ["10.2.0.0/16"] (Some "tgw-rtb-B") [] false
                   "111122223333".

Definition oneway_catalog : NetworkData.t :=
  NetworkData.mk
    [("tgw-1", TransitGateway.mk "tgw-1" "hub" "111122223333" 64512%Z "available")]
    [("tgw-rtb-A",
      TGWRouteTable.mk "tgw-rtb-A" "tgw-1" "rtb-A" false false
        [TGWRoute.mk "10.2.0.0/16" None (Some "tgw-attach-B") (Some "vpc-B") (Some "vpc")
                     RouteType.PROPAGATED RouteState.ACTIVE]
        ["tgw-attach-A"] []);
     ("tgw-rtb-B",
      TGWRouteTable.mk "tgw-rtb-B" "tgw-1" "rtb-B" false false
        [TGWRoute.mk "10.1.0.0/16" None (Some "tgw-attach-A") (Some "vpc-A") (Some "vpc")
                     RouteType.STATIC RouteState.BLACKHOLE]
        ["tgw-attach-B"] [])]
    [("tgw-attach-A", oneway_A); ("tgw-attach-B", oneway_B)]
    [] [] [] "111122223333".

(** A catalog written out by hand with three VPCs: the CIDR of the second
    lies inside the CIDR of the first, the third has a CIDR that does not
    parse and one apart from the others. *)
Definition overlap_catalog : NetworkData.t :=
  NetworkData.mk [] [] []
    [("vpc-1", VPC.mk "vpc-1" "core" ["10.0.0.0/16"] "111122223333" false None None);
     ("vpc-2", VPC.mk "vpc-2" "apps" ["10.0.5.0/24"] "111122223333" false None None);
     ("vpc-3", VPC.mk "vpc-3" "lab" ["10.0.0.0/33"; "172.16.0.0/12"] "111122223333"
                      false None None)]
    [] [] "111122223333".

(** [x] stands before [y] in [l]. *)
Definition before {A : Type} (l : list A) (x y : A) : Prop :=
  exists pre mid post, l = (pre ++ x :: mid ++ y :: post)%list.

(** The same catalog with its VPCs in the opposite order. *)
Definition overlap_catalog_reversed : NetworkData.t :=
  NetworkData.set_vpcs (rev (NetworkData.vpcs overlap_catalog)) overlap_catalog.

(** ** The other entities and checks

    The data classes behind the remaining checks of [ConnectivityAnalyzer],
    the collections of [NetworkData] that hold them, the derived queries of
    [NetworkData], and the checks themselves. *)

(** [str(n)] for an [int]. *)
Definition str_of_int (n : Z) : string := NilZero.string_of_int (Z.to_int n).

(** [str(n)] for a length or a count. *)
Definition str_of_nat (n : nat) : string := NilZero.string_of_uint (Nat.to_uint n).

(** [s.lower()] on the ASCII letters.  Bytes outside [A-Z] are kept, so
    the result equals an all-ASCII literal such as ["up"] exactly when
    Python's does. *)
Definition ascii_lower (c : ascii) : ascii :=
  let n := nat_of_ascii c in
  if (65 <=? n)%nat && (n <=? 90)%nat then ascii_of_nat (n + 32) else c.

Fixpoint str_lower (s : string) : string :=
  match s with
  | EmptyString => EmptyString
  | String c r => String (ascii_lower c) (str_lower r)
  end.

Module VPCPeering.
Record t := mk {
  id : string;
  name : string;
  status : string;
  requester_vpc_id : string;
  requester_cidr : string;
  accepter_vpc_id : string;
  accepter_cidr : string
}.
End VPCPeering.

Module VPNTunnel.
Record t := mk {
  outside_ip : string;
  status : string;
  status_message : string;
  accepted_route_count : Z;
  last_status_change : string
}.

Definition is_up (tunnel : t) : bool := status tunnel =? "UP".
End VPNTunnel.

Module VPNConnection.
Record t := mk {
  id : string;
  name : string;
  state : string;
  customer_gateway_id : string;
  tgw_id : option string;
  vpn_gateway_id : option string;
  tunnels : list VPNTunnel.t;
  static_routes_only : bool;
  enable_acceleration : bool;
  local_cidr : string;
  remote_cidr : string;
  routes : list string
}.

(** [sum(1 for t in self.tunnels if t.status == "UP")] *)
Definition up_count (vpn : t) : nat :=
  length (filter VPNTunnel.is_up (tunnels vpn)).

Definition tunnel_status (vpn : t) : string :=
  let total := length (tunnels vpn) in
  if (up_count vpn =? total)%nat then "all_up"
  else if (0 <? up_count vpn)%nat then "partial"
  else "down".

Definition tunnel_summary (vpn : t) : string :=
  str_of_nat (up_count vpn) ++ "/" ++ str_of_nat (length (tunnels vpn)) ++ " tunnels UP".
End VPNConnection.

Module BGPPeer.
Record t := mk {
  peer_id : string;
  asn : Z;
  amazon_address : string;
  customer_address : string;
  bgp_state : string;
  bgp_status : string
}.

Definition is_up (peer : t) : bool := str_lower (bgp_status peer) =? "up".
End BGPPeer.

Module DXConnection.
Record t := mk {
  id : string;
  name : string;
  state : string;
  location : string;
  bandwidth : string;
  vlan : Z;
  partner_name : string;
  provider_name : string;
  has_logical_redundancy : bool;
  aws_device : string
}.
End DXConnection.

Module DXVirtualInterface.
Record t := mk {
  id : string;
  name : string;
  vif_type : string;
  state : string;
  connection_id : string;
  vlan : Z;
  customer_asn : Z;
  amazon_asn : Z;
  amazon_address : string;
  customer_address : string;
  mtu : Z;
  jumbo_capable : bool;
  bgp_peers : list BGPPeer.t;
  dx_gateway_id : option string;
  virtual_gateway_id : option string;
  route_filter_prefixes : list string
}.

Definition up_count (vif : t) : nat :=
  length (filter BGPPeer.is_up (bgp_peers vif)).

Definition bgp_status (vif : t) : string :=
  if negb (nonempty (bgp_peers vif)) then "no_peers"
  else if (up_count vif =? length (bgp_peers vif))%nat then "all_up"
  else if (0 <? up_count vif)%nat then "partial"
  else "down".

Definition bgp_summary (vif : t) : string :=
  str_of_nat (up_count vif) ++ "/" ++ str_of_nat (length (bgp_peers vif)) ++ " BGP UP".
End DXVirtualInterface.

(** The collections of [NetworkData] that the checks below read and that
    the record [NetworkData.t] above leaves out. *)
Module Connectivity.
Record t := mk {
  peerings : dict VPCPeering.t;
  vpn_connections : dict VPNConnection.t;
  dx_connections : dict DXConnection.t;
  dx_vifs : dict DXVirtualInterface.t
}.
End Connectivity.

(** *** Derived queries of [NetworkData] *)

Definition is_hub_account (d : NetworkData.t) : bool :=
  (0 <? length (NetworkData.tgws d))%nat.

Definition is_spoke_account (d : NetworkData.t) : bool :=
  (length (NetworkData.tgws d) =? 0)%nat
  && (0 <? length (NetworkData.tgw_attachments d))%nat.

(** The set comprehension of [referenced_tgw_ids], as the list of its
    elements in the order of their first occurrence. *)
Definition referenced_tgw_ids (d : NetworkData.t) : list string :=
  fold_left
    (fun acc att =>
       if truthy (TGWAttachment.tgw_id att) then set_add (TGWAttachment.tgw_id att) acc
       else acc)
    (dict_values (NetworkData.tgw_attachments d)) [].

Definition cross_account_attachments (d : NetworkData.t) : list TGWAttachment.t :=
  filter TGWAttachment.is_cross_account (dict_values (NetworkData.tgw_attachments d)).

Definition local_attachments (d : NetworkData.t) : list TGWAttachment.t :=
  filter (fun a => negb (TGWAttachment.is_cross_account a))
         (dict_values (NetworkData.tgw_attachments d)).

(** *** The remaining checks *)

Definition blackhole_issue (rt : TGWRouteTable.t) (route : TGWRoute.t) : Issue.t :=
  Issue.mk "blackhole" "warning" (TGWRouteTable.name rt)
    ("Blackhole route to " ++ TGWRoute.destination route ++ " in " ++ TGWRouteTable.name rt).

Definition _check_blackholes (d : NetworkData.t) : list Issue.t :=
  flat_map
    (fun rt =>
       flat_map
         (fun route => if TGWRoute.is_blackhole route then [blackhole_issue rt route] else [])
         (TGWRouteTable.routes rt))
    (dict_values (NetworkData.tgw_route_tables d)).

Definition peering_issue (pcx : VPCPeering.t) : Issue.t :=
  Issue.mk "peering" "warning" (VPCPeering.name pcx)
    ("VPC Peering " ++ VPCPeering.name pcx ++ " is not active (status: "
       ++ VPCPeering.status pcx ++ ")").

Definition _check_peering_issues (x : Connectivity.t) : list Issue.t :=
  flat_map
    (fun pcx => if negb (VPCPeering.status pcx =? "active") then [peering_issue pcx] else [])
    (dict_values (Connectivity.peerings x)).

(** The value of [has_tgw_route] when the loop over the route tables ends. *)
Definition has_tgw_route (d : NetworkData.t) (vpc : VPC.t) : bool :=
  existsb
    (fun rt =>
       (VPCRouteTable.vpc_id rt =? VPC.id vpc)
       && existsb
            (fun route => RouteTargetType.eqb (VPCRoute.target_type route) RouteTargetType.TGW)
            (VPCRouteTable.routes rt))
    (dict_values (NetworkData.vpc_route_tables d)).

Definition missing_route_issue (vpc : VPC.t) : Issue.t :=
  Issue.mk "missing_route" "info" (VPC.name vpc)
    ("VPC " ++ VPC.name vpc ++ " is attached to TGW but has no TGW routes in any route table").

Definition _check_missing_routes (d : NetworkData.t) : list Issue.t :=
  flat_map
    (fun vpc =>
       if opt_truthy (VPC.tgw_attachment_id vpc) then
         if negb (has_tgw_route d vpc) then [missing_route_issue vpc] else []
       else [])
    (dict_values (NetworkData.vpcs d)).

Definition vpn_down_issue (vpn : VPNConnection.t) : Issue.t :=
  Issue.mk "vpn_down" "error" (VPNConnection.name vpn)
    ("All tunnels DOWN for VPN " ++ VPNConnection.name vpn).

Definition vpn_partial_issue (vpn : VPNConnection.t) (tunnel : VPNTunnel.t) : Issue.t :=
  let msg :=
    if truthy (VPNTunnel.status_message tunnel) then VPNTunnel.status_message tunnel
    else "No message" in
  Issue.mk "vpn_partial" "warning" (VPNConnection.name vpn)
    ("Tunnel " ++ VPNTunnel.outside_ip tunnel ++ " DOWN for " ++ VPNConnection.name vpn
       ++ ": " ++ msg).

(** The body of the loop of [_check_vpn_tunnels]. *)
Definition vpn_issues (vpn : VPNConnection.t) : list Issue.t :=
  let tunnels_down :=
    filter (fun t => negb (VPNTunnel.is_up t)) (VPNConnection.tunnels vpn) in
  if (length tunnels_down =? length (VPNConnection.tunnels vpn))%nat
     && (0 <? length (VPNConnection.tunnels vpn))%nat then
    [vpn_down_issue vpn]
  else if nonempty tunnels_down then map (vpn_partial_issue vpn) tunnels_down
  else [].

Definition _check_vpn_tunnels (x : Connectivity.t) : list Issue.t :=
  flat_map vpn_issues (dict_values (Connectivity.vpn_connections x)).

Definition dx_connection_issues (conn : DXConnection.t) : list Issue.t :=
  if DXConnection.state conn =? "down" then
    [Issue.mk "dx_down" "error" (DXConnection.name conn)
       ("Direct Connect connection " ++ DXConnection.name conn ++ " is DOWN at "
          ++ DXConnection.location conn)]
  else if negb (str_in (DXConnection.state conn) ["available"; "ordering"; "requested"]) then
    [Issue.mk "dx_degraded" "warning" (DXConnection.name conn)
       ("Direct Connect connection " ++ DXConnection.name conn ++ " is in state: "
          ++ DXConnection.state conn)]
  else [].

Definition bgp_partial_issue (vif : DXVirtualInterface.t) (peer : BGPPeer.t) : Issue.t :=
  Issue.mk "bgp_partial" "warning" (DXVirtualInterface.name vif)
    ("BGP peer ASN " ++ str_of_int (BGPPeer.asn peer) ++ " ("
       ++ BGPPeer.customer_address peer ++ ") DOWN on " ++ DXVirtualInterface.name vif).

Definition vif_state_issues (vif : DXVirtualInterface.t) : list Issue.t :=
  if negb (DXVirtualInterface.state vif =? "available") then
    [Issue.mk "vif_down" "error" (DXVirtualInterface.name vif)
       ("VIF " ++ DXVirtualInterface.name vif ++ " is in state: "
          ++ DXVirtualInterface.state vif)]
  else [].

Definition vif_bgp_issues (vif : DXVirtualInterface.t) : list Issue.t :=
  let bgp_down :=
    filter (fun p => negb (BGPPeer.is_up p)) (DXVirtualInterface.bgp_peers vif) in
  if (length bgp_down =? length (DXVirtualInterface.bgp_peers vif))%nat
     && (0 <? length (DXVirtualInterface.bgp_peers vif))%nat then
    [Issue.mk "bgp_down" "error" (DXVirtualInterface.name vif)
       ("All BGP peers DOWN for VIF " ++ DXVirtualInterface.name vif)]
  else if nonempty bgp_down then map (bgp_partial_issue vif) bgp_down
  else [].

Definition _check_dx_issues (x : Connectivity.t) : list Issue.t :=
  (flat_map dx_connection_issues (dict_values (Connectivity.dx_connections x))
   ++ flat_map (fun vif => vif_state_issues vif ++ vif_bgp_issues vif)
               (dict_values (Connectivity.dx_vifs x)))%list.

Definition find_issues (ip_network : string -> option IPNetwork.t)
  (d : NetworkData.t) (x : Connectivity.t) : list Issue.t :=
  (_check_blackholes d
   ++ _check_asymmetric_routing ip_network d
   ++ _check_peering_issues x
   ++ _check_cidr_overlaps ip_network d
   ++ _check_missing_routes d
   ++ _check_vpn_tunnels x
   ++ _check_dx_issues x)%list.

(** The issue types each check emits. *)
Definition issue_type_in (types : list string) (issue : Issue.t) : bool :=
  str_in (Issue.type issue) types.

Definition vpn_issue_types : list string := ["vpn_down"; "vpn_partial"].

Definition dx_issue_types : list string :=
  ["dx_down"; "dx_degraded"; "vif_down"; "bgp_down"; "bgp_partial"].

(** ** Vocabulary of the per-table files *)

(** The entries of the files that carry the table id [k], in file order. *)
Definition file_entries {X : Type} (files : list (string * list X)) (k : string) : list X :=
  flat_map (fun f => if fst f =? k then snd f else []) files.

(** The attachment id an association or propagation entry contributes when
    its state is [state]: none when the state differs or the id is absent
    or empty. *)
Definition linked_id (state : string) (e : RawAssociation.t) : list string :=
  if opt_eqb (RawAssociation.State e) state then
    match RawAssociation.TransitGatewayAttachmentId e with
    | Some att_id => if truthy att_id then [att_id] else []
    | None => []
    end
  else [].

(** The catalog once the propagation files are read. *)
Definition after_propagation_files (inp : RawInput.t) : NetworkData.t :=
  fold_left load_propagation_file (RawInput.propagation_files inp)
            (after_association_files inp).

(** The fields of a VPC that the phases after [_load_vpcs] never write. *)
Definition vpc_identity (vpc : VPC.t) : string * string * list string * string * bool :=
  (VPC.id vpc, VPC.name vpc, VPC.cidrs vpc, VPC.owner_id vpc, VPC.is_default vpc).

(** The catalog as [load] has it after [_load_vpcs]. *)
Definition after_vpcs (inp : RawInput.t) : NetworkData.t :=
  _load_vpcs inp (after_route_details inp).

(** The test of [_correlate_data] that links attachment [att] to the VPC
    [vpc_id], apart from the membership of [vpc_id] in the catalog. *)
Definition attachment_of_vpc (vpc_id : string) (att : TGWAttachment.t) : bool :=
  AttachmentType.eqb (TGWAttachment.type att) AttachmentType.VPC
  && (TGWAttachment.resource_id att =? vpc_id).

(** The VPC that [_correlate_data] links attachment [att] to, if any. *)
Definition vpc_of_attachment (vpcs : dict VPC.t) (att : TGWAttachment.t) : option VPC.t :=
  if AttachmentType.eqb (TGWAttachment.type att) AttachmentType.VPC
  then dict_get vpcs (TGWAttachment.resource_id att)
  else None.

(** The fields of a VPC that correlation copies to its attachment. *)
Definition vpc_label (vpc : VPC.t) : string * list string := (VPC.name vpc, VPC.cidrs vpc).

(** The catalog as [load] has it when it enters [_correlate_data]. *)
Definition before_correlation (inp : RawInput.t) : NetworkData.t :=
  _load_vpc_route_tables inp (_load_subnets inp (after_vpcs inp)).

(** The attachment types that the recovery of cross-account CIDRs serves. *)
Definition vpc_or_vpn (att : TGWAttachment.t) : bool :=
  AttachmentType.eqb (TGWAttachment.type att) AttachmentType.VPC
  || AttachmentType.eqb (TGWAttachment.type att) AttachmentType.VPN.

(** An export with one VPC and one attachment to it. *)
Definition local_vpc_export : RawInput.t :=
  RawInput.mk (Some "111122223333") []
    [RawAttachment.mk "tgw-attach-a" "tgw-1" (Some "vpc") (Some "vpc-1")
                      (Some "111122223333") None [] (Some "available")]
    [] [] [] []
    [RawVPC.mk "vpc-1" (Some "10.0.0.0/16") ["10.1.0.0/16"]
               [Tag.mk (Some "Name") (Some "core")] (Some "111122223333") None]
    [] [].

(** Agreement of the two sides of the propagations, on the attachments'
    [propagating_to] and the tables' [propagations] seen as dictionaries:
    a table lists an attachment as often as the attachment lists the
    table, and an attachment lists only tables of the catalog. *)
Definition propagations_agree (va vt : dict (list string)) : Prop :=
  (forall x l t p, dict_get va x = Some l -> dict_get vt t = Some p ->
     count_occ string_dec p x = count_occ string_dec l t)
  /\ (forall x l t, dict_get va x = Some l -> In t l -> dict_mem vt t = true).

Definition propagation_views (d : NetworkData.t)
  : dict (list string) * dict (list string) :=
  (dict_view TGWAttachment.propagating_to (NetworkData.tgw_attachments d),
   dict_view TGWRouteTable.propagations (NetworkData.tgw_route_tables d)).

(** What an entry of the [Associations] of a VPC route table record says:
    the subnet it names, if any, and whether it is the main association. *)
Definition assoc_subnet (assoc : RawRTAssociation.t) : list string :=
  match RawRTAssociation.SubnetId assoc with
  | Some subnet_id => if truthy subnet_id then [subnet_id] else []
  | None => []
  end.

Definition assoc_main (assoc : RawRTAssociation.t) : bool :=
  get_default (RawRTAssociation.Main assoc) false.

(** The table that a VPC route table record describes. *)
Definition make_vpc_route_table (rt : RawVPCRouteTable.t) : VPCRouteTable.t :=
  VPCRouteTable.mk
    (RawVPCRouteTable.RouteTableId rt)
    (RawVPCRouteTable.VpcId rt)
    (str_or (_get_name (RawVPCRouteTable.Tags rt)) (RawVPCRouteTable.RouteTableId rt))
    (existsb assoc_main (RawVPCRouteTable.Associations rt))
    (map make_vpc_route (RawVPCRouteTable.Routes rt))
    (flat_map assoc_subnet (RawVPCRouteTable.Associations rt)).

(** The record has an association that names subnet [k]; the record is of
    VPC [k] and has a main association. *)
Definition names_subnet (k : string) (rt : RawVPCRouteTable.t) : bool :=
  str_in k (flat_map assoc_subnet (RawVPCRouteTable.Associations rt)).

Definition main_table_of (k : string) (rt : RawVPCRouteTable.t) : bool :=
  (RawVPCRouteTable.VpcId rt =? k)
  && existsb assoc_main (RawVPCRouteTable.Associations rt).

(** The collections that the TGW phases of [load] never write. *)
Definition vpc_side (d : NetworkData.t)
  : dict VPC.t * dict VPCRouteTable.t * dict Subnet.t :=
  (NetworkData.vpcs d, NetworkData.vpc_route_tables d, NetworkData.subnets d).

(** *** Identifiers for the diagram *)

(** [s.replace(old, new)] for one-character [old] and [new].  The three
    characters replaced below are ASCII, and no byte of a multi-byte UTF-8
    sequence is ASCII, so replacing bytes is replacing characters. *)
Fixpoint replace_char (old new : ascii) (s : string) : string :=
  match s with
  | EmptyString => EmptyString
  | String c r => String (if Ascii.eqb c old then new else c) (replace_char old new r)
  end.

(** [HTMLReportGenerator._safe_id]. *)
Definition _safe_id (s : string) : string :=
  replace_char "/" "_" (replace_char "." "_" (replace_char "-" "_" s)).

(** The characters that [_safe_id] replaces. *)
Definition unsafe_char (c : ascii) : bool :=
  Ascii.eqb c "-" || Ascii.eqb c "." || Ascii.eqb c "/".

(** What the library's parser gives on a link-local IPv6 network written
    without and with a zone, and on nothing else: the two networks differ
    in the scope id only. *)
Definition link_local_network (s : string) : option IPNetwork.t :=
  if s =? "fe80::/64" then
    Some (IPNetwork.mk IPNetwork.IPv6 (Z.shiftl 65152 112) None 64)
  else if s =? "fe80::%1/64" then
    Some (IPNetwork.mk IPNetwork.IPv6 (Z.shiftl 65152 112) (Some "1") 64)
  else None.

(** * Properties *)

Example ipv4_network_ex1 :
  ipv4_network "10.0.5.7/24" = Some (IPNetwork.mk IPNetwork.IPv4 167773440 None 24).
Proof. reflexivity. Qed.

Example ipv4_network_ex2 :
  map ipv4_network ["10.0.0.0/16"; "0.0.0.0/0"; "10.0.0.1"; "10.0.0.0/33"; "10.00.0.0/8"; "::/0"; ""]
  = [Some (IPNetwork.mk IPNetwork.IPv4 167772160 None 16);
     Some (IPNetwork.mk IPNetwork.IPv4 0 None 0);
     Some (IPNetwork.mk IPNetwork.IPv4 167772161 None 32);
     None; None; None; None].
Proof. reflexivity. Qed.

(** ** Python values and dictionaries *)

Lemma truthy_true_iff (s : string) : truthy s = true <-> s <> "".
Proof.
  unfold truthy. rewrite negb_true_iff. apply String.eqb_neq.
Qed.

Lemma truthy_false_iff (s : string) : truthy s = false <-> s = "".
Proof.
  unfold truthy. rewrite negb_false_iff. apply String.eqb_eq.
Qed.

Lemma opt_truthy_true_iff (o : option string) :
  opt_truthy o = true <-> exists s, o = Some s /\ s <> "".
Proof.
  destruct o as [s|]; simpl.
  - rewrite truthy_true_iff. split.
    + intros H. exists s. split; [reflexivity | exact H].
    + intros [s' [E H]]. injection E as ->. exact H.
  - split; [discriminate | intros [s [E _]]; discriminate].
Qed.

Lemma opt_eqb_true_iff (o : option string) (s : string) :
  opt_eqb o s = true <-> o = Some s.
Proof.
  destruct o as [x|]; simpl.
  - rewrite String.eqb_eq. split; [intros -> | intros [= ->]]; reflexivity.
  - split; discriminate.
Qed.

Lemma str_in_true_iff (x : string) (l : list string) :
  str_in x l = true <-> In x l.
Proof.
  unfold str_in. rewrite existsb_exists. split.
  - intros [y [Hy E]]. apply String.eqb_eq in E. subst. exact Hy.
  - intros H. exists x. split; [exact H | apply String.eqb_refl].
Qed.

Lemma str_in_false_iff (x : string) (l : list string) :
  str_in x l = false <-> ~ In x l.
Proof.
  rewrite <- str_in_true_iff. destruct (str_in x l); split; congruence.
Qed.

Section DictFacts.
Context {V : Type}.
Implicit Types (d : dict V) (k : string) (v : V).

Lemma dict_mem_true_iff d k :
  dict_mem d k = true <-> exists v, dict_get d k = Some v.
Proof.
  unfold dict_mem. destruct (dict_get d k) as [v|].
  - split; [intros _; exists v; reflexivity | reflexivity].
  - split; [discriminate | intros [v E]; discriminate].
Qed.

Lemma dict_get_In d k v : dict_get d k = Some v -> In (k, v) d.
Proof.
  induction d as [|[k' v'] r IH]; simpl; [discriminate|].
  destruct (String.eqb_spec k' k) as [->|N].
  - intros [= ->]. left. reflexivity.
  - intros H. right. apply IH. exact H.
Qed.

Lemma dict_get_In_values d k v : dict_get d k = Some v -> In v (dict_values d).
Proof.
  intros H. apply dict_get_In in H. unfold dict_values.
  apply in_map_iff. exists (k, v). split; [reflexivity | exact H].
Qed.

Lemma In_dict_keys_get d k : In k (dict_keys d) <-> exists v, dict_get d k = Some v.
Proof.
  induction d as [|[k' v'] r IH]; simpl.
  - split; [intros [] | intros [v E]; discriminate].
  - destruct (String.eqb_spec k' k) as [->|N].
    + split; [intros _; exists v'; reflexivity | intros _; left; reflexivity].
    + rewrite <- IH. split; [intros [E|H]; [contradiction | exact H] | intros H; right; exact H].
Qed.

Lemma In_dict_get d k v : NoDup (dict_keys d) -> In (k, v) d -> dict_get d k = Some v.
Proof.
  induction d as [|[k' v'] r IH]; simpl; [intros _ []|].
  intros ND H. inversion ND as [|? ? Hn ND']; subst.
  destruct H as [[= -> ->]|H].
  - rewrite String.eqb_refl. reflexivity.
  - destruct (String.eqb_spec k' k) as [->|N].
    + exfalso. apply Hn. unfold dict_keys. apply in_map_iff.
      exists (k, v). split; [reflexivity | exact H].
    + apply IH; assumption.
Qed.

Lemma dict_keys_update d k (f : V -> V) : dict_keys (dict_update d k f) = dict_keys d.
Proof.
  induction d as [|[k' v'] r IH]; simpl; [reflexivity|].
  destruct (k' =? k); simpl; [reflexivity | rewrite IH; reflexivity].
Qed.

Lemma dict_get_update d k (f : V -> V) k' :
  dict_get (dict_update d k f) k' =
  if k =? k' then option_map f (dict_get d k') else dict_get d k'.
Proof.
  induction d as [|[k0 v0] r IH]; simpl.
  - destruct (k =? k'); reflexivity.
  - destruct (String.eqb_spec k0 k) as [->|N]; simpl.
    + destruct (String.eqb_spec k k') as [->|N']; reflexivity.
    + destruct (String.eqb_spec k0 k') as [->|N'].
      * destruct (String.eqb_spec k k') as [->|N'']; [contradiction | reflexivity].
      * exact IH.
Qed.

Lemma dict_get_set d k v k' :
  dict_get (dict_set d k v) k' = if k =? k' then Some v else dict_get d k'.
Proof.
  induction d as [|[k0 v0] r IH]; simpl.
  - reflexivity.
  - destruct (String.eqb_spec k0 k) as [->|N]; simpl.
    + destruct (String.eqb_spec k k') as [->|N']; reflexivity.
    + destruct (String.eqb_spec k0 k') as [->|N'].
      * destruct (String.eqb_spec k k') as [->|N'']; [contradiction | reflexivity].
      * exact IH.
Qed.

Lemma dict_mem_update d k (f : V -> V) k' :
  dict_mem (dict_update d k f) k' = dict_mem d k'.
Proof.
  unfold dict_mem. rewrite dict_get_update.
  destruct (k =? k'); destruct (dict_get d k'); reflexivity.
Qed.

Lemma Forall_dict_update (P : V -> Prop) d k (f : V -> V) :
  (forall v, P v -> P (f v)) ->
  Forall P (dict_values d) -> Forall P (dict_values (dict_update d k f)).
Proof.
  intros Hf. induction d as [|[k' v'] r IH]; simpl; intros H; [constructor|].
  inversion H as [|? ? Hv Hr]; subst.
  destruct (k' =? k); simpl; constructor; auto.
Qed.

Lemma Forall_dict_set (P : V -> Prop) d k v :
  P v -> Forall P (dict_values d) -> Forall P (dict_values (dict_set d k v)).
Proof.
  intros Hv. induction d as [|[k' v'] r IH]; simpl; intros H.
  - constructor; [exact Hv | constructor].
  - inversion H as [|? ? Hv' Hr]; subst.
    destruct (k' =? k); simpl; constructor; auto.
Qed.

Lemma NoDup_dict_keys_set d k v :
  NoDup (dict_keys d) -> NoDup (dict_keys (dict_set d k v)).
Proof.
  induction d as [|[k' v'] r IH]; simpl; intros ND.
  - constructor; [intros [] | constructor].
  - inversion ND as [|? ? Hn ND']; subst.
    destruct (String.eqb_spec k' k) as [->|N]; simpl.
    + constructor; assumption.
    + constructor; [| apply IH; exact ND'].
      intros Hin. apply In_dict_keys_get in Hin. destruct Hin as [w Hw].
      rewrite dict_get_set in Hw.
      destruct (String.eqb_spec k k') as [->|N']; [contradiction|].
      apply Hn. apply In_dict_keys_get. exists w. exact Hw.
Qed.

End DictFacts.

(** ** Route target resolution *)

Lemma prefix_head (c : ascii) (p s : string) :
  prefix (String c p) s = true -> exists r, s = String c r /\ prefix p r = true.
Proof.
  destruct s as [|b r]; simpl; [discriminate|].
  destruct (ascii_dec c b) as [->|N]; [|discriminate].
  intros H. exists r. split; [reflexivity | exact H].
Qed.

Lemma gateway_local (route : RawVPCRoute.t) :
  RawVPCRoute.GatewayId route = Some "local" ->
  _parse_vpc_route_target route = (RouteTargetType.LOCAL, "local").
Proof.
  intros E. unfold _parse_vpc_route_target. rewrite E. reflexivity.
Qed.

Lemma gateway_igw (route : RawVPCRoute.t) (gw : string) :
  RawVPCRoute.GatewayId route = Some gw -> prefix "igw-" gw = true ->
  _parse_vpc_route_target route = (RouteTargetType.IGW, gw).
Proof.
  intros E P. unfold _parse_vpc_route_target. rewrite E. simpl get_default.
  rewrite P.
  apply prefix_head in P. destruct P as [r [-> _]]. reflexivity.
Qed.

Lemma gateway_vgw (route : RawVPCRoute.t) (gw : string) :
  RawVPCRoute.GatewayId route = Some gw -> prefix "vgw-" gw = true ->
  _parse_vpc_route_target route = (RouteTargetType.VGW, gw).
Proof.
  intros E P. unfold _parse_vpc_route_target. rewrite E. simpl get_default.
  rewrite P.
  apply prefix_head in P. destruct P as [r [-> _]]. reflexivity.
Qed.

Lemma gateway_eigw (route : RawVPCRoute.t) (gw : string) :
  RawVPCRoute.GatewayId route = Some gw -> prefix "eigw-" gw = true ->
  _parse_vpc_route_target route = (RouteTargetType.EGRESS_IGW, gw).
Proof.
  intros E P. unfold _parse_vpc_route_target. rewrite E. simpl get_default.
  rewrite P.
  apply prefix_head in P. destruct P as [r [-> _]]. reflexivity.
Qed.

Lemma gateway_vpce (route : RawVPCRoute.t) (gw : string) :
  RawVPCRoute.GatewayId route = Some gw -> prefix "vpce-" gw = true ->
  _parse_vpc_route_target route = (RouteTargetType.VPC_ENDPOINT, gw).
Proof.
  intros E P. unfold _parse_vpc_route_target. rewrite E. simpl get_default.
  rewrite P.
  apply prefix_head in P. destruct P as [r [-> P]].
  apply prefix_head in P. destruct P as [r' [-> _]]. reflexivity.
Qed.

Lemma gateway_falls_through (route : RawVPCRoute.t) :
  gateway_recognised (get_default (RawVPCRoute.GatewayId route) "") = false ->
  _parse_vpc_route_target route = parse_after_gateway route.
Proof.
  unfold gateway_recognised, _parse_vpc_route_target. intros H.
  repeat (apply orb_false_iff in H; destruct H as [H ?]).
  destruct (opt_truthy (RawVPCRoute.GatewayId route)); [|reflexivity].
  cbv zeta.
  repeat match goal with E : _ = false |- _ => rewrite E; clear E end.
  reflexivity.
Qed.

(** C8, as stated, fails: a record whose gateway-id field is present is
    not always resolved by the gateway-id rule alone.  The two records
    below carry the same gateway id [cagw-0a1b], which is present but is
    neither [local] nor one of the four prefixes; the first also has a NAT
    gateway id and resolves to [nat], the second resolves to [unknown].  So
    the result depends on a later field although the gateway-id field is
    present. *)
Lemma parse_vpc_route_target_gateway_not_alone :
  opt_truthy (RawVPCRoute.GatewayId route_cagw_nat) = true
  /\ RawVPCRoute.GatewayId route_cagw_only = RawVPCRoute.GatewayId route_cagw_nat
  /\ _parse_vpc_route_target route_cagw_nat = (RouteTargetType.NAT, "nat-0c2d")
  /\ _parse_vpc_route_target route_cagw_only = (RouteTargetType.UNKNOWN, "")
  /\ _parse_vpc_route_target route_cagw_nat <> _parse_vpc_route_target route_cagw_only.
Proof.
  repeat split; try reflexivity. discriminate.
Qed.

(** C8 (amended): route target resolution looks at the gateway-id field
    first.  When that field is exactly [local] or starts with [igw-],
    [vgw-], [eigw-] or [vpce-], the gateway rule alone gives the result,
    whatever the later fields hold.  When the gateway id is absent, empty
    or of any other form, the later fields are consulted in strict priority
    order: NAT-gateway id gives nat, else transit-gateway id gives tgw,
    else VPC-peering id gives vpc-peering, else network-interface id gives
    eni, else the result is unknown with an empty target id. *)
Theorem parse_vpc_route_target_priority (route : RawVPCRoute.t) :
  (forall gw, RawVPCRoute.GatewayId route = Some gw ->
     (gw = "local" ->
        _parse_vpc_route_target route = (RouteTargetType.LOCAL, "local"))
     /\ (prefix "igw-" gw = true ->
           _parse_vpc_route_target route = (RouteTargetType.IGW, gw))
     /\ (prefix "vgw-" gw = true ->
           _parse_vpc_route_target route = (RouteTargetType.VGW, gw))
     /\ (prefix "eigw-" gw = true ->
           _parse_vpc_route_target route = (RouteTargetType.EGRESS_IGW, gw))
     /\ (prefix "vpce-" gw = true ->
           _parse_vpc_route_target route = (RouteTargetType.VPC_ENDPOINT, gw)))
  /\ (gateway_recognised (get_default (RawVPCRoute.GatewayId route) "") = false ->
      (forall n, RawVPCRoute.NatGatewayId route = Some n -> n <> "" ->
         _parse_vpc_route_target route = (RouteTargetType.NAT, n))
      /\ (opt_truthy (RawVPCRoute.NatGatewayId route) = false ->
          (forall t, RawVPCRoute.TransitGatewayId route = Some t -> t <> "" ->
             _parse_vpc_route_target route = (RouteTargetType.TGW, t))
          /\ (opt_truthy (RawVPCRoute.TransitGatewayId route) = false ->
              (forall p, RawVPCRoute.VpcPeeringConnectionId route = Some p -> p <> "" ->
                 _parse_vpc_route_target route = (RouteTargetType.VPC_PEERING, p))
              /\ (opt_truthy (RawVPCRoute.VpcPeeringConnectionId route) = false ->
                  (forall e, RawVPCRoute.NetworkInterfaceId route = Some e -> e <> "" ->
                     _parse_vpc_route_target route = (RouteTargetType.ENI, e))
                  /\ (opt_truthy (RawVPCRoute.NetworkInterfaceId route) = false ->
                      _parse_vpc_route_target route = (RouteTargetType.UNKNOWN, "")))))).
Proof.
  split.
  - intros gw E. repeat split.
    + intros ->. apply gateway_local. exact E.
    + apply gateway_igw. exact E.
    + apply gateway_vgw. exact E.
    + apply gateway_eigw. exact E.
    + apply gateway_vpce. exact E.
  - intros G. rewrite (gateway_falls_through route G).
    unfold parse_after_gateway. split.
    + intros n E N. rewrite E. simpl.
      apply truthy_true_iff in N. rewrite N. reflexivity.
    + intros F1. rewrite F1. split.
      * intros t E N. rewrite E. simpl.
        apply truthy_true_iff in N. rewrite N. reflexivity.
      * intros F2. rewrite F2. split.
        -- intros p E N. rewrite E. simpl.
           apply truthy_true_iff in N. rewrite N. reflexivity.
        -- intros F3. rewrite F3. split.
           ++ intros e E N. rewrite E. simpl.
              apply truthy_true_iff in N. rewrite N. reflexivity.
           ++ intros F4. rewrite F4. reflexivity.
Qed.

(** The amended statement at a record with every field filled in: the
    internet gateway wins over the four later fields. *)
Lemma parse_vpc_route_target_priority_witness :
  _parse_vpc_route_target route_all_fields = (RouteTargetType.IGW, "igw-0123").
Proof.
  apply (proj1 (proj2 (proj1 (parse_vpc_route_target_priority route_all_fields)
                         "igw-0123" eq_refl))).
  reflexivity.
Defined.

(** ** Subnet classification *)

Lemma load_before_classification (inp : RawInput.t) :
  load inp = _classify_subnets (before_classification inp).
Proof. reflexivity. Qed.

Lemma classify_subnet_eq (d : NetworkData.t) (subnet : Subnet.t) :
  classify_subnet d subnet =
  Subnet.set_subnet_type
    (match effective_table d subnet with
     | Some rt => scan_routes (VPCRouteTable.routes rt) (Subnet.subnet_type subnet)
     | None => SubnetType.ISOLATED
     end) subnet.
Proof.
  unfold classify_subnet, effective_table.
  destruct (effective_rt_id d subnet) as [rt_id|]; [|reflexivity].
  destruct (truthy rt_id); [|reflexivity].
  destruct (dict_get (NetworkData.vpc_route_tables d) rt_id); reflexivity.
Qed.

Lemma dict_get_map_values {V W : Type} (f : V -> W) (d : dict V) (k : string) :
  dict_get (map (fun kv => (fst kv, f (snd kv))) d) k = option_map f (dict_get d k).
Proof.
  induction d as [|[k' v] r IH]; simpl; [reflexivity|].
  destruct (k' =? k); [reflexivity | exact IH].
Qed.

Lemma classify_subnets_get (d : NetworkData.t) (k : string) :
  dict_get (NetworkData.subnets (_classify_subnets d)) k =
  option_map (classify_subnet d) (dict_get (NetworkData.subnets d) k).
Proof.
  unfold _classify_subnets. simpl. apply dict_get_map_values.
Qed.

Lemma scan_routes_skip (pre rest : list VPCRoute.t) (current : SubnetType.t) :
  (forall x, In x pre -> decisive x = false) ->
  scan_routes (pre ++ rest) current = scan_routes rest current.
Proof.
  induction pre as [|x pre IH]; intros H; simpl; [reflexivity|].
  assert (Hx : decisive x = false) by (apply H; left; reflexivity).
  assert (IH' : scan_routes (pre ++ rest) current = scan_routes rest current)
    by (apply IH; intros y Hy; apply H; right; exact Hy).
  unfold decisive in Hx.
  destruct (is_default_destination (VPCRoute.destination x)); [|exact IH'].
  destruct (VPCRoute.target_type x); simpl in Hx; try discriminate; exact IH'.
Qed.

Lemma scan_routes_decisive (r : VPCRoute.t) (post : list VPCRoute.t)
  (current : SubnetType.t) :
  decisive r = true ->
  scan_routes (r :: post) current = class_of_target (VPCRoute.target_type r).
Proof.
  unfold decisive. intros H. apply andb_true_iff in H. destruct H as [D T].
  simpl. rewrite D.
  destruct (VPCRoute.target_type r); simpl in T; try discriminate; reflexivity.
Qed.

Lemma scan_routes_first_decisive (pre : list VPCRoute.t) (r : VPCRoute.t)
  (post : list VPCRoute.t) (current : SubnetType.t) :
  (forall x, In x pre -> decisive x = false) -> decisive r = true ->
  scan_routes (pre ++ r :: post) current = class_of_target (VPCRoute.target_type r).
Proof.
  intros Hpre Hr. rewrite scan_routes_skip by exact Hpre.
  apply scan_routes_decisive. exact Hr.
Qed.

Lemma scan_routes_none (routes : list VPCRoute.t) (current : SubnetType.t) :
  (forall x, In x routes -> decisive x = false) ->
  scan_routes routes current = current.
Proof.
  intros H. rewrite <- (app_nil_r routes).
  rewrite scan_routes_skip by exact H. reflexivity.
Qed.

Lemma not_default_not_decisive (x : VPCRoute.t) :
  is_default_destination (VPCRoute.destination x) = false -> decisive x = false.
Proof. unfold decisive. intros ->. reflexivity. Qed.

Lemma effective_table_explicit (d : NetworkData.t) (subnet : Subnet.t) (r : string) :
  Subnet.route_table_id subnet = Some r -> r <> "" ->
  effective_table d subnet = dict_get (NetworkData.vpc_route_tables d) r.
Proof.
  intros E N. unfold effective_table, effective_rt_id. rewrite E. simpl.
  apply truthy_true_iff in N. rewrite N. rewrite N. reflexivity.
Qed.

Lemma effective_table_main (d : NetworkData.t) (subnet : Subnet.t) :
  opt_truthy (Subnet.route_table_id subnet) = false ->
  effective_table d subnet =
  match dict_get (NetworkData.vpcs d) (Subnet.vpc_id subnet) with
  | Some vpc =>
      match VPC.main_route_table_id vpc with
      | Some m => if truthy m then dict_get (NetworkData.vpc_route_tables d) m else None
      | None => None
      end
  | None => None
  end.
Proof.
  intros F. unfold effective_table, effective_rt_id. rewrite F.
  destruct (dict_get (NetworkData.vpcs d) (Subnet.vpc_id subnet)) as [vpc|].
  - reflexivity.
  - destruct (Subnet.route_table_id subnet) as [r|]; [|reflexivity].
    simpl in F. rewrite F. reflexivity.
Qed.

(** C3: a subnet of the catalog, still [isolated] as the loader created it,
    is classified by its effective route table: the table under its
    explicit [route_table_id], else the table under the main route table id
    of its VPC.  When no table of the catalog resolves, the class is
    isolated.  Otherwise the routes are scanned in order: a default route
    ([0.0.0.0/0] or [::/0]) to an internet gateway gives public, to a NAT
    gateway private, to a transit gateway tgw-attached, provided no earlier
    route already settled the class; with no default route at all the
    subnet stays isolated.  Routes [(0.0.0.0/0, nat); (10.0.0.0/8, local)]
    give private and an empty table gives isolated. *)
Theorem classify_subnets_by_default_route
  (d : NetworkData.t) (k : string) (subnet : Subnet.t)
  (Hk : dict_get (NetworkData.subnets d) k = Some subnet)
  (Hinit : Subnet.subnet_type subnet = SubnetType.ISOLATED) :
  exists subnet',
    dict_get (NetworkData.subnets (_classify_subnets d)) k = Some subnet'
    /\ (forall r, Subnet.route_table_id subnet = Some r -> r <> "" ->
          effective_table d subnet = dict_get (NetworkData.vpc_route_tables d) r)
    /\ (opt_truthy (Subnet.route_table_id subnet) = false ->
          effective_table d subnet =
          match dict_get (NetworkData.vpcs d) (Subnet.vpc_id subnet) with
          | Some vpc =>
              match VPC.main_route_table_id vpc with
              | Some m =>
                  if truthy m then dict_get (NetworkData.vpc_route_tables d) m else None
              | None => None
              end
          | None => None
          end)
    /\ (effective_table d subnet = None ->
          Subnet.subnet_type subnet' = SubnetType.ISOLATED)
    /\ (forall rt, effective_table d subnet = Some rt ->
          (forall pre r post,
              VPCRouteTable.routes rt = (pre ++ r :: post)%list ->
              (forall x, In x pre -> decisive x = false) ->
              is_default_destination (VPCRoute.destination r) = true ->
              (VPCRoute.target_type r = RouteTargetType.IGW ->
                 Subnet.subnet_type subnet' = SubnetType.PUBLIC)
              /\ (VPCRoute.target_type r = RouteTargetType.NAT ->
                    Subnet.subnet_type subnet' = SubnetType.PRIVATE)
              /\ (VPCRoute.target_type r = RouteTargetType.TGW ->
                    Subnet.subnet_type subnet' = SubnetType.TGW_ATTACHED))
          /\ ((forall x, In x (VPCRouteTable.routes rt) ->
                 is_default_destination (VPCRoute.destination x) = false) ->
              Subnet.subnet_type subnet' = SubnetType.ISOLATED)
          /\ (forall i1 s1 i2 s2,
                VPCRouteTable.routes rt =
                [VPCRoute.mk "0.0.0.0/0" RouteTargetType.NAT i1 s1;
                 VPCRoute.mk "10.0.0.0/8" RouteTargetType.LOCAL i2 s2] ->
                Subnet.subnet_type subnet' = SubnetType.PRIVATE)
          /\ (VPCRouteTable.routes rt = [] ->
                Subnet.subnet_type subnet' = SubnetType.ISOLATED)).
Proof.
  exists (classify_subnet d subnet).
  split; [rewrite classify_subnets_get, Hk; reflexivity|].
  split; [apply effective_table_explicit|].
  split; [apply effective_table_main|].
  rewrite classify_subnet_eq. simpl.
  split; [intros ->; reflexivity|].
  intros rt ->. rewrite Hinit. split; [|split; [|split]].
  - intros pre r post E Hpre D. rewrite E.
    repeat split; intros T;
      rewrite (scan_routes_first_decisive pre r post); auto;
      try (rewrite T; reflexivity);
      unfold decisive; rewrite D, T; reflexivity.
  - intros H. apply scan_routes_none.
    intros x Hx. apply not_default_not_decisive. apply H. exact Hx.
  - intros i1 s1 i2 s2 ->. reflexivity.
  - intros ->. reflexivity.
Qed.

(** C3 on [subnet-b] of the example export, which falls under the main
    table with routes [(0.0.0.0/0, nat); (10.0.0.0/8, local)]. *)
Lemma classify_subnets_by_default_route_witness :
  exists subnet subnet',
    dict_get (NetworkData.subnets (before_classification (vpc_export "active"))) "subnet-b"
      = Some subnet
    /\ Subnet.subnet_type subnet = SubnetType.ISOLATED
    /\ dict_get (NetworkData.subnets (load (vpc_export "active"))) "subnet-b" = Some subnet'
    /\ Subnet.subnet_type subnet' = SubnetType.PRIVATE.
Proof.
  pose (d := before_classification (vpc_export "active")).
  pose (s := Subnet.mk "subnet-b" "vpc-1" "10.0.2.0/24" "eu-west-1b" "subnet-b"
               None SubnetType.ISOLATED).
  destruct (classify_subnets_by_default_route d "subnet-b" s eq_refl eq_refl)
    as [s' [Hget [_ [_ [_ Hrt]]]]].
  exists s, s'. split; [reflexivity|]. split; [reflexivity|].
  split; [exact Hget|].
  refine (proj1 (proj2 (proj2 (Hrt _ eq_refl))) _ _ _ _ eq_refl).
Defined.

(** C4, as stated, fails.  In the example export [subnet-a] is associated
    with [rtb-a], whose routes are [(0.0.0.0/0, vgw); (0.0.0.0/0, igw)] in
    that order.  The first default-route entry targets a virtual private
    gateway, yet the loader classifies the subnet public, not isolated: the
    second default-route entry is consulted. *)
Lemma classify_consults_later_default_route :
  option_map
    (fun rt => map (fun r => (VPCRoute.destination r, VPCRoute.target_type r))
                   (VPCRouteTable.routes rt))
    (dict_get (NetworkData.vpc_route_tables (load (vpc_export "active"))) "rtb-a")
  = Some [("0.0.0.0/0", RouteTargetType.VGW); ("0.0.0.0/0", RouteTargetType.IGW)]
  /\ option_map Subnet.route_table_id
       (dict_get (NetworkData.subnets (load (vpc_export "active"))) "subnet-a")
     = Some (Some "rtb-a")
  /\ option_map Subnet.subnet_type
       (dict_get (NetworkData.subnets (load (vpc_export "active"))) "subnet-a")
     = Some SubnetType.PUBLIC
  /\ option_map Subnet.subnet_type
       (dict_get (NetworkData.subnets (load (vpc_export "active"))) "subnet-a")
     <> Some SubnetType.ISOLATED.
Proof.
  repeat split; try reflexivity. discriminate.
Qed.

(** C4 (amended): the class of a subnet is decided by the first route of
    its effective table that is a default route ([0.0.0.0/0] or [::/0])
    and targets igw, nat or tgw.  A default-route entry with any other
    target is passed over and the entries after it are still consulted;
    the subnet remains isolated when no default-route entry targets igw,
    nat or tgw.  A table with routes [(0.0.0.0/0, vgw); (0.0.0.0/0, igw)]
    classifies its subnets public. *)
Theorem classify_subnets_first_decisive_route
  (d : NetworkData.t) (k : string) (subnet : Subnet.t)
  (Hk : dict_get (NetworkData.subnets d) k = Some subnet)
  (Hinit : Subnet.subnet_type subnet = SubnetType.ISOLATED) :
  exists subnet',
    dict_get (NetworkData.subnets (_classify_subnets d)) k = Some subnet'
    /\ forall rt, effective_table d subnet = Some rt ->
         (forall pre r post,
             VPCRouteTable.routes rt = (pre ++ r :: post)%list ->
             (forall x, In x pre -> decisive x = false) ->
             decisive r = true ->
             Subnet.subnet_type subnet' = class_of_target (VPCRoute.target_type r))
         /\ (forall pre r post,
               VPCRouteTable.routes rt = (pre ++ r :: post)%list ->
               (forall x, In x pre -> decisive x = false) ->
               decisive r = false ->
               Subnet.subnet_type subnet' = scan_routes post SubnetType.ISOLATED)
         /\ ((forall x, In x (VPCRouteTable.routes rt) -> decisive x = false) ->
             Subnet.subnet_type subnet' = SubnetType.ISOLATED)
         /\ (forall i1 s1 i2 s2,
               VPCRouteTable.routes rt =
               [VPCRoute.mk "0.0.0.0/0" RouteTargetType.VGW i1 s1;
                VPCRoute.mk "0.0.0.0/0" RouteTargetType.IGW i2 s2] ->
               Subnet.subnet_type subnet' = SubnetType.PUBLIC).
Proof.
  exists (classify_subnet d subnet).
  split; [rewrite classify_subnets_get, Hk; reflexivity|].
  intros rt Hrt. rewrite classify_subnet_eq, Hrt, Hinit. simpl.
  split; [|split; [|split]].
  - intros pre r post -> Hpre Hr. apply scan_routes_first_decisive; assumption.
  - intros pre r post -> Hpre Hr.
    rewrite scan_routes_skip by exact Hpre.
    change (r :: post) with ([r] ++ post)%list.
    apply scan_routes_skip. intros x [<-|[]]. exact Hr.
  - apply scan_routes_none.
  - intros i1 s1 i2 s2 ->. reflexivity.
Qed.

(** C4 (amended) on [subnet-a] of the example export. *)
Lemma classify_subnets_first_decisive_route_witness :
  exists subnet',
    dict_get (NetworkData.subnets (load (vpc_export "active"))) "subnet-a" = Some subnet'
    /\ Subnet.subnet_type subnet' = SubnetType.PUBLIC.
Proof.
  pose (d := before_classification (vpc_export "active")).
  pose (s := Subnet.mk "subnet-a" "vpc-1" "10.0.1.0/24" "eu-west-1a" "subnet-a"
               (Some "rtb-a") SubnetType.ISOLATED).
  destruct (classify_subnets_first_decisive_route d "subnet-a" s eq_refl eq_refl)
    as [s' [Hget Hrt]].
  exists s'. split; [exact Hget|].
  refine (proj2 (proj2 (proj2 (Hrt _ eq_refl))) _ _ _ _ eq_refl).
Defined.

Lemma scan_routes_state_blind (rs rs' : list VPCRoute.t) (current : SubnetType.t) :
  Forall2 same_route_but_state rs rs' ->
  scan_routes rs current = scan_routes rs' current.
Proof.
  induction 1 as [|r r' rs rs' [Hd [Ht _]] _ IH]; simpl; [reflexivity|].
  rewrite Hd, Ht, IH. reflexivity.
Qed.

Lemma dict_get_same_tables (t t' : dict VPCRouteTable.t) (k : string) :
  Forall2 (fun kv kv' => fst kv = fst kv' /\ same_table_but_states (snd kv) (snd kv')) t t' ->
  match dict_get t k, dict_get t' k with
  | Some rt, Some rt' => same_table_but_states rt rt'
  | None, None => True
  | _, _ => False
  end.
Proof.
  intros H. induction H as [|[k1 v1] [k2 v2] r r' [Hk Hv] _ IH]; simpl; [exact I|].
  simpl in Hk, Hv. subst k2.
  destruct (k1 =? k); [exact Hv | exact IH].
Qed.

Lemma classify_subnet_state_blind (d d' : NetworkData.t) (subnet : Subnet.t) :
  same_catalog_but_vpc_route_states d d' ->
  classify_subnet d subnet = classify_subnet d' subnet.
Proof.
  intros [_ [_ [_ [Hv [_ [_ Ht]]]]]].
  unfold classify_subnet, effective_rt_id. rewrite <- Hv.
  match goal with |- match ?e with _ => _ end = _ => destruct e as [rt_id|] end;
    [|reflexivity].
  destruct (truthy rt_id); [|reflexivity].
  pose proof (dict_get_same_tables _ _ rt_id Ht) as H.
  destruct (dict_get (NetworkData.vpc_route_tables d) rt_id) as [rt|],
           (dict_get (NetworkData.vpc_route_tables d') rt_id) as [rt'|];
    try contradiction; [|reflexivity].
  destruct H as [_ [_ [_ [_ [_ Hr]]]]].
  rewrite (scan_routes_state_blind _ _ _ Hr). reflexivity.
Qed.

(** C10: subnet classification never reads the state of a route.  Two
    catalogs that differ at most in the states of their VPC routes get the
    same subnets with the same classes.  And a subnet whose effective
    table has, before any other default route to an internet gateway, a
    NAT gateway or a transit gateway, a default route to an internet
    gateway is classified public by [_classify_subnets] whatever the state
    of that route, blackhole included, in both catalogs. *)
Theorem classify_subnets_ignores_route_state (d d' : NetworkData.t)
  (Hsame : same_catalog_but_vpc_route_states d d') :
  NetworkData.subnets (_classify_subnets d) = NetworkData.subnets (_classify_subnets d')
  /\ (forall k subnet rt pre dest target_id state rest,
        dict_get (NetworkData.subnets d) k = Some subnet ->
        effective_table d subnet = Some rt ->
        VPCRouteTable.routes rt
        = (pre ++ VPCRoute.mk dest RouteTargetType.IGW target_id state :: rest)%list ->
        (forall r, In r pre -> decisive r = false) ->
        is_default_destination dest = true ->
        dict_get (NetworkData.subnets (_classify_subnets d)) k
        = Some (Subnet.set_subnet_type SubnetType.PUBLIC subnet)
        /\ dict_get (NetworkData.subnets (_classify_subnets d')) k
           = Some (Subnet.set_subnet_type SubnetType.PUBLIC subnet)).
Proof.
  assert (E : NetworkData.subnets (_classify_subnets d)
              = NetworkData.subnets (_classify_subnets d')).
  { unfold _classify_subnets. simpl.
    assert (Hs : NetworkData.subnets d = NetworkData.subnets d') by apply Hsame.
    rewrite <- Hs.
    apply map_ext. intros [k s]. simpl. f_equal.
    apply classify_subnet_state_blind. exact Hsame. }
  split; [exact E|].
  intros k subnet rt pre dest target_id state rest Hk Ht Hr Hpre Hd.
  assert (G : dict_get (NetworkData.subnets (_classify_subnets d)) k
              = Some (Subnet.set_subnet_type SubnetType.PUBLIC subnet)).
  { rewrite classify_subnets_get, Hk. cbn [option_map].
    rewrite classify_subnet_eq, Ht, Hr, (scan_routes_skip _ _ _ Hpre).
    cbn [scan_routes VPCRoute.destination VPCRoute.target_type]. rewrite Hd.
    reflexivity. }
  split; [exact G | rewrite <- E; exact G].
Qed.

(** C10 on the example export, with the internet-gateway route of [rtb-a]
    once blackhole and once active: the subnets come out the same although
    the tables differ, and [subnet-a], whose table [rtb-a] has the
    blackhole route to the internet gateway after a default route to a
    virtual private gateway, is public. *)
Lemma classify_subnets_ignores_route_state_witness :
  NetworkData.subnets (load (vpc_export "blackhole"))
  = NetworkData.subnets (load (vpc_export "active"))
  /\ NetworkData.vpc_route_tables (load (vpc_export "blackhole"))
     <> NetworkData.vpc_route_tables (load (vpc_export "active"))
  /\ dict_get (NetworkData.subnets (load (vpc_export "blackhole"))) "subnet-a"
     = Some (Subnet.mk "subnet-a" "vpc-1" "10.0.1.0/24" "eu-west-1a" "subnet-a"
               (Some "rtb-a") SubnetType.PUBLIC).
Proof.
  assert (Hsame : same_catalog_but_vpc_route_states
                    (before_classification (vpc_export "blackhole"))
                    (before_classification (vpc_export "active"))).
  { unfold same_catalog_but_vpc_route_states, same_table_but_states,
      same_route_but_state.
    repeat split; try reflexivity.
    repeat (constructor; simpl; repeat split; try reflexivity). }
  destruct (classify_subnets_ignores_route_state _ _ Hsame) as [H1 H2].
  split; [exact H1|]. split; [discriminate|].
  refine (proj1 (H2 "subnet-a"
                    (Subnet.mk "subnet-a" "vpc-1" "10.0.1.0/24" "eu-west-1a" "subnet-a"
                       (Some "rtb-a") SubnetType.ISOLATED)
                    _
                    [VPCRoute.mk "0.0.0.0/0" RouteTargetType.VGW "vgw-0a1b"
                                 RouteState.ACTIVE]
                    "0.0.0.0/0" "igw-0123" RouteState.BLACKHOLE [] _ _ _ _ _)).
  - reflexivity.
  - reflexivity.
  - reflexivity.
  - intros r [<-|[]]. reflexivity.
  - reflexivity.
Defined.

(** ** CIDR matching *)

Section CidrMatching.
Variable ip_network : string -> option IPNetwork.t.












End CidrMatching.


Example cidr_matches_examples :
  map (fun p => _cidr_matches ipv4_network (fst p) (snd p))
      [("10.0.0.0/8", "10.1.2.0/24"); ("10.1.2.0/24", "10.0.0.0/8");
       ("10.1.2.0/24", "10.1.2.0/24"); ("0.0.0.0/0", "not a cidr");
       ("pl-63a5400a", "pl-63a5400a"); ("pl-63a5400a", "10.0.0.0/8");
       ("10.0.0.0/8", "")]
  = [true; false; true; true; true; false; false].
Proof. reflexivity. Qed.

(** A zone separates two networks that have the same address range: with
    and without zone, neither matches the other although each matches
    itself, and the two overlap. *)
Example cidr_matches_scope_id :
  map (fun p => _cidr_matches link_local_network (fst p) (snd p))
      [("fe80::/64", "fe80::%1/64"); ("fe80::%1/64", "fe80::/64");
       ("fe80::/64", "fe80::/64"); ("fe80::%1/64", "fe80::%1/64")]
  = [false; false; true; true]
  /\ cidrs_overlap link_local_network "fe80::/64" "fe80::%1/64" = true.
Proof. split; vm_compute; reflexivity. Qed.

(** ** What each loader phase leaves alone *)

Lemma fold_left_invariant {S X : Type} (f : S -> X -> S) (Q : S -> Prop) :
  (forall s x, Q s -> Q (f s x)) ->
  forall l s, Q s -> Q (fold_left f l s).
Proof.
  intros Hf. induction l as [|x l IH]; simpl; intros s H; [exact H|].
  apply IH. apply Hf. exact H.
Qed.

Lemma load_rt_association_tgw_side (rt : RawVPCRouteTable.t)
  (st : NetworkData.t * VPCRouteTable.t) (assoc : RawRTAssociation.t) :
  tgw_side (fst (load_rt_association rt st assoc)) = tgw_side (fst st).
Proof.
  destruct st as [d vpc_rt]. unfold load_rt_association.
  destruct (get_default (RawRTAssociation.Main assoc) false);
    destruct (RawRTAssociation.SubnetId assoc) as [s|];
    try destruct (truthy s); reflexivity.
Qed.

Lemma load_vpc_route_table_tgw_side (d : NetworkData.t) (rt : RawVPCRouteTable.t) :
  tgw_side (load_vpc_route_table d rt) = tgw_side d.
Proof.
  unfold load_vpc_route_table.
  match goal with
  | |- context [fold_left ?f ?l ?s0] =>
      pose proof (fold_left_invariant f (fun st => tgw_side (fst st) = tgw_side d)
                    (fun st x H => eq_trans (load_rt_association_tgw_side rt st x) H)
                    l s0 eq_refl) as H;
      destruct (fold_left f l s0) as [d' vpc_rt']
  end.
  simpl in H. rewrite <- H. reflexivity.
Qed.

Lemma load_vpc_route_tables_tgw_side (inp : RawInput.t) (d : NetworkData.t) :
  tgw_side (_load_vpc_route_tables inp d) = tgw_side d.
Proof.
  unfold _load_vpc_route_tables.
  apply (fold_left_invariant load_vpc_route_table (fun s => tgw_side s = tgw_side d));
    [|reflexivity].
  intros s x H. rewrite load_vpc_route_table_tgw_side. exact H.
Qed.

Lemma dict_get_view {V B : Type} (pr : V -> B) (d : dict V) (k : string) :
  dict_get (dict_view pr d) k = option_map pr (dict_get d k).
Proof. apply dict_get_map_values. Qed.

Lemma dict_view_update {V B : Type} (pr : V -> B) (d : dict V) (k : string) (f : V -> V) :
  (forall v, pr (f v) = pr v) ->
  dict_view pr (dict_update d k f) = dict_view pr d.
Proof.
  intros Hf. induction d as [|[k' v] r IH]; simpl; [reflexivity|].
  destruct (k' =? k); simpl; [rewrite Hf | rewrite IH]; reflexivity.
Qed.

Lemma dict_view_values {V B : Type} (pr : V -> B) (d : dict V) :
  dict_values (dict_view pr d) = map pr (dict_values d).
Proof.
  unfold dict_values, dict_view. rewrite !map_map. reflexivity.
Qed.

Lemma dict_view_keys {V B : Type} (pr : V -> B) (d : dict V) :
  dict_keys (dict_view pr d) = dict_keys d.
Proof.
  unfold dict_keys, dict_view. rewrite map_map. reflexivity.
Qed.

Section AttachmentProjection.
Context {B : Type} (pr : TGWAttachment.t -> B).

Definition attachment_view (d : NetworkData.t) : dict B :=
  dict_view pr (NetworkData.tgw_attachments d).

Hypothesis pr_associated : forall v a,
  pr (TGWAttachment.set_associated_route_table_id v a) = pr a.
Hypothesis pr_propagating : forall v a,
  pr (TGWAttachment.add_propagating_to v a) = pr a.

Lemma load_association_view (rt_id : string) (d : NetworkData.t) (assoc : RawAssociation.t) :
  attachment_view (load_association rt_id d assoc) = attachment_view d.
Proof.
  unfold load_association.
  destruct (opt_eqb (RawAssociation.State assoc) "associated"); [|reflexivity].
  destruct (RawAssociation.TransitGatewayAttachmentId assoc) as [att_id|]; [|reflexivity].
  destruct (truthy att_id); [|reflexivity].
  unfold attachment_view. simpl. apply dict_view_update. apply pr_associated.
Qed.

Lemma load_propagation_view (rt_id : string) (d : NetworkData.t) (prop : RawAssociation.t) :
  attachment_view (load_propagation rt_id d prop) = attachment_view d.
Proof.
  unfold load_propagation.
  destruct (opt_eqb (RawAssociation.State prop) "enabled"); [|reflexivity].
  destruct (RawAssociation.TransitGatewayAttachmentId prop) as [att_id|]; [|reflexivity].
  destruct (truthy att_id); [|reflexivity].
  unfold attachment_view. simpl. apply dict_view_update. apply pr_propagating.
Qed.

Lemma load_route_file_view (d : NetworkData.t) (f : string * list RawTGWRoute.t) :
  attachment_view (load_route_file d f) = attachment_view d.
Proof.
  unfold load_route_file.
  destruct (dict_mem (NetworkData.tgw_route_tables d) (fst f)); [|reflexivity].
  apply (fold_left_invariant _ (fun s => attachment_view s = attachment_view d));
    [|reflexivity].
  intros s x H. exact H.
Qed.

Lemma load_tgw_route_details_view (inp : RawInput.t) (d : NetworkData.t) :
  attachment_view (_load_tgw_route_details inp d) = attachment_view d.
Proof.
  unfold _load_tgw_route_details.
  apply (fold_left_invariant _ (fun s => attachment_view s = attachment_view d)).
  { intros s x H. rewrite load_route_file_view. exact H. }
  apply (fold_left_invariant _ (fun s => attachment_view s = attachment_view d)).
  { intros s x H. unfold load_propagation_file.
    destruct (dict_mem (NetworkData.tgw_route_tables s) (fst x)); [|exact H].
    apply (fold_left_invariant _ (fun s => attachment_view s = attachment_view d));
      [|exact H].
    intros s' y H'. rewrite load_propagation_view. exact H'. }
  apply (fold_left_invariant _ (fun s => attachment_view s = attachment_view d));
    [|reflexivity].
  intros s x H. unfold load_association_file.
  destruct (dict_mem (NetworkData.tgw_route_tables s) (fst x)); [|exact H].
  apply (fold_left_invariant _ (fun s => attachment_view s = attachment_view d));
    [|exact H].
  intros s' y H'. rewrite load_association_view. exact H'.
Qed.

Hypothesis pr_cidrs : forall v a, pr (TGWAttachment.set_cidrs v a) = pr a.
Hypothesis pr_name : forall v a, pr (TGWAttachment.set_name v a) = pr a.

Lemma correlate_attachments_view (atts : dict TGWAttachment.t) (vpcs : dict VPC.t) :
  dict_view pr (fst (correlate_attachments atts vpcs)) = dict_view pr atts.
Proof.
  revert vpcs. induction atts as [|[k att] rest IH]; intros vpcs; simpl; [reflexivity|].
  destruct (correlate_attachment att vpcs) as [att' vpcs'] eqn:E.
  specialize (IH vpcs').
  destruct (correlate_attachments rest vpcs') as [rest' vpcs''].
  simpl in *. rewrite IH. f_equal. f_equal.
  unfold correlate_attachment in E.
  destruct (AttachmentType.eqb (TGWAttachment.type att) AttachmentType.VPC);
    [|injection E as <- _; reflexivity].
  destruct (dict_get vpcs (TGWAttachment.resource_id att));
    injection E as <- _; [|reflexivity].
  rewrite pr_name, pr_cidrs. reflexivity.
Qed.

Lemma correlate_data_view (d : NetworkData.t) :
  attachment_view (_correlate_data d) = attachment_view d.
Proof.
  unfold _correlate_data, attachment_view.
  pose proof (correlate_attachments_view (NetworkData.tgw_attachments d) (NetworkData.vpcs d)) as H.
  destruct (correlate_attachments (NetworkData.tgw_attachments d) (NetworkData.vpcs d)).
  exact H.
Qed.

Lemma fill_cidrs_pr (att_cidrs : dict (list string)) (a : TGWAttachment.t) :
  pr (fill_cidrs att_cidrs a) = pr a.
Proof.
  assert (H : forall t a, pr (fill_for t att_cidrs a) = pr a).
  { intros t a0. unfold fill_for.
    destruct (AttachmentType.eqb (TGWAttachment.type a0) t
              && negb (nonempty (TGWAttachment.cidrs a0))); [|reflexivity].
    destruct (dict_get att_cidrs (TGWAttachment.id a0)); [apply pr_cidrs | reflexivity]. }
  unfold fill_cidrs. rewrite !H. reflexivity.
Qed.

Lemma extract_cross_account_cidrs_view (d : NetworkData.t) :
  attachment_view (_extract_cross_account_cidrs d) = attachment_view d.
Proof.
  unfold _extract_cross_account_cidrs, attachment_view, dict_view. simpl.
  rewrite map_map. apply map_ext. intros [k a]. simpl.
  rewrite fill_cidrs_pr. reflexivity.
Qed.

(** From [_load_tgw_route_details] on, [load] keeps the projection. *)
Lemma load_view_after_route_tables (inp : RawInput.t) :
  attachment_view (load inp) = attachment_view (after_route_tables inp).
Proof.
  rewrite load_before_classification.
  change (attachment_view (_classify_subnets (before_classification inp)))
    with (attachment_view (before_classification inp)).
  unfold before_classification.
  rewrite extract_cross_account_cidrs_view, correlate_data_view.
  unfold attachment_view.
  match goal with
  | |- context [_load_vpc_route_tables inp ?d] =>
      pose proof (load_vpc_route_tables_tgw_side inp d) as H
  end.
  apply (f_equal (fun x => fst (fst x))) in H. simpl in H. rewrite H.
  change (attachment_view (_load_tgw_route_details inp (after_route_tables inp))
          = attachment_view (after_route_tables inp)).
  apply load_tgw_route_details_view.
Qed.

End AttachmentProjection.

(** ** The cross-account flag *)

Lemma after_attachments_local_account_id (inp : RawInput.t) :
  NetworkData.local_account_id (after_attachments inp)
  = get_default (RawInput.aws_account_id inp) "".
Proof. reflexivity. Qed.

Lemma after_route_tables_side (inp : RawInput.t) :
  NetworkData.tgw_attachments (after_route_tables inp)
    = NetworkData.tgw_attachments (after_attachments inp)
  /\ NetworkData.local_account_id (after_route_tables inp)
    = NetworkData.local_account_id (after_attachments inp).
Proof. split; reflexivity. Qed.

Lemma load_association_local (rt_id : string) (d : NetworkData.t) (assoc : RawAssociation.t) :
  NetworkData.local_account_id (load_association rt_id d assoc)
  = NetworkData.local_account_id d.
Proof.
  unfold load_association.
  destruct (opt_eqb (RawAssociation.State assoc) "associated"); [|reflexivity].
  destruct (RawAssociation.TransitGatewayAttachmentId assoc) as [att_id|]; [|reflexivity].
  destruct (truthy att_id); reflexivity.
Qed.

Lemma load_propagation_local (rt_id : string) (d : NetworkData.t) (prop : RawAssociation.t) :
  NetworkData.local_account_id (load_propagation rt_id d prop)
  = NetworkData.local_account_id d.
Proof.
  unfold load_propagation.
  destruct (opt_eqb (RawAssociation.State prop) "enabled"); [|reflexivity].
  destruct (RawAssociation.TransitGatewayAttachmentId prop) as [att_id|]; [|reflexivity].
  destruct (truthy att_id); reflexivity.
Qed.

Lemma load_tgw_route_details_local (inp : RawInput.t) (d : NetworkData.t) :
  NetworkData.local_account_id (_load_tgw_route_details inp d)
  = NetworkData.local_account_id d.
Proof.
  unfold _load_tgw_route_details.
  set (Q := fun s => NetworkData.local_account_id s = NetworkData.local_account_id d).
  apply (fold_left_invariant _ Q).
  { intros s x H. unfold load_route_file.
    destruct (dict_mem (NetworkData.tgw_route_tables s) (fst x)); [|exact H].
    apply (fold_left_invariant _ Q); [|exact H]. intros s' y H'. exact H'. }
  apply (fold_left_invariant _ Q).
  { intros s x H. unfold load_propagation_file.
    destruct (dict_mem (NetworkData.tgw_route_tables s) (fst x)); [|exact H].
    apply (fold_left_invariant _ Q); [|exact H].
    intros s' y H'. unfold Q. rewrite load_propagation_local. exact H'. }
  apply (fold_left_invariant _ Q); [|reflexivity].
  intros s x H. unfold load_association_file.
  destruct (dict_mem (NetworkData.tgw_route_tables s) (fst x)); [|exact H].
  apply (fold_left_invariant _ Q); [|exact H].
  intros s' y H'. unfold Q. rewrite load_association_local. exact H'.
Qed.

Lemma correlate_data_local (d : NetworkData.t) :
  NetworkData.local_account_id (_correlate_data d) = NetworkData.local_account_id d.
Proof.
  unfold _correlate_data.
  destruct (correlate_attachments (NetworkData.tgw_attachments d) (NetworkData.vpcs d)).
  reflexivity.
Qed.

Lemma load_local_account_id (inp : RawInput.t) :
  NetworkData.local_account_id (load inp) = get_default (RawInput.aws_account_id inp) "".
Proof.
  rewrite load_before_classification.
  change (NetworkData.local_account_id (_classify_subnets (before_classification inp)))
    with (NetworkData.local_account_id (before_classification inp)).
  unfold before_classification.
  change (NetworkData.local_account_id (_extract_cross_account_cidrs ?d))
    with (NetworkData.local_account_id d).
  rewrite correlate_data_local.
  match goal with
  | |- context [_load_vpc_route_tables inp ?d] =>
      pose proof (load_vpc_route_tables_tgw_side inp d) as H
  end.
  apply (f_equal snd) in H. simpl in H. rewrite H.
  apply load_tgw_route_details_local.
Qed.

Lemma make_attachment_flag (l : string) (att : RawAttachment.t) :
  flag_consistent l (make_attachment l att).
Proof. reflexivity. Qed.

Lemma after_attachments_flags (inp : RawInput.t) :
  Forall (flag_consistent (get_default (RawInput.aws_account_id inp) ""))
         (dict_values (NetworkData.tgw_attachments (after_attachments inp))).
Proof.
  unfold after_attachments, _load_tgw_attachments. simpl.
  apply (fold_left_invariant _
           (fun acc => Forall (flag_consistent (get_default (RawInput.aws_account_id inp) ""))
                              (dict_values acc))); [|constructor].
  intros acc att H. apply Forall_dict_set; [apply make_attachment_flag | exact H].
Qed.

Lemma load_flags (inp : RawInput.t) (a : TGWAttachment.t) :
  In a (dict_values (NetworkData.tgw_attachments (load inp))) ->
  flag_consistent (NetworkData.local_account_id (load inp)) a.
Proof.
  intros Ha. rewrite load_local_account_id.
  assert (Hv : In (owner_fields a)
                  (map owner_fields
                       (dict_values (NetworkData.tgw_attachments (after_attachments inp))))).
  { rewrite <- dict_view_values.
    change (dict_view owner_fields (NetworkData.tgw_attachments (after_attachments inp)))
      with (attachment_view owner_fields (after_route_tables inp)).
    rewrite <- load_view_after_route_tables by reflexivity.
    unfold attachment_view. rewrite dict_view_values. apply in_map. exact Ha. }
  apply in_map_iff in Hv. destruct Hv as [a0 [E H0]].
  pose proof (after_attachments_flags inp) as F.
  rewrite Forall_forall in F. specialize (F a0 H0).
  unfold flag_consistent in *. unfold owner_fields in E.
  injection E as E1 E2 E3. rewrite <- E1, <- E2, <- E3. exact F.
Qed.

Lemma cross_account_flag_true_iff (l tgw_owner resource_owner : string) :
  cross_account_flag l tgw_owner resource_owner = true <->
  resource_owner <> ""
  /\ (if truthy tgw_owner then tgw_owner else l) <> ""
  /\ resource_owner <> (if truthy tgw_owner then tgw_owner else l).
Proof.
  unfold cross_account_flag.
  destruct (truthy tgw_owner) eqn:T; destruct (truthy resource_owner) eqn:R; simpl.
  - apply truthy_true_iff in T, R. rewrite negb_true_iff, String.eqb_neq. tauto.
  - apply truthy_false_iff in R. rewrite andb_false_r. split; [discriminate|].
    intros [H _]. contradiction.
  - apply truthy_true_iff in R. rewrite andb_true_r.
    destruct (truthy l) eqn:L.
    + apply truthy_true_iff in L. rewrite negb_true_iff, String.eqb_neq. tauto.
    + apply truthy_false_iff in L. split; [discriminate|]. intros [_ [H _]]. contradiction.
  - apply truthy_false_iff in R. rewrite andb_false_r. split; [discriminate|].
    intros [H _]. contradiction.
Qed.

(** C5, as stated, fails.  The example export has no [metadata.json].
    [tgw-attach-1] has no resource owner and gateway owner [111122223333]:
    its resource-owner id (empty) differs from the effective owner, yet it
    is not flagged.  [tgw-attach-2] has resource owner [444455556666] and
    no gateway owner, so the effective owner is the (empty) local account
    id: the two differ, yet it is not flagged. *)
Lemma cross_account_unset_when_an_owner_is_missing :
  map (fun a => (TGWAttachment.id a, TGWAttachment.resource_owner_id a,
                 effective_owner (load owner_export) a,
                 TGWAttachment.is_cross_account a))
      (dict_values (NetworkData.tgw_attachments (load owner_export)))
  = [("tgw-attach-1", "", "111122223333", false);
     ("tgw-attach-2", "444455556666", "", false)]
  /\ "" <> "111122223333" /\ "444455556666" <> "".
Proof.
  repeat split; try reflexivity; discriminate.
Qed.

(** C5 (amended): for every attachment of the loaded catalog,
    [cross_account] is true if and only if its resource-owner id and the
    effective owner id (the gateway owner when known, else the local
    account) are both non-empty and differ.  When the resource-owner id is
    empty, or neither the gateway owner nor the local account is known,
    the flag is false. *)
Theorem cross_account_iff_known_owners_differ
  (inp : RawInput.t) (a : TGWAttachment.t)
  (Ha : In a (dict_values (NetworkData.tgw_attachments (load inp)))) :
  (TGWAttachment.is_cross_account a = true <->
   TGWAttachment.resource_owner_id a <> ""
   /\ effective_owner (load inp) a <> ""
   /\ TGWAttachment.resource_owner_id a <> effective_owner (load inp) a)
  /\ (TGWAttachment.resource_owner_id a = "" ->
      TGWAttachment.is_cross_account a = false)
  /\ (effective_owner (load inp) a = "" ->
      TGWAttachment.is_cross_account a = false).
Proof.
  pose proof (load_flags inp a Ha) as F. unfold flag_consistent in F.
  assert (H : TGWAttachment.is_cross_account a = true <->
              TGWAttachment.resource_owner_id a <> ""
              /\ effective_owner (load inp) a <> ""
              /\ TGWAttachment.resource_owner_id a <> effective_owner (load inp) a).
  { rewrite F. apply cross_account_flag_true_iff. }
  split; [exact H|]. split.
  - intros E. destruct (TGWAttachment.is_cross_account a); [|reflexivity].
    exfalso. apply (proj1 (proj1 H eq_refl)). exact E.
  - intros E. destruct (TGWAttachment.is_cross_account a); [|reflexivity].
    exfalso. apply (proj1 (proj2 (proj1 H eq_refl))). exact E.
Qed.

(** C5 (amended) on the attachment of the spoke export, whose resource
    owner [444455556666] differs from the local account [111122223333],
    the effective owner since the gateway owner is unknown. *)
Lemma cross_account_iff_known_owners_differ_witness :
  exists a,
    dict_get (NetworkData.tgw_attachments (load spoke_export)) "tgw-attach-s" = Some a
    /\ TGWAttachment.is_cross_account a = true
    /\ TGWAttachment.resource_owner_id a = "444455556666"
    /\ effective_owner (load spoke_export) a = "111122223333".
Proof.
  pose (a := TGWAttachment.mk "tgw-attach-s" "tgw-1" AttachmentType.VPN "vpn-3"
               "444455556666" "vpn-3" "available" [] None [] true "").
  exists a. split; [reflexivity|]. split; [|split; reflexivity].
  apply (proj1 (cross_account_iff_known_owners_differ spoke_export a
                  (or_introl eq_refl))).
  repeat split; discriminate.
Defined.

(** ** Associations *)

Section TableProjection.
Context {B : Type} (pr : TGWRouteTable.t -> B).

Definition table_view (d : NetworkData.t) : dict B :=
  dict_view pr (NetworkData.tgw_route_tables d).

Hypothesis pr_propagation : forall v rt, pr (TGWRouteTable.add_propagation v rt) = pr rt.
Hypothesis pr_route : forall v rt, pr (TGWRouteTable.add_route v rt) = pr rt.

Lemma load_propagation_table_view (rt_id : string) (d : NetworkData.t)
  (prop : RawAssociation.t) :
  table_view (load_propagation rt_id d prop) = table_view d.
Proof.
  unfold load_propagation.
  destruct (opt_eqb (RawAssociation.State prop) "enabled"); [|reflexivity].
  destruct (RawAssociation.TransitGatewayAttachmentId prop) as [att_id|]; [|reflexivity].
  destruct (truthy att_id); [|reflexivity].
  unfold table_view. simpl. apply dict_view_update. apply pr_propagation.
Qed.

Lemma load_propagation_file_table_view (d : NetworkData.t)
  (f : string * list RawAssociation.t) :
  table_view (load_propagation_file d f) = table_view d.
Proof.
  unfold load_propagation_file.
  destruct (dict_mem (NetworkData.tgw_route_tables d) (fst f)); [|reflexivity].
  apply (fold_left_invariant _ (fun s => table_view s = table_view d)); [|reflexivity].
  intros s x H. rewrite load_propagation_table_view. exact H.
Qed.

Lemma load_route_file_table_view (d : NetworkData.t) (f : string * list RawTGWRoute.t) :
  table_view (load_route_file d f) = table_view d.
Proof.
  unfold load_route_file.
  destruct (dict_mem (NetworkData.tgw_route_tables d) (fst f)); [|reflexivity].
  apply (fold_left_invariant _ (fun s => table_view s = table_view d)); [|reflexivity].
  intros s x H. rewrite <- H. unfold table_view. simpl.
  apply dict_view_update. apply pr_route.
Qed.

(** From the propagation files on, [load] keeps the projection. *)
Lemma load_table_view_after_association_files (inp : RawInput.t) :
  table_view (load inp) = table_view (after_association_files inp).
Proof.
  rewrite load_before_classification.
  change (table_view (_classify_subnets (before_classification inp)))
    with (table_view (before_classification inp)).
  unfold before_classification.
  change (table_view (_extract_cross_account_cidrs ?d)) with (table_view d).
  match goal with
  | |- table_view (_correlate_data ?d) = _ =>
      assert (E : table_view (_correlate_data d) = table_view d)
  end.
  { unfold _correlate_data.
    match goal with
    | |- context [correlate_attachments ?a ?v] => destruct (correlate_attachments a v)
    end.
    reflexivity. }
  rewrite E. clear E. unfold table_view.
  match goal with
  | |- context [_load_vpc_route_tables inp ?d] =>
      pose proof (load_vpc_route_tables_tgw_side inp d) as H
  end.
  apply (f_equal (fun x => snd (fst x))) in H. simpl in H. rewrite H.
  change (table_view (_load_tgw_route_details inp (after_route_tables inp))
          = table_view (after_association_files inp)).
  unfold _load_tgw_route_details.
  apply (fold_left_invariant _ (fun s => table_view s = table_view (after_association_files inp))).
  { intros s x H'. rewrite load_route_file_table_view. exact H'. }
  apply (fold_left_invariant _ (fun s => table_view s = table_view (after_association_files inp))).
  { intros s x H'. rewrite load_propagation_file_table_view. exact H'. }
  reflexivity.
Qed.

End TableProjection.

Section AttachmentProjectionLate.
Context {B : Type} (pr : TGWAttachment.t -> B).
Hypothesis pr_propagating : forall v a,
  pr (TGWAttachment.add_propagating_to v a) = pr a.
Hypothesis pr_cidrs : forall v a, pr (TGWAttachment.set_cidrs v a) = pr a.
Hypothesis pr_name : forall v a, pr (TGWAttachment.set_name v a) = pr a.

(** From the propagation files on, [load] keeps the projection. *)
Lemma load_view_after_association_files (inp : RawInput.t) :
  attachment_view pr (load inp) = attachment_view pr (after_association_files inp).
Proof.
  rewrite load_before_classification.
  change (attachment_view pr (_classify_subnets (before_classification inp)))
    with (attachment_view pr (before_classification inp)).
  unfold before_classification.
  rewrite extract_cross_account_cidrs_view by exact pr_cidrs.
  rewrite correlate_data_view by assumption.
  unfold attachment_view.
  match goal with
  | |- context [_load_vpc_route_tables inp ?d] =>
      pose proof (load_vpc_route_tables_tgw_side inp d) as H
  end.
  apply (f_equal (fun x => fst (fst x))) in H. simpl in H. rewrite H.
  change (attachment_view pr (_load_tgw_route_details inp (after_route_tables inp))
          = attachment_view pr (after_association_files inp)).
  unfold _load_tgw_route_details.
  set (Q := fun s => attachment_view pr s = attachment_view pr (after_association_files inp)).
  apply (fold_left_invariant _ Q).
  { intros s x H'. unfold Q. rewrite load_route_file_view. exact H'. }
  apply (fold_left_invariant _ Q); [|reflexivity].
  intros s x H'. unfold load_propagation_file.
  destruct (dict_mem (NetworkData.tgw_route_tables s) (fst x)); [|exact H'].
  apply (fold_left_invariant _ Q); [|exact H'].
  intros s' y H''. unfold Q. rewrite load_propagation_view by exact pr_propagating.
  exact H''.
Qed.

End AttachmentProjectionLate.

Lemma Forall_entries_dict_set {V : Type} (P : string * V -> Prop)
  (d : dict V) (k : string) (v : V) :
  P (k, v) -> Forall P d -> Forall P (dict_set d k v).
Proof.
  intros Hv. induction d as [|[k' v'] r IH]; simpl; intros H.
  - constructor; [exact Hv | constructor].
  - inversion H as [|? ? Hv' Hr]; subst.
    destruct (String.eqb_spec k' k) as [->|N]; constructor; auto.
Qed.

Lemma after_attachments_fresh (inp : RawInput.t) :
  Forall (fun kv => TGWAttachment.id (snd kv) = fst kv
                    /\ TGWAttachment.associated_route_table_id (snd kv) = None)
         (NetworkData.tgw_attachments (after_attachments inp)).
Proof.
  unfold after_attachments, _load_tgw_attachments. simpl.
  apply (fold_left_invariant _
           (Forall (fun kv => TGWAttachment.id (snd kv) = fst kv
                              /\ TGWAttachment.associated_route_table_id (snd kv) = None)));
    [|constructor].
  intros acc att H. apply Forall_entries_dict_set; [| exact H].
  split; reflexivity.
Qed.

Lemma after_route_tables_fresh (inp : RawInput.t) :
  Forall (fun kv => TGWRouteTable.id (snd kv) = fst kv
                    /\ TGWRouteTable.associations (snd kv) = [])
         (NetworkData.tgw_route_tables (after_route_tables inp)).
Proof.
  unfold after_route_tables, _load_tgw_route_tables. simpl.
  apply (fold_left_invariant _
           (Forall (fun kv => TGWRouteTable.id (snd kv) = fst kv
                              /\ TGWRouteTable.associations (snd kv) = [])));
    [|constructor].
  intros acc rt H. apply Forall_entries_dict_set; [| exact H].
  split; reflexivity.
Qed.

Lemma associations_agree_initial (inp : RawInput.t) :
  let v := association_views (after_route_tables inp) in
  associations_agree (fst v) (snd v).
Proof.
  unfold association_views. cbn [fst snd]. split.
  - intros x t H. rewrite dict_get_view in H.
    destruct (dict_get (NetworkData.tgw_attachments (after_route_tables inp)) x)
      as [a|] eqn:E; [|discriminate].
    apply dict_get_In in E.
    pose proof (after_attachments_fresh inp) as F. rewrite Forall_forall in F.
    specialize (F _ E). simpl in F, H. destruct F as [_ F]. congruence.
  - intros x o k l _ H Hin. rewrite dict_get_view in H.
    destruct (dict_get (NetworkData.tgw_route_tables (after_route_tables inp)) k)
      as [rt|] eqn:E; [|discriminate].
    apply dict_get_In in E.
    pose proof (after_route_tables_fresh inp) as F. rewrite Forall_forall in F.
    specialize (F _ E). simpl in F, H. destruct F as [_ F].
    injection H as <-. rewrite F in Hin. destruct Hin.
Qed.

Lemma associations_agree_step (va va' : dict (option string)) (vt vt' : dict (list string))
  (att_id rt_id : string) :
  (forall x, dict_get va' x =
             if att_id =? x then option_map (fun _ => Some rt_id) (dict_get va x)
             else dict_get va x) ->
  (forall k, dict_get vt' k =
             if rt_id =? k then option_map (fun l => (l ++ [att_id])%list) (dict_get vt k)
             else dict_get vt k) ->
  (exists l, dict_get vt rt_id = Some l) ->
  associations_agree va vt -> associations_agree va' vt'.
Proof.
  intros Ha Ht [l0 Hl0] [I1 I2]. split.
  - intros x t H. rewrite Ha in H.
    destruct (String.eqb_spec att_id x) as [->|N].
    + destruct (dict_get va x) as [o|]; [|discriminate]. simpl in H.
      injection H as <-. exists (l0 ++ [x])%list. split.
      * rewrite Ht, String.eqb_refl, Hl0. reflexivity.
      * apply in_or_app. right. left. reflexivity.
    + destruct (I1 x t H) as [l [Hl Hin]].
      rewrite Ht. destruct (rt_id =? t).
      * rewrite Hl. simpl. eexists. split; [reflexivity|].
        apply in_or_app. left. exact Hin.
      * exists l. split; assumption.
  - intros x o k l H Hk Hin. rewrite Ha in H.
    destruct (String.eqb_spec att_id x) as [->|N].
    + destruct (dict_get va x); [|discriminate]. simpl in H.
      injection H as <-. discriminate.
    + rewrite Ht in Hk. destruct (rt_id =? k).
      * destruct (dict_get vt k) as [l'|] eqn:E; [|discriminate]. simpl in Hk.
        injection Hk as <-. apply in_app_or in Hin. destruct Hin as [Hin|[Hin|[]]].
        -- exact (I2 x o k l' H E Hin).
        -- contradiction.
      * exact (I2 x o k l H Hk Hin).
Qed.

Lemma load_association_agree (rt_id : string) (d : NetworkData.t) (assoc : RawAssociation.t) :
  dict_mem (NetworkData.tgw_route_tables d) rt_id = true ->
  associations_agree (fst (association_views d)) (snd (association_views d)) ->
  dict_mem (NetworkData.tgw_route_tables (load_association rt_id d assoc)) rt_id = true
  /\ associations_agree (fst (association_views (load_association rt_id d assoc)))
                        (snd (association_views (load_association rt_id d assoc))).
Proof.
  intros M A. unfold load_association.
  destruct (opt_eqb (RawAssociation.State assoc) "associated"); [|split; assumption].
  destruct (RawAssociation.TransitGatewayAttachmentId assoc) as [att_id|];
    [|split; assumption].
  destruct (truthy att_id); [|split; assumption].
  simpl. split; [rewrite dict_mem_update; exact M|].
  apply (associations_agree_step _ _ _ _ att_id rt_id) with (4 := A).
  - intros x. simpl. rewrite !dict_get_view, dict_get_update.
    destruct (att_id =? x); [|reflexivity].
    destruct (dict_get (NetworkData.tgw_attachments d) x); reflexivity.
  - intros k. simpl. rewrite !dict_get_view, dict_get_update.
    destruct (rt_id =? k); [|reflexivity].
    destruct (dict_get (NetworkData.tgw_route_tables d) k); reflexivity.
  - simpl. rewrite dict_get_view. apply dict_mem_true_iff in M.
    destruct M as [rt ->]. eexists. reflexivity.
Qed.

Lemma after_association_files_agree (inp : RawInput.t) :
  associations_agree (fst (association_views (after_association_files inp)))
                     (snd (association_views (after_association_files inp))).
Proof.
  unfold after_association_files.
  apply (fold_left_invariant _
           (fun s => associations_agree (fst (association_views s))
                                        (snd (association_views s))));
    [|apply associations_agree_initial].
  intros s f H. unfold load_association_file.
  destruct (dict_mem (NetworkData.tgw_route_tables s) (fst f)) eqn:M; [|exact H].
  apply (fold_left_invariant _
           (fun s' => dict_mem (NetworkData.tgw_route_tables s') (fst f) = true
                      /\ associations_agree (fst (association_views s'))
                                            (snd (association_views s'))));
    [|split; assumption].
  intros s' x [M' H']. apply load_association_agree; assumption.
Qed.

Lemma load_association_views (inp : RawInput.t) :
  association_views (load inp) = association_views (after_association_files inp).
Proof.
  unfold association_views. f_equal.
  - apply (load_view_after_association_files TGWAttachment.associated_route_table_id);
      reflexivity.
  - apply (load_table_view_after_association_files TGWRouteTable.associations);
      reflexivity.
Qed.

Lemma load_associations_agree (inp : RawInput.t) :
  associations_agree (fst (association_views (load inp)))
                     (snd (association_views (load inp))).
Proof.
  rewrite load_association_views. apply after_association_files_agree.
Qed.

Lemma load_attachment_key (inp : RawInput.t) (x : string) (a : TGWAttachment.t) :
  dict_get (NetworkData.tgw_attachments (load inp)) x = Some a ->
  TGWAttachment.id a = x.
Proof.
  intros H.
  assert (E : dict_get (attachment_view TGWAttachment.id (load inp)) x
              = Some (TGWAttachment.id a)).
  { unfold attachment_view. rewrite dict_get_view, H. reflexivity. }
  rewrite load_view_after_route_tables in E by reflexivity.
  unfold attachment_view in E. rewrite dict_get_view in E.
  change (NetworkData.tgw_attachments (after_route_tables inp))
    with (NetworkData.tgw_attachments (after_attachments inp)) in E.
  destruct (dict_get (NetworkData.tgw_attachments (after_attachments inp)) x)
    as [a0|] eqn:E0; [|discriminate].
  simpl in E. injection E as <-.
  apply dict_get_In in E0.
  pose proof (after_attachments_fresh inp) as F. rewrite Forall_forall in F.
  exact (proj1 (F _ E0)).
Qed.

Lemma load_association_table_ids (rt_id : string) (d : NetworkData.t)
  (assoc : RawAssociation.t) :
  table_view TGWRouteTable.id (load_association rt_id d assoc)
  = table_view TGWRouteTable.id d.
Proof.
  unfold load_association.
  destruct (opt_eqb (RawAssociation.State assoc) "associated"); [|reflexivity].
  destruct (RawAssociation.TransitGatewayAttachmentId assoc) as [att_id|]; [|reflexivity].
  destruct (truthy att_id); [|reflexivity].
  unfold table_view. simpl. apply dict_view_update. reflexivity.
Qed.

Lemma load_table_key (inp : RawInput.t) (k : string) (rt : TGWRouteTable.t) :
  dict_get (NetworkData.tgw_route_tables (load inp)) k = Some rt ->
  TGWRouteTable.id rt = k.
Proof.
  intros H.
  assert (E : dict_get (table_view TGWRouteTable.id (load inp)) k
              = Some (TGWRouteTable.id rt)).
  { unfold table_view. rewrite dict_get_view, H. reflexivity. }
  rewrite load_table_view_after_association_files in E by reflexivity.
  assert (V : table_view TGWRouteTable.id (after_association_files inp)
              = table_view TGWRouteTable.id (after_route_tables inp)).
  { unfold after_association_files.
    apply (fold_left_invariant _
             (fun s => table_view TGWRouteTable.id s
                       = table_view TGWRouteTable.id (after_route_tables inp)));
      [|reflexivity].
    intros s f Hs. unfold load_association_file.
    destruct (dict_mem (NetworkData.tgw_route_tables s) (fst f)); [|exact Hs].
    apply (fold_left_invariant _
             (fun s => table_view TGWRouteTable.id s
                       = table_view TGWRouteTable.id (after_route_tables inp)));
      [|exact Hs].
    intros s' y Hs'. rewrite load_association_table_ids. exact Hs'. }
  rewrite V in E. unfold table_view in E. rewrite dict_get_view in E.
  destruct (dict_get (NetworkData.tgw_route_tables (after_route_tables inp)) k)
    as [rt0|] eqn:E0; [|discriminate].
  simpl in E. injection E as <-.
  apply dict_get_In in E0.
  pose proof (after_route_tables_fresh inp) as F. rewrite Forall_forall in F.
  exact (proj1 (F _ E0)).
Qed.

(** C6, as stated, fails.  In the example export the association files
    name [tgw-attach-1] under [tgw-rtb-1] and under [tgw-rtb-2], and name
    [tgw-attach-0], which is no attachment of the catalog, under
    [tgw-rtb-1].  After the load [tgw-attach-1] is in the associations of
    both tables while its [associated_route_table_id] is [tgw-rtb-2], and
    [tgw-attach-0] is in the associations of [tgw-rtb-1] with no attachment
    to agree with. *)
Lemma associations_disagree_on_two_tables :
  map (fun rt => (TGWRouteTable.id rt, TGWRouteTable.associations rt))
      (dict_values (NetworkData.tgw_route_tables (load two_table_export)))
  = [("tgw-rtb-1", ["tgw-attach-1"; "tgw-attach-0"]); ("tgw-rtb-2", ["tgw-attach-1"])]
  /\ map (fun a => (TGWAttachment.id a, TGWAttachment.associated_route_table_id a))
         (dict_values (NetworkData.tgw_attachments (load two_table_export)))
     = [("tgw-attach-1", Some "tgw-rtb-2")]
  /\ Some "tgw-rtb-2" <> Some "tgw-rtb-1"
  /\ dict_get (NetworkData.tgw_attachments (load two_table_export)) "tgw-attach-0" = None.
Proof.
  repeat split; try reflexivity. discriminate.
Qed.

(** C6 (amended): after the load, the keys of the two collections are the
    ids of their entries, and for every attachment [a] of the catalog: if
    [a.associated_route_table_id] is [t] then [t] is a table of the catalog
    and [a.id] is in its associations; conversely, if [a.id] is in the
    associations of a table [k] and of no other table of the catalog, then
    [a.associated_route_table_id] is [k].  An id in the associations that
    names no attachment of the catalog has nothing to agree with, and an
    attachment that the input associates to several tables is listed by
    each of them and names one of them. *)
Theorem associations_round_trip (inp : RawInput.t) :
  let atts := NetworkData.tgw_attachments (load inp) in
  let tables := NetworkData.tgw_route_tables (load inp) in
  (forall x a, dict_get atts x = Some a -> TGWAttachment.id a = x)
  /\ (forall k rt, dict_get tables k = Some rt -> TGWRouteTable.id rt = k)
  /\ (forall x a t,
        dict_get atts x = Some a ->
        TGWAttachment.associated_route_table_id a = Some t ->
        exists rt, dict_get tables t = Some rt
                   /\ In (TGWAttachment.id a) (TGWRouteTable.associations rt))
  /\ (forall x a k rt,
        dict_get atts x = Some a ->
        dict_get tables k = Some rt ->
        In (TGWAttachment.id a) (TGWRouteTable.associations rt) ->
        (exists t, TGWAttachment.associated_route_table_id a = Some t
                   /\ exists rt', dict_get tables t = Some rt'
                        /\ In (TGWAttachment.id a) (TGWRouteTable.associations rt'))
        /\ ((forall k' rt', dict_get tables k' = Some rt' ->
               In (TGWAttachment.id a) (TGWRouteTable.associations rt') -> k' = k) ->
            TGWAttachment.associated_route_table_id a = Some (TGWRouteTable.id rt))).
Proof.
  cbv zeta.
  pose proof (load_associations_agree inp) as [I1 I2].
  unfold association_views in I1, I2. cbn [fst snd] in I1, I2.
  assert (J1 : forall x a t,
             dict_get (NetworkData.tgw_attachments (load inp)) x = Some a ->
             TGWAttachment.associated_route_table_id a = Some t ->
             exists rt, dict_get (NetworkData.tgw_route_tables (load inp)) t = Some rt
                        /\ In (TGWAttachment.id a) (TGWRouteTable.associations rt)).
  { intros x a t Ha Et.
    destruct (I1 x t) as [l [Hl Hin]].
    { rewrite dict_get_view, Ha. cbn [option_map]. rewrite Et. reflexivity. }
    rewrite dict_get_view in Hl.
    destruct (dict_get (NetworkData.tgw_route_tables (load inp)) t) as [rt|];
      [|discriminate].
    cbn [option_map] in Hl. injection Hl as <-. exists rt. split; [reflexivity|].
    rewrite (load_attachment_key inp x a Ha). exact Hin. }
  split; [apply load_attachment_key|].
  split; [apply load_table_key|].
  split; [exact J1|].
  intros x a k rt Ha Hk Hin.
  assert (N : TGWAttachment.associated_route_table_id a <> None).
  { apply (I2 x _ k (TGWRouteTable.associations rt)).
    - rewrite dict_get_view, Ha. reflexivity.
    - rewrite dict_get_view, Hk. reflexivity.
    - rewrite <- (load_attachment_key inp x a Ha). exact Hin. }
  destruct (TGWAttachment.associated_route_table_id a) as [t|] eqn:Et;
    [|contradiction].
  destruct (J1 x a t Ha Et) as [rt' [Hrt' Hin']].
  split.
  - exists t. split; [reflexivity|]. exists rt'. split; assumption.
  - intros U. rewrite (load_table_key inp k rt Hk).
    f_equal. exact (U t rt' Hrt' Hin').
Qed.

(** ** Cross-account CIDR recovery *)

Lemma insert_sorted_In (x y : string) (l : list string) :
  In y (insert_sorted x l) <-> y = x \/ In y l.
Proof.
  induction l as [|z r IH]; simpl.
  - split; [intros [H|[]]; left; auto | intros [H|[]]; left; auto].
  - destruct (String.leb x z); simpl.
    + split; [intros [H|H]; [left; auto | right; exact H]
             | intros [H|H]; [left; auto | right; exact H]].
    + rewrite IH. tauto.
Qed.

Lemma sorted_In (y : string) (l : list string) : In y (sorted l) <-> In y l.
Proof.
  induction l as [|x r IH]; simpl; [tauto|].
  rewrite insert_sorted_In, IH. split; intros [H|H]; auto.
Qed.

Lemma insert_sorted_NoDup (x : string) (l : list string) :
  ~ In x l -> NoDup l -> NoDup (insert_sorted x l).
Proof.
  induction l as [|z r IH]; simpl; intros Hx ND.
  - constructor; [intros [] | constructor].
  - destruct (String.leb x z).
    + constructor; [exact Hx | exact ND].
    + inversion ND as [|? ? Hz ND']; subst. constructor.
      * rewrite insert_sorted_In. intros [E|H]; [|contradiction].
        apply Hx. left. exact E.
      * apply IH; [|exact ND']. intros H. apply Hx. right. exact H.
Qed.

Lemma sorted_NoDup (l : list string) : NoDup l -> NoDup (sorted l).
Proof.
  induction l as [|x r IH]; simpl; intros ND; [constructor|].
  inversion ND as [|? ? Hx ND']; subst.
  apply insert_sorted_NoDup; [rewrite sorted_In; exact Hx | apply IH; exact ND'].
Qed.

Lemma insert_sorted_Sorted (x : string) (l : list string) :
  Sorted str_le l -> Sorted str_le (insert_sorted x l).
Proof.
  induction l as [|z r IH]; simpl; intros S.
  - constructor; constructor.
  - destruct (String.leb x z) eqn:L.
    + constructor; [exact S | constructor; exact L].
    + inversion S as [|? ? S' H]; subst. constructor; [apply IH; exact S'|].
      assert (Lz : str_le z x).
      { destruct (String.leb_total x z) as [T|T]; [congruence | exact T]. }
      destruct r as [|w r']; simpl.
      * constructor. exact Lz.
      * destruct (String.leb x w); constructor; [exact Lz|].
        inversion H; subst. assumption.
Qed.

Lemma sorted_Sorted (l : list string) : Sorted str_le (sorted l).
Proof.
  induction l as [|x r IH]; simpl; [constructor|].
  apply insert_sorted_Sorted. exact IH.
Qed.

Lemma set_add_In (c y : string) (s : list string) :
  In y (set_add c s) <-> In y s \/ y = c.
Proof.
  unfold set_add. destruct (str_in c s) eqn:E.
  - apply str_in_true_iff in E. split; [auto | intros [H| ->]; assumption].
  - rewrite in_app_iff. simpl. intuition.
Qed.

Lemma set_add_NoDup (c : string) (s : list string) : NoDup s -> NoDup (set_add c s).
Proof.
  unfold set_add. intros ND. destruct (str_in c s) eqn:E; [exact ND|].
  apply str_in_false_iff in E. clear -ND E.
  induction s as [|z r IH]; simpl.
  - constructor; [intros [] | constructor].
  - inversion ND as [|? ? Hz ND']; subst. constructor.
    + rewrite in_app_iff. simpl. intros [H|[H|[]]]; [contradiction|].
      apply E. left. auto.
    + apply IH; [exact ND'|]. intros H. apply E. right. exact H.
Qed.

Lemma set_add_nonempty (c : string) (s : list string) : set_add c s <> [].
Proof.
  intros E. assert (H : In c (set_add c s)) by (apply set_add_In; right; reflexivity).
  rewrite E in H. destruct H.
Qed.

Lemma dict_get_defaultdict_add (acc : dict (list string)) (a c k : string) :
  dict_get (defaultdict_add acc a c) k =
  if a =? k then
    Some (set_add c (match dict_get acc a with Some s => s | None => [] end))
  else dict_get acc k.
Proof.
  unfold defaultdict_add. destruct (dict_get acc a) as [s|]; apply dict_get_set.
Qed.

Lemma candidate_in_snoc (done : list TGWRoute.t) (r : TGWRoute.t) (k c : string) :
  candidate_in (done ++ [r]) k c <-> candidate_in done k c \/ contributes k c r.
Proof.
  unfold candidate_in. split.
  - intros [route [Hin Hc]]. apply in_app_or in Hin. destruct Hin as [Hin|[<-|[]]].
    + left. exists route. split; assumption.
    + right. exact Hc.
  - intros [[route [Hin Hc]]|Hc].
    + exists route. split; [apply in_or_app; left; exact Hin | exact Hc].
    + exists r. split; [apply in_or_app; right; left; reflexivity | exact Hc].
Qed.

Lemma collected_skip (acc : dict (list string)) (done : list TGWRoute.t)
  (r : TGWRoute.t) (k : string) :
  (forall c, ~ contributes k c r) ->
  match dict_get acc k with
  | Some s => s <> [] /\ NoDup s /\ forall c, In c s <-> candidate_in done k c
  | None => forall c, ~ candidate_in done k c
  end ->
  match dict_get acc k with
  | Some s => s <> [] /\ NoDup s /\ forall c, In c s <-> candidate_in (done ++ [r]) k c
  | None => forall c, ~ candidate_in (done ++ [r]) k c
  end.
Proof.
  intros Hn H. destruct (dict_get acc k) as [s|].
  - destruct H as [NE [ND Hin]]. split; [exact NE|]. split; [exact ND|].
    intros c. rewrite candidate_in_snoc, Hin. split; [auto|].
    intros [Hc|Hc]; [exact Hc | destruct (Hn c Hc)].
  - intros c Hc. apply candidate_in_snoc in Hc.
    destruct Hc as [Hc|Hc]; [exact (H c Hc) | exact (Hn c Hc)].
Qed.

Lemma collect_route_collected (acc : dict (list string)) (done : list TGWRoute.t)
  (r : TGWRoute.t) :
  collected acc done -> collected (collect_route acc r) (done ++ [r]).
Proof.
  intros H. unfold collect_route.
  destruct (RouteType.eqb (TGWRoute.route_type r) RouteType.PROPAGATED
            && opt_truthy (TGWRoute.attachment_id r)) eqn:G.
  - apply andb_true_iff in G. destruct G as [Gt Ga].
    apply opt_truthy_true_iff in Ga. destruct Ga as [a [Ea Na]].
    assert (Et : TGWRoute.route_type r = RouteType.PROPAGATED)
      by (destruct (TGWRoute.route_type r); [discriminate | reflexivity]).
    destruct (truthy (TGWRoute.destination_cidr r)) eqn:Gd.
    + apply truthy_true_iff in Gd. rewrite Ea.
      intros k. rewrite dict_get_defaultdict_add.
      destruct (String.eqb_spec a k) as [<-|N].
      * specialize (H a).
        assert (Hs : NoDup (match dict_get acc a with Some s => s | None => [] end)
                     /\ forall c, In c (match dict_get acc a with Some s => s | None => [] end)
                                  <-> candidate_in done a c).
        { destruct (dict_get acc a) as [s|]; [exact (proj2 H)|].
          split; [constructor|]. intros c. split; [intros [] | intros Hc; exact (H c Hc)]. }
        destruct Hs as [ND Hin]. split; [apply set_add_nonempty|].
        split; [apply set_add_NoDup; exact ND|].
        intros c. rewrite set_add_In, candidate_in_snoc, Hin.
        unfold contributes. rewrite Ea. split.
        -- intros [Hc| ->]; [left; exact Hc | right; repeat split; auto].
        -- intros [Hc|[_ [_ [_ [<- _]]]]]; [left; exact Hc | right; reflexivity].
      * apply collected_skip; [|exact (H k)].
        intros c [_ [E _]]. rewrite Ea in E. injection E as E. contradiction.
    + apply truthy_false_iff in Gd. intros k. apply collected_skip; [|exact (H k)].
      intros c [_ [_ [_ [E Nc]]]]. congruence.
  - intros k. apply collected_skip; [|exact (H k)].
    intros c [Et [Ea [Na _]]]. rewrite Et, Ea in G. simpl in G.
    apply truthy_true_iff in Na. congruence.
Qed.

Lemma fold_collect_route_collected (routes done : list TGWRoute.t)
  (acc : dict (list string)) :
  collected acc done ->
  collected (fold_left collect_route routes acc) (done ++ routes).
Proof.
  revert done acc. induction routes as [|r rest IH]; intros done acc H; simpl.
  - rewrite app_nil_r. exact H.
  - replace (done ++ r :: rest)%list with ((done ++ [r]) ++ rest)%list
      by (rewrite <- app_assoc; reflexivity).
    apply IH. apply collect_route_collected. exact H.
Qed.

Lemma fold_left_flat_map {S X Y : Type} (f : S -> Y -> S) (g : X -> list Y)
  (l : list X) (s : S) :
  fold_left (fun acc x => fold_left f (g x) acc) l s = fold_left f (flat_map g l) s.
Proof.
  revert s. induction l as [|x r IH]; intros s; simpl; [reflexivity|].
  rewrite fold_left_app. apply IH.
Qed.

Lemma candidate_all_routes (d : NetworkData.t) (k c : string) :
  candidate_in (all_tgw_routes d) k c <-> candidate d k c.
Proof.
  unfold candidate_in, candidate, all_tgw_routes. split.
  - intros [route [Hin Hc]]. apply in_flat_map in Hin. destruct Hin as [rt [Hrt Hr]].
    exists rt, route. auto.
  - intros [rt [route [Hrt [Hr Hc]]]]. exists route. split; [|exact Hc].
    apply in_flat_map. exists rt. auto.
Qed.

Lemma collect_att_cidrs_collected (d : NetworkData.t) :
  collected (collect_att_cidrs (NetworkData.tgw_route_tables d)) (all_tgw_routes d).
Proof.
  unfold collect_att_cidrs. rewrite fold_left_flat_map.
  apply (fold_collect_route_collected (all_tgw_routes d) [] []).
  intros k. simpl. intros c [route [[] _]].
Qed.

Lemma set_cidrs_same (a : TGWAttachment.t) :
  TGWAttachment.set_cidrs (TGWAttachment.cidrs a) a = a.
Proof. destruct a. reflexivity. Qed.

Lemma fill_cidrs_eq (att_cidrs : dict (list string)) (a : TGWAttachment.t) :
  fill_cidrs att_cidrs a =
  TGWAttachment.set_cidrs
    (if lacks_cidrs a then
       match dict_get att_cidrs (TGWAttachment.id a) with
       | Some s => sorted s
       | None => []
       end
     else TGWAttachment.cidrs a) a.
Proof.
  unfold fill_cidrs, fill_for, lacks_cidrs.
  destruct a as [id tgw_id type res own name st cidrs art prop cross tgw_owner].
  cbn [TGWAttachment.type TGWAttachment.cidrs TGWAttachment.id].
  destruct type, cidrs as [|c cs]; cbn;
    try reflexivity;
    destruct (dict_get att_cidrs id) as [s|]; reflexivity.
Qed.

Lemma sorted_nonempty (s : list string) : s <> [] -> sorted s <> [].
Proof.
  destruct s as [|x r]; [congruence|]. intros _ E.
  assert (H : In x (sorted (x :: r))) by (apply sorted_In; left; reflexivity).
  rewrite E in H. destruct H.
Qed.

(** Recovery of cross-account CIDRs fills gaps and nothing else.  Only
    the attachments change, and of an attachment only its CIDR list.  An
    attachment of type VPC or VPN with an empty CIDR list receives the
    candidates of its id, in ascending order and without repetition, where
    a candidate is the destination CIDR of a propagated route, of any TGW
    route table, that is attributed to that attachment; static routes and
    routes without destination CIDR give none.  Every other attachment,
    in particular one whose CIDR list is not empty, keeps its list. *)
Theorem extract_cross_account_cidrs_fills_gaps (d : NetworkData.t) :
  let d' := _extract_cross_account_cidrs d in
  NetworkData.tgws d' = NetworkData.tgws d
  /\ NetworkData.tgw_route_tables d' = NetworkData.tgw_route_tables d
  /\ NetworkData.vpcs d' = NetworkData.vpcs d
  /\ NetworkData.vpc_route_tables d' = NetworkData.vpc_route_tables d
  /\ NetworkData.subnets d' = NetworkData.subnets d
  /\ NetworkData.local_account_id d' = NetworkData.local_account_id d
  /\ dict_keys (NetworkData.tgw_attachments d') = dict_keys (NetworkData.tgw_attachments d)
  /\ forall k a,
       dict_get (NetworkData.tgw_attachments d) k = Some a ->
       exists cidrs',
         dict_get (NetworkData.tgw_attachments d') k
           = Some (TGWAttachment.set_cidrs cidrs' a)
         /\ (lacks_cidrs a = true ->
               Sorted str_le cidrs' /\ NoDup cidrs'
               /\ forall c, In c cidrs' <-> candidate d (TGWAttachment.id a) c)
         /\ (lacks_cidrs a = false -> cidrs' = TGWAttachment.cidrs a).
Proof.
  cbv zeta. repeat (split; [reflexivity|]). split.
  - unfold _extract_cross_account_cidrs, dict_keys. cbn [NetworkData.tgw_attachments NetworkData.set_tgw_attachments].
    rewrite map_map. reflexivity.
  - intros k a Ha.
    set (att_cidrs := collect_att_cidrs (NetworkData.tgw_route_tables d)).
    exists (if lacks_cidrs a then
              match dict_get att_cidrs (TGWAttachment.id a) with
              | Some s => sorted s
              | None => []
              end
            else TGWAttachment.cidrs a).
    split.
    + unfold _extract_cross_account_cidrs.
      cbn [NetworkData.tgw_attachments NetworkData.set_tgw_attachments].
      rewrite dict_get_map_values, Ha. cbn [option_map].
      rewrite fill_cidrs_eq. reflexivity.
    + split; intros L; rewrite L; [|reflexivity].
      pose proof (collect_att_cidrs_collected d (TGWAttachment.id a)) as C.
      fold att_cidrs in C.
      destruct (dict_get att_cidrs (TGWAttachment.id a)) as [s|].
      * destruct C as [_ [ND Hin]].
        split; [apply sorted_Sorted|]. split; [apply sorted_NoDup; exact ND|].
        intros c. rewrite sorted_In, Hin. apply candidate_all_routes.
      * split; [constructor|]. split; [constructor|].
        intros c. split; [intros []|].
        intros Hc. apply candidate_all_routes in Hc. exact (C c Hc).
Qed.

(** Running the recovery a second time changes nothing: an attachment it
    filled has CIDRs afterwards, and one it left empty has no candidate. *)
Theorem extract_cross_account_cidrs_idempotent (d : NetworkData.t) :
  _extract_cross_account_cidrs (_extract_cross_account_cidrs d)
  = _extract_cross_account_cidrs d.
Proof.
  unfold _extract_cross_account_cidrs at 1.
  change (NetworkData.tgw_route_tables (_extract_cross_account_cidrs d))
    with (NetworkData.tgw_route_tables d).
  unfold _extract_cross_account_cidrs.
  cbn [NetworkData.tgw_attachments NetworkData.set_tgw_attachments].
  unfold NetworkData.set_tgw_attachments. cbn. f_equal.
  rewrite map_map. apply map_ext. intros [k a]. cbn [fst snd]. f_equal.
  set (att_cidrs := collect_att_cidrs (NetworkData.tgw_route_tables d)).
  rewrite (fill_cidrs_eq att_cidrs a).
  destruct (lacks_cidrs a) eqn:L.
  - pose proof (collect_att_cidrs_collected d (TGWAttachment.id a)) as C.
    fold att_cidrs in C.
    destruct (dict_get att_cidrs (TGWAttachment.id a)) as [s|] eqn:E.
    + destruct C as [NE _]. apply sorted_nonempty in NE.
      rewrite fill_cidrs_eq. unfold lacks_cidrs.
      destruct a; cbn in *. destruct (sorted s); [congruence|].
      rewrite andb_false_r. reflexivity.
    + rewrite fill_cidrs_eq.
      assert (Ea : TGWAttachment.set_cidrs [] a = a).
      { unfold lacks_cidrs in L. apply andb_true_iff in L. destruct L as [_ L].
        destruct a; cbn in *. destruct cidrs; [reflexivity | discriminate]. }
      rewrite Ea, L, E. exact Ea.
  - rewrite set_cidrs_same. rewrite fill_cidrs_eq, L. apply set_cidrs_same.
Qed.

Example extract_cross_account_cidrs_hub :
  map (fun a => (TGWAttachment.id a, TGWAttachment.cidrs a))
      (dict_values (NetworkData.tgw_attachments (load hub_export)))
  = [("tgw-attach-a", ["10.0.0.0/16"; "10.1.0.0/16"]);
     ("tgw-attach-b", ["10.9.0.0/16"; "10.9.8.0/24"]);
     ("tgw-attach-v", ["192.168.7.0/24"])].
Proof. vm_compute. reflexivity. Qed.

(** ** Asymmetric reachability *)

Lemma map_flat_map_comm {A B C : Type} (f : B -> C) (g : A -> list B) (l : list A) :
  map f (flat_map g l) = flat_map (fun x => map f (g x)) l.
Proof.
  induction l as [|x r IH]; simpl; [reflexivity|].
  rewrite map_app, IH. reflexivity.
Qed.

Lemma NoDup_flat_map_tagged {A B T : Type} (g : A -> list B) (t : A -> T) (tag : B -> T)
  (l : list A) :
  NoDup (map t l) ->
  (forall x y, In x l -> In y (g x) -> tag y = t x) ->
  (forall x, In x l -> NoDup (g x)) ->
  NoDup (flat_map g l).
Proof.
  induction l as [|x r IH]; simpl; intros ND Htag Hg; [constructor|].
  inversion ND as [|? ? Hx ND']; subst.
  assert (IHr : NoDup (flat_map g r)).
  { apply IH; [exact ND' | intros; apply Htag; auto | intros; apply Hg; auto]. }
  assert (Hgx : NoDup (g x)) by (apply Hg; left; reflexivity).
  clear IH ND Hg. revert Hgx.
  assert (Hd : forall y, In y (g x) -> ~ In y (flat_map g r)).
  { intros y Hy Hin. apply in_flat_map in Hin. destruct Hin as [x' [Hx' Hy']].
    apply Hx. apply in_map_iff. exists x'. split; [|exact Hx'].
    rewrite <- (Htag x' y (or_intror Hx') Hy').
    apply Htag; [left; reflexivity | exact Hy]. }
  clear Htag. induction (g x) as [|y ys IHy]; simpl; intros Hgx; [exact IHr|].
  inversion Hgx as [|? ? Hy NDy]; subst. constructor.
  - rewrite in_app_iff. intros [H|H]; [contradiction|].
    exact (Hd y (or_introl eq_refl) H).
  - apply IHy; [|exact NDy]. intros z Hz. apply Hd. right. exact Hz.
Qed.

Section AsymmetricRouting.
Variable ip_network : string -> option IPNetwork.t.

Lemma tgw_atts_In (d : NetworkData.t) (tgw : TransitGateway.t) (a : TGWAttachment.t) :
  In a (tgw_atts d tgw) <->
  In a (dict_values (NetworkData.tgw_attachments d))
  /\ TGWAttachment.tgw_id a = TransitGateway.id tgw.
Proof.
  unfold tgw_atts. rewrite filter_In, String.eqb_eq. reflexivity.
Qed.

Lemma can_reach_true_iff (d : NetworkData.t) (src dst : TGWAttachment.t) :
  _can_reach ip_network d src dst = true <->
  exists t rt route cidr,
    TGWAttachment.associated_route_table_id src = Some t /\ t <> ""
    /\ dict_get (NetworkData.tgw_route_tables d) t = Some rt
    /\ In route (TGWRouteTable.routes rt)
    /\ In cidr (TGWAttachment.cidrs dst)
    /\ TGWRoute.state route <> RouteState.BLACKHOLE
    /\ TGWRoute.attachment_id route = Some (TGWAttachment.id dst)
    /\ _cidr_matches ip_network (TGWRoute.destination_cidr route) cidr = true.
Proof.
  unfold _can_reach.
  destruct (TGWAttachment.associated_route_table_id src) as [t|]; cbn [opt_truthy get_default negb].
  2:{ split; [discriminate|]. intros [t [rt [route [cidr [E _]]]]]. discriminate. }
  destruct (truthy t) eqn:T; cbn [negb].
  2:{ apply truthy_false_iff in T. split; [discriminate|].
      intros [t' [rt [route [cidr [E [N _]]]]]]. injection E as <-. contradiction. }
  apply truthy_true_iff in T.
  destruct (dict_get (NetworkData.tgw_route_tables d) t) as [rt|] eqn:Ert.
  2:{ split; [discriminate|].
      intros [t' [rt [route [cidr [E [_ [G _]]]]]]]. injection E as <-. congruence. }
  rewrite existsb_exists. split.
  - intros [cidr [Hc H]]. apply existsb_exists in H. destruct H as [route [Hr H]].
    unfold TGWRoute.is_blackhole in H.
    destruct (RouteState.eqb (TGWRoute.state route) RouteState.BLACKHOLE) eqn:B;
      [discriminate|].
    destruct (opt_eqb (TGWRoute.attachment_id route) (TGWAttachment.id dst)) eqn:A;
      [|discriminate].
    apply opt_eqb_true_iff in A.
    exists t, rt, route, cidr. repeat split; auto.
    intros E. rewrite E in B. discriminate.
  - intros [t' [rt' [route [cidr [E [_ [G [Hr [Hc [B [A M]]]]]]]]]]].
    injection E as <-. rewrite Ert in G. injection G as <-.
    exists cidr. split; [exact Hc|]. apply existsb_exists.
    exists route. split; [exact Hr|].
    unfold TGWRoute.is_blackhole.
    assert (B' : RouteState.eqb (TGWRoute.state route) RouteState.BLACKHOLE = false)
      by (destruct (TGWRoute.state route); [reflexivity | contradiction]).
    rewrite B'. apply opt_eqb_true_iff in A. rewrite A. exact M.
Qed.

Lemma asymmetric_loop_map {A B : Type} (f : A -> B)
  (emit : TGWAttachment.t -> TGWAttachment.t -> A) (d : NetworkData.t) :
  asymmetric_loop ip_network (fun src dst => f (emit src dst)) d
  = map f (asymmetric_loop ip_network emit d).
Proof.
  unfold asymmetric_loop. rewrite map_flat_map_comm.
  apply flat_map_ext. intros tgw. rewrite map_flat_map_comm.
  apply flat_map_ext. intros src. rewrite map_flat_map_comm.
  apply flat_map_ext. intros dst.
  destruct (TGWAttachment.id src =? TGWAttachment.id dst); [reflexivity|].
  cbv zeta.
  destruct (_can_reach ip_network d src dst && negb (_can_reach ip_network d dst src));
    reflexivity.
Qed.

Lemma asymmetric_pairs_In (d : NetworkData.t) (src dst : TGWAttachment.t) :
  In (src, dst) (asymmetric_pairs ip_network d) <->
  exists tgw,
    In tgw (dict_values (NetworkData.tgws d))
    /\ In src (tgw_atts d tgw) /\ In dst (tgw_atts d tgw)
    /\ TGWAttachment.id src <> TGWAttachment.id dst
    /\ _can_reach ip_network d src dst = true
    /\ _can_reach ip_network d dst src = false.
Proof.
  unfold asymmetric_pairs, asymmetric_loop. rewrite in_flat_map. split.
  - intros [tgw [Ht H]]. apply in_flat_map in H. destruct H as [s [Hs H]].
    apply in_flat_map in H. destruct H as [t [Hd H]].
    destruct (String.eqb_spec (TGWAttachment.id s) (TGWAttachment.id t)) as [E|N];
      [destruct H|].
    cbv zeta in H.
    destruct (_can_reach ip_network d s t) eqn:R1; [|destruct H].
    destruct (_can_reach ip_network d t s) eqn:R2; [destruct H|].
    destruct H as [[= <- <-]|[]]. exists tgw. repeat split; auto.
  - intros [tgw [Ht [Hs [Hd [N [R1 R2]]]]]]. exists tgw. split; [exact Ht|].
    apply in_flat_map. exists src. split; [exact Hs|].
    apply in_flat_map. exists dst. split; [exact Hd|].
    apply String.eqb_neq in N. rewrite N. cbv zeta. rewrite R1, R2.
    left. reflexivity.
Qed.

Lemma asymmetric_pairs_NoDup (d : NetworkData.t) :
  NoDup (map TransitGateway.id (dict_values (NetworkData.tgws d))) ->
  NoDup (map TGWAttachment.id (dict_values (NetworkData.tgw_attachments d))) ->
  NoDup (asymmetric_pairs ip_network d).
Proof.
  intros Ht Ha. unfold asymmetric_pairs, asymmetric_loop.
  assert (NDa : forall tgw, NoDup (tgw_atts d tgw)).
  { intros tgw. unfold tgw_atts. apply NoDup_filter. apply (NoDup_map_inv _ _ Ha). }
  apply (NoDup_flat_map_tagged _ TransitGateway.id
           (fun p => TGWAttachment.tgw_id (fst p))); [exact Ht | |].
  - intros tgw p _ Hp. apply in_flat_map in Hp. destruct Hp as [s [Hs Hp]].
    apply in_flat_map in Hp. destruct Hp as [t [_ Hp]].
    destruct (TGWAttachment.id s =? TGWAttachment.id t); [destruct Hp|].
    cbv zeta in Hp.
    destruct (_can_reach ip_network d s t && negb (_can_reach ip_network d t s));
      [|destruct Hp].
    destruct Hp as [<-|[]]. cbn [fst]. apply tgw_atts_In in Hs. exact (proj2 Hs).
  - intros tgw _.
    apply (NoDup_flat_map_tagged _ (fun s => s) fst).
    + rewrite map_id. apply NDa.
    + intros s p _ Hp. apply in_flat_map in Hp. destruct Hp as [t [_ Hp]].
      destruct (TGWAttachment.id s =? TGWAttachment.id t); [destruct Hp|].
      cbv zeta in Hp.
      destruct (_can_reach ip_network d s t && negb (_can_reach ip_network d t s));
        [|destruct Hp].
      destruct Hp as [<-|[]]. reflexivity.
    + intros s _.
      apply (NoDup_flat_map_tagged _ (fun t => t) snd).
      * rewrite map_id. apply NDa.
      * intros t p _ Hp.
        destruct (TGWAttachment.id s =? TGWAttachment.id t); [destruct Hp|].
        cbv zeta in Hp.
        destruct (_can_reach ip_network d s t && negb (_can_reach ip_network d t s));
          [|destruct Hp].
        destruct Hp as [<-|[]]. reflexivity.
      * intros t _.
        destruct (TGWAttachment.id s =? TGWAttachment.id t); [constructor|].
        cbv zeta.
        destruct (_can_reach ip_network d s t && negb (_can_reach ip_network d t s));
          [|constructor].
        constructor; [intros [] | constructor].
Qed.

End AsymmetricRouting.

(** [_can_reach] looks only at the route table associated with the source:
    it holds exactly when that table is in the catalog and has a route that
    is not a blackhole, is attributed to the destination attachment, and
    whose destination CIDR matches one of the destination's CIDRs.  A
    source without associated table, or a destination without CIDRs, is
    never reachable. *)
Theorem can_reach_associated_table_only
  (ip_network : string -> option IPNetwork.t) (d : NetworkData.t)
  (src dst : TGWAttachment.t) :
  (_can_reach ip_network d src dst = true <->
   exists t rt route cidr,
     TGWAttachment.associated_route_table_id src = Some t /\ t <> ""
     /\ dict_get (NetworkData.tgw_route_tables d) t = Some rt
     /\ In route (TGWRouteTable.routes rt)
     /\ In cidr (TGWAttachment.cidrs dst)
     /\ TGWRoute.state route <> RouteState.BLACKHOLE
     /\ TGWRoute.attachment_id route = Some (TGWAttachment.id dst)
     /\ _cidr_matches ip_network (TGWRoute.destination_cidr route) cidr = true)
  /\ (opt_truthy (TGWAttachment.associated_route_table_id src) = false ->
      _can_reach ip_network d src dst = false)
  /\ (TGWAttachment.cidrs dst = [] -> _can_reach ip_network d src dst = false).
Proof.
  split; [apply can_reach_true_iff|]. split.
  - intros F. unfold _can_reach. rewrite F. reflexivity.
  - intros E. destruct (_can_reach ip_network d src dst) eqn:R; [|reflexivity].
    apply can_reach_true_iff in R.
    destruct R as [t [rt [route [cidr [_ [_ [_ [_ [Hc _]]]]]]]]].
    rewrite E in Hc. destruct Hc.
Qed.

(** The asymmetric-routing check emits one warning of type [asymmetric]
    per flagged pair, and an ordered pair (src, dst) is flagged exactly
    when some gateway of the catalog has both attachments, their ids
    differ, src can reach dst and dst cannot reach src.  A pair and its
    reverse are never both flagged, and a catalog without gateway (a spoke
    account) gets no such finding. *)
Theorem check_asymmetric_routing_flags
  (ip_network : string -> option IPNetwork.t) (d : NetworkData.t) :
  _check_asymmetric_routing ip_network d
  = map (fun p => asymmetric_issue (fst p) (snd p)) (asymmetric_pairs ip_network d)
  /\ (forall src dst,
        In (src, dst) (asymmetric_pairs ip_network d) <->
        exists tgw,
          In tgw (dict_values (NetworkData.tgws d))
          /\ In src (dict_values (NetworkData.tgw_attachments d))
          /\ In dst (dict_values (NetworkData.tgw_attachments d))
          /\ TGWAttachment.tgw_id src = TransitGateway.id tgw
          /\ TGWAttachment.tgw_id dst = TransitGateway.id tgw
          /\ TGWAttachment.id src <> TGWAttachment.id dst
          /\ _can_reach ip_network d src dst = true
          /\ _can_reach ip_network d dst src = false)
  /\ (forall src dst,
        In (src, dst) (asymmetric_pairs ip_network d) ->
        ~ In (dst, src) (asymmetric_pairs ip_network d))
  /\ (NetworkData.tgws d = [] -> _check_asymmetric_routing ip_network d = []).
Proof.
  split; [|split; [|split]].
  - unfold _check_asymmetric_routing, asymmetric_pairs.
    rewrite <- asymmetric_loop_map. reflexivity.
  - intros src dst. rewrite asymmetric_pairs_In. split.
    + intros [tgw [Ht [Hs [Hd H]]]]. apply tgw_atts_In in Hs, Hd.
      exists tgw. tauto.
    + intros [tgw [Ht [Hs [Hd [Es [Ed H]]]]]]. exists tgw.
      split; [exact Ht|]. split; [apply tgw_atts_In; auto|].
      split; [apply tgw_atts_In; auto | exact H].
  - intros src dst H1 H2. apply asymmetric_pairs_In in H1, H2.
    destruct H1 as [_ [_ [_ [_ [_ [R1 _]]]]]].
    destruct H2 as [_ [_ [_ [_ [_ [_ R2]]]]]]. congruence.
  - intros E. unfold _check_asymmetric_routing, asymmetric_loop. rewrite E.
    reflexivity.
Qed.

(** In a catalog whose gateways and attachments have pairwise distinct
    ids, as the keys of a dictionary are, no ordered pair is flagged twice,
    so the number of findings is the number of flagged pairs. *)
Theorem check_asymmetric_routing_once
  (ip_network : string -> option IPNetwork.t) (d : NetworkData.t)
  (Htgws : NoDup (map TransitGateway.id (dict_values (NetworkData.tgws d))))
  (Hatts : NoDup (map TGWAttachment.id (dict_values (NetworkData.tgw_attachments d)))) :
  NoDup (asymmetric_pairs ip_network d)
  /\ length (_check_asymmetric_routing ip_network d)
     = length (asymmetric_pairs ip_network d).
Proof.
  split; [apply asymmetric_pairs_NoDup; assumption|].
  unfold _check_asymmetric_routing, asymmetric_pairs.
  rewrite <- (length_map (fun p => asymmetric_issue (fst p) (snd p))).
  rewrite <- asymmetric_loop_map. reflexivity.
Qed.

Lemma check_asymmetric_routing_once_witness :
  NoDup (asymmetric_pairs ipv4_network oneway_catalog)
  /\ length (_check_asymmetric_routing ipv4_network oneway_catalog)
     = length (asymmetric_pairs ipv4_network oneway_catalog).
Proof.
  apply (check_asymmetric_routing_once ipv4_network oneway_catalog).
  - simpl. repeat constructor. intros [].
  - simpl. repeat constructor; simpl; intuition discriminate.
Defined.

(** The one-directional scenario: exactly one finding, for (A, B). *)
Example check_asymmetric_routing_oneway :
  _check_asymmetric_routing ipv4_network oneway_catalog
  = [Issue.mk "asymmetric" "warning" "A → B"
       "Asymmetric routing: A can reach B but not vice versa"]
  /\ asymmetric_pairs ipv4_network oneway_catalog = [(oneway_A, oneway_B)].
Proof. split; vm_compute; reflexivity. Qed.

(** ** CIDR overlap *)

Lemma length_flat_map_sum {A B : Type} (g : A -> list B) (l : list A) :
  length (flat_map g l) = list_sum (map (fun x => length (g x)) l).
Proof.
  induction l as [|x r IH]; simpl; [reflexivity|].
  rewrite length_app, IH. reflexivity.
Qed.

Lemma list_sum_map_add {A : Type} (f g : A -> nat) (l : list A) :
  list_sum (map (fun x => f x + g x) l) = list_sum (map f l) + list_sum (map g l).
Proof.
  induction l as [|x r IH]; simpl; [reflexivity|]. rewrite IH. lia.
Qed.

Lemma list_sum_map_zero {A : Type} (l : list A) :
  list_sum (map (fun _ => 0) l) = 0.
Proof. induction l as [|x r IH]; simpl; [reflexivity | exact IH]. Qed.

Lemma list_sum_swap {A B : Type} (f : A -> B -> nat) (la : list A) (lb : list B) :
  list_sum (map (fun a => list_sum (map (fun b => f a b) lb)) la)
  = list_sum (map (fun b => list_sum (map (fun a => f a b) la)) lb).
Proof.
  induction la as [|a r IH]; simpl.
  - rewrite list_sum_map_zero. reflexivity.
  - rewrite IH, <- list_sum_map_add. reflexivity.
Qed.

Lemma list_sum_map_Permutation {A : Type} (f : A -> nat) (l l' : list A) :
  Permutation l l' -> list_sum (map f l) = list_sum (map f l').
Proof.
  induction 1; simpl; lia.
Qed.

Section CidrOverlap.
Variable ip_network : string -> option IPNetwork.t.

Lemma overlaps_sym (a b : IPNetwork.t) :
  IPNetwork.overlaps a b = IPNetwork.overlaps b a.
Proof.
  unfold IPNetwork.overlaps.
  destruct (IPNetwork.contains b (IPNetwork.version a) (IPNetwork.network_address a)),
           (IPNetwork.contains b (IPNetwork.version a) (IPNetwork.broadcast_address a)),
           (IPNetwork.contains a (IPNetwork.version b) (IPNetwork.network_address b)),
           (IPNetwork.contains a (IPNetwork.version b) (IPNetwork.broadcast_address b));
    reflexivity.
Qed.

Lemma cidrs_overlap_sym (cidr1 cidr2 : string) :
  cidrs_overlap ip_network cidr1 cidr2 = cidrs_overlap ip_network cidr2 cidr1.
Proof.
  unfold cidrs_overlap, overlap_try.
  destruct (ip_network cidr1) as [n1|], (ip_network cidr2) as [n2|]; try reflexivity.
  apply overlaps_sym.
Qed.

Lemma cidrs_overlap_true_iff (cidr1 cidr2 : string) :
  cidrs_overlap ip_network cidr1 cidr2 = true <->
  exists net1 net2,
    ip_network cidr1 = Some net1 /\ ip_network cidr2 = Some net2
    /\ IPNetwork.overlaps net1 net2 = true.
Proof.
  unfold cidrs_overlap, overlap_try.
  destruct (ip_network cidr1) as [n1|], (ip_network cidr2) as [n2|].
  - split; [intros H; exists n1, n2; auto|].
    intros [m1 [m2 [[= <-] [[= <-] H]]]]. exact H.
  - split; [discriminate | intros [m1 [m2 [_ [E _]]]]; discriminate].
  - split; [discriminate | intros [m1 [m2 [E _]]]; discriminate].
  - split; [discriminate | intros [m1 [m2 [E _]]]; discriminate].
Qed.

(** The number of overlapping CIDR pairs across two CIDR lists. *)
Lemma overlap_pair_length {A : Type} (emit : VPC.t -> string -> VPC.t -> string -> A)
  (vpc1 vpc2 : VPC.t) :
  length (overlap_pair ip_network emit vpc1 vpc2)
  = list_sum
      (map (fun cidr1 =>
              list_sum (map (fun cidr2 =>
                               if cidrs_overlap ip_network cidr1 cidr2 then 1 else 0)
                            (VPC.cidrs vpc2)))
           (VPC.cidrs vpc1)).
Proof.
  unfold overlap_pair. rewrite length_flat_map_sum. f_equal.
  apply map_ext. intros cidr1. rewrite length_flat_map_sum. f_equal.
  apply map_ext. intros cidr2.
  destruct (cidrs_overlap ip_network cidr1 cidr2); reflexivity.
Qed.

Lemma overlap_pair_length_sym {A : Type} (emit : VPC.t -> string -> VPC.t -> string -> A)
  (vpc1 vpc2 : VPC.t) :
  length (overlap_pair ip_network emit vpc1 vpc2)
  = length (overlap_pair ip_network emit vpc2 vpc1).
Proof.
  rewrite !overlap_pair_length, list_sum_swap. f_equal.
  apply map_ext. intros cidr2. f_equal. apply map_ext. intros cidr1.
  rewrite cidrs_overlap_sym. reflexivity.
Qed.

Lemma overlap_loop_length_cons {A : Type}
  (emit : VPC.t -> string -> VPC.t -> string -> A) (vpc1 : VPC.t) (rest : list VPC.t) :
  length (overlap_loop ip_network emit (vpc1 :: rest))
  = list_sum (map (fun vpc2 => length (overlap_pair ip_network emit vpc1 vpc2)) rest)
    + length (overlap_loop ip_network emit rest).
Proof.
  simpl. rewrite length_app, length_flat_map_sum. reflexivity.
Qed.

Lemma overlap_loop_length_Permutation {A : Type}
  (emit : VPC.t -> string -> VPC.t -> string -> A) (vpcs vpcs' : list VPC.t) :
  Permutation vpcs vpcs' ->
  length (overlap_loop ip_network emit vpcs) = length (overlap_loop ip_network emit vpcs').
Proof.
  induction 1 as [|x l l' P IH|x y l|l l' l'' P1 IH1 P2 IH2].
  - reflexivity.
  - rewrite !overlap_loop_length_cons, IH.
    rewrite (list_sum_map_Permutation _ _ _ P). reflexivity.
  - rewrite !overlap_loop_length_cons. unfold list_sum. cbn [map fold_right].
    rewrite (overlap_pair_length_sym emit y x). lia.
  - congruence.
Qed.

Lemma overlap_loop_map {A B : Type} (f : A -> B)
  (emit : VPC.t -> string -> VPC.t -> string -> A) (vpcs : list VPC.t) :
  overlap_loop ip_network (fun v1 c1 v2 c2 => f (emit v1 c1 v2 c2)) vpcs
  = map f (overlap_loop ip_network emit vpcs).
Proof.
  induction vpcs as [|vpc1 rest IH]; simpl; [reflexivity|].
  rewrite map_app, IH. f_equal.
  rewrite map_flat_map_comm. apply flat_map_ext. intros vpc2.
  unfold overlap_pair. rewrite map_flat_map_comm. apply flat_map_ext. intros cidr1.
  rewrite map_flat_map_comm. apply flat_map_ext. intros cidr2.
  destruct (cidrs_overlap ip_network cidr1 cidr2); reflexivity.
Qed.

Lemma overlap_pair_In (vpc1 vpc2 : VPC.t) (h : VPC.t * string * VPC.t * string) :
  In h (overlap_pair ip_network (fun v1 c1 v2 c2 => (v1, c1, v2, c2)) vpc1 vpc2) <->
  exists cidr1 cidr2,
    h = (vpc1, cidr1, vpc2, cidr2)
    /\ In cidr1 (VPC.cidrs vpc1) /\ In cidr2 (VPC.cidrs vpc2)
    /\ cidrs_overlap ip_network cidr1 cidr2 = true.
Proof.
  unfold overlap_pair. rewrite in_flat_map. split.
  - intros [cidr1 [H1 H]]. apply in_flat_map in H. destruct H as [cidr2 [H2 H]].
    destruct (cidrs_overlap ip_network cidr1 cidr2) eqn:O; [|destruct H].
    destruct H as [<-|[]]. exists cidr1, cidr2. auto.
  - intros [cidr1 [cidr2 [-> [H1 [H2 O]]]]]. exists cidr1. split; [exact H1|].
    apply in_flat_map. exists cidr2. split; [exact H2|]. rewrite O. left. reflexivity.
Qed.

Lemma overlap_loop_In (vpcs : list VPC.t) (h : VPC.t * string * VPC.t * string) :
  In h (overlap_loop ip_network (fun v1 c1 v2 c2 => (v1, c1, v2, c2)) vpcs) <->
  exists pre vpc1 mid vpc2 post cidr1 cidr2,
    vpcs = (pre ++ vpc1 :: mid ++ vpc2 :: post)%list
    /\ h = (vpc1, cidr1, vpc2, cidr2)
    /\ In cidr1 (VPC.cidrs vpc1) /\ In cidr2 (VPC.cidrs vpc2)
    /\ cidrs_overlap ip_network cidr1 cidr2 = true.
Proof.
  induction vpcs as [|v r IH]; simpl.
  - split; [intros [] | intros [pre [v1 [mid [v2 [post [c1 [c2 [E _]]]]]]]]].
    destruct pre; discriminate.
  - rewrite in_app_iff, in_flat_map, IH. split.
    + intros [[w [Hw H]]|[pre [v1 [mid [v2 [post [c1 [c2 [E H]]]]]]]]].
      * apply overlap_pair_In in H. destruct H as [c1 [c2 H]].
        apply in_split in Hw. destruct Hw as [mid [post ->]].
        exists [], v, mid, w, post, c1, c2. split; [reflexivity | exact H].
      * exists (v :: pre), v1, mid, v2, post, c1, c2. rewrite E.
        split; [reflexivity | exact H].
    + intros [pre [v1 [mid [v2 [post [c1 [c2 [E H]]]]]]]].
      destruct pre as [|p pre]; simpl in E; injection E as -> ->.
      * left. exists v2. split; [apply in_or_app; right; left; reflexivity|].
        apply overlap_pair_In. exists c1, c2. exact H.
      * right. exists pre, v1, mid, v2, post, c1, c2. split; [reflexivity | exact H].
Qed.

End CidrOverlap.

Lemma before_In {A : Type} (l : list A) (x y : A) : before l x y -> In x l /\ In y l.
Proof.
  intros [pre [mid [post ->]]]. split.
  - apply in_or_app. right. left. reflexivity.
  - apply in_or_app. right. right. apply in_or_app. right. left. reflexivity.
Qed.

Lemma before_cons {A : Type} (a : A) (r : list A) (x y : A) :
  before (a :: r) x y <-> (a = x /\ In y r) \/ before r x y.
Proof.
  split.
  - intros [pre [mid [post E]]]. destruct pre as [|p pre]; simpl in E; injection E as -> ->.
    + left. split; [reflexivity|]. apply in_or_app. right. left. reflexivity.
    + right. exists pre, mid, post. reflexivity.
  - intros [[-> H]|[pre [mid [post ->]]]].
    + apply in_split in H. destruct H as [mid [post ->]]. exists [], mid, post. reflexivity.
    + exists (a :: pre), mid, post. reflexivity.
Qed.

Lemma before_asym {A : Type} (l : list A) (x y : A) :
  NoDup l -> before l x y -> ~ before l y x.
Proof.
  induction l as [|a r IH]; intros ND H1 H2.
  - destruct H1 as [pre [mid [post E]]]. destruct pre; discriminate.
  - inversion ND as [|? ? Ha ND']; subst.
    apply before_cons in H1, H2.
    destruct H1 as [[-> Hy]|H1], H2 as [[-> Hx]|H2].
    + contradiction.
    + apply Ha. exact (proj2 (before_In _ _ _ H2)).
    + apply Ha. exact (proj2 (before_In _ _ _ H1)).
    + exact (IH ND' H1 H2).
Qed.

Lemma before_irrefl {A : Type} (l : list A) (x : A) : NoDup l -> ~ before l x x.
Proof. intros ND H. exact (before_asym l x x ND H H). Qed.

Lemma overlap_hits_In (ip_network : string -> option IPNetwork.t) (d : NetworkData.t)
  (vpc1 : VPC.t) (cidr1 : string) (vpc2 : VPC.t) (cidr2 : string) :
  In (vpc1, cidr1, vpc2, cidr2) (overlap_hits ip_network d) <->
  before (dict_values (NetworkData.vpcs d)) vpc1 vpc2
  /\ In cidr1 (VPC.cidrs vpc1) /\ In cidr2 (VPC.cidrs vpc2)
  /\ exists net1 net2,
       ip_network cidr1 = Some net1 /\ ip_network cidr2 = Some net2
       /\ IPNetwork.overlaps net1 net2 = true.
Proof.
  unfold overlap_hits. rewrite overlap_loop_In.
  rewrite <- cidrs_overlap_true_iff. split.
  - intros [pre [w1 [mid [w2 [post [k1 [k2 [E [[= -> -> -> ->] H]]]]]]]]].
    split; [exists pre, mid, post; exact E | exact H].
  - intros [[pre [mid [post E]]] H].
    exists pre, vpc1, mid, vpc2, post, cidr1, cidr2. split; [exact E|].
    split; [reflexivity | exact H].
Qed.

(** The overlap check emits one warning of type [overlap] per flagged
    quadruple, and (vpc1, cidr1, vpc2, cidr2) is flagged exactly when vpc1
    stands before vpc2 in the catalog, cidr1 and cidr2 are CIDRs of vpc1
    and vpc2, both parse as networks and the networks overlap.  A CIDR that
    does not parse overlaps nothing, and overlap does not depend on the
    order of the two CIDRs. *)
Theorem check_cidr_overlaps_flags
  (ip_network : string -> option IPNetwork.t) (d : NetworkData.t) :
  _check_cidr_overlaps ip_network d
  = map (fun h => overlap_issue (fst (fst (fst h))) (snd (fst (fst h)))
                                (snd (fst h)) (snd h))
        (overlap_hits ip_network d)
  /\ (forall vpc1 cidr1 vpc2 cidr2,
        In (vpc1, cidr1, vpc2, cidr2) (overlap_hits ip_network d) <->
        before (dict_values (NetworkData.vpcs d)) vpc1 vpc2
        /\ In cidr1 (VPC.cidrs vpc1) /\ In cidr2 (VPC.cidrs vpc2)
        /\ exists net1 net2,
             ip_network cidr1 = Some net1 /\ ip_network cidr2 = Some net2
             /\ IPNetwork.overlaps net1 net2 = true)
  /\ (forall cidr1 cidr2,
        ip_network cidr1 = None \/ ip_network cidr2 = None ->
        cidrs_overlap ip_network cidr1 cidr2 = false)
  /\ (forall cidr1 cidr2,
        cidrs_overlap ip_network cidr1 cidr2 = cidrs_overlap ip_network cidr2 cidr1).
Proof.
  split; [|split; [|split]].
  - unfold _check_cidr_overlaps, overlap_hits.
    rewrite <- overlap_loop_map. reflexivity.
  - apply overlap_hits_In.
  - intros c1 c2 H. unfold cidrs_overlap, overlap_try.
    destruct (ip_network c1); [|reflexivity].
    destruct H as [H|H]; [discriminate | rewrite H; reflexivity].
  - apply cidrs_overlap_sym.
Qed.

(** The number of overlap findings does not depend on the order in which
    the catalog lists the VPCs. *)
Theorem check_cidr_overlaps_order_independent
  (ip_network : string -> option IPNetwork.t) (d d' : NetworkData.t)
  (Hperm : Permutation (dict_values (NetworkData.vpcs d))
                       (dict_values (NetworkData.vpcs d'))) :
  length (_check_cidr_overlaps ip_network d) = length (_check_cidr_overlaps ip_network d').
Proof.
  unfold _check_cidr_overlaps. apply overlap_loop_length_Permutation. exact Hperm.
Qed.

Lemma check_cidr_overlaps_order_independent_witness :
  length (_check_cidr_overlaps ipv4_network overlap_catalog)
  = length (_check_cidr_overlaps ipv4_network overlap_catalog_reversed).
Proof.
  apply (check_cidr_overlaps_order_independent ipv4_network overlap_catalog
           overlap_catalog_reversed).
  unfold overlap_catalog_reversed, dict_values. cbn [NetworkData.vpcs NetworkData.set_vpcs].
  rewrite map_rev. apply Permutation_rev.
Defined.

Example check_cidr_overlaps_example :
  _check_cidr_overlaps ipv4_network overlap_catalog
  = [Issue.mk "overlap" "warning" "core / apps"
       "CIDR overlap: core (10.0.0.0/16) overlaps with apps (10.0.5.0/24)"]
  /\ _check_cidr_overlaps ipv4_network overlap_catalog_reversed
     = [Issue.mk "overlap" "warning" "apps / core"
          "CIDR overlap: apps (10.0.5.0/24) overlaps with core (10.0.0.0/16)"].
Proof. split; vm_compute; reflexivity. Qed.

Lemma before_map {A B : Type} (f : A -> B) (l : list A) (x y : A) :
  before l x y -> before (map f l) (f x) (f y).
Proof.
  intros [pre [mid [post ->]]]. exists (map f pre), (map f mid), (map f post).
  rewrite map_app. cbn [map]. rewrite map_app. reflexivity.
Qed.

Lemma overlap_pair_NoDup (ip_network : string -> option IPNetwork.t) (vpc1 vpc2 : VPC.t) :
  NoDup (VPC.cidrs vpc1) -> NoDup (VPC.cidrs vpc2) ->
  NoDup (overlap_pair ip_network (fun v1 c1 v2 c2 => (v1, c1, v2, c2)) vpc1 vpc2).
Proof.
  intros N1 N2. unfold overlap_pair.
  apply (NoDup_flat_map_tagged _ (fun c => c) (fun h => snd (fst (fst h)))).
  - rewrite map_id. exact N1.
  - intros c1 h _ Hh. apply in_flat_map in Hh. destruct Hh as [c2 [_ Hh]].
    destruct (cidrs_overlap ip_network c1 c2); [|destruct Hh].
    destruct Hh as [<-|[]]. reflexivity.
  - intros c1 _.
    apply (NoDup_flat_map_tagged _ (fun c => c) (fun h => snd h)).
    + rewrite map_id. exact N2.
    + intros c2 h _ Hh.
      destruct (cidrs_overlap ip_network c1 c2); [|destruct Hh].
      destruct Hh as [<-|[]]. reflexivity.
    + intros c2 _. destruct (cidrs_overlap ip_network c1 c2); [|constructor].
      constructor; [intros [] | constructor].
Qed.

Lemma overlap_loop_NoDup (ip_network : string -> option IPNetwork.t) (vpcs : list VPC.t) :
  NoDup vpcs -> (forall v, In v vpcs -> NoDup (VPC.cidrs v)) ->
  NoDup (overlap_loop ip_network (fun v1 c1 v2 c2 => (v1, c1, v2, c2)) vpcs).
Proof.
  induction vpcs as [|v r IH]; intros ND Hc; simpl; [constructor|].
  inversion ND as [|? ? Hv ND']; subst.
  apply NoDup_app.
  - apply (NoDup_flat_map_tagged _ (fun w => w) (fun h => snd (fst h))).
    + rewrite map_id. exact ND'.
    + intros w h _ Hh. apply overlap_pair_In in Hh.
      destruct Hh as [c1 [c2 [-> _]]]. reflexivity.
    + intros w Hw. apply overlap_pair_NoDup; apply Hc; [left; reflexivity | right; exact Hw].
  - apply IH; [exact ND' | intros w Hw; apply Hc; right; exact Hw].
  - intros h H1 H2. apply in_flat_map in H1. destruct H1 as [w [_ H1]].
    apply overlap_pair_In in H1. destruct H1 as [c1 [c2 [-> _]]].
    apply overlap_loop_In in H2.
    destruct H2 as [pre [v1 [mid [v2 [post [k1 [k2 [E [[= <- _ _ _] _]]]]]]]]].
    apply Hv. rewrite E. apply in_or_app. right. left. reflexivity.
Qed.

(** In a catalog whose VPCs have pairwise distinct ids, as the keys of a
    dictionary are, and whose VPCs list no CIDR twice, as the loader builds
    them, no quadruple is flagged twice, a VPC is never flagged against
    itself, and a pair of VPCs flagged in one order is not flagged in the
    other. *)
Theorem check_cidr_overlaps_distinct_vpcs
  (ip_network : string -> option IPNetwork.t) (d : NetworkData.t)
  (Hids : NoDup (map VPC.id (dict_values (NetworkData.vpcs d))))
  (Hcidrs : forall v, In v (dict_values (NetworkData.vpcs d)) -> NoDup (VPC.cidrs v)) :
  NoDup (overlap_hits ip_network d)
  /\ forall vpc1 cidr1 vpc2 cidr2,
       In (vpc1, cidr1, vpc2, cidr2) (overlap_hits ip_network d) ->
       VPC.id vpc1 <> VPC.id vpc2
       /\ forall cidr1' cidr2', ~ In (vpc2, cidr2', vpc1, cidr1') (overlap_hits ip_network d).
Proof.
  assert (ND : NoDup (dict_values (NetworkData.vpcs d))) by exact (NoDup_map_inv _ _ Hids).
  split; [apply overlap_loop_NoDup; assumption|].
  intros v1 c1 v2 c2 H.
  apply overlap_hits_In in H. destruct H as [B _]. split.
  - intros E. apply (before_map VPC.id) in B. rewrite E in B.
    exact (before_irrefl _ _ Hids B).
  - intros c1' c2' H'.
    apply overlap_hits_In in H'. destruct H' as [B' _].
    exact (before_asym _ _ _ ND B B').
Qed.

Lemma check_cidr_overlaps_distinct_vpcs_witness :
  NoDup (overlap_hits ipv4_network overlap_catalog)
  /\ forall vpc1 cidr1 vpc2 cidr2,
       In (vpc1, cidr1, vpc2, cidr2) (overlap_hits ipv4_network overlap_catalog) ->
       VPC.id vpc1 <> VPC.id vpc2
       /\ forall cidr1' cidr2',
            ~ In (vpc2, cidr2', vpc1, cidr1') (overlap_hits ipv4_network overlap_catalog).
Proof.
  apply (check_cidr_overlaps_distinct_vpcs ipv4_network overlap_catalog).
  - simpl. repeat constructor; simpl; intuition discriminate.
  - simpl. intros v [<-|[<-|[<-|[]]]]; simpl;
      repeat constructor; simpl; intuition discriminate.
Defined.

(** ** Tunnel and BGP health *)

Lemma filter_all_iff {A : Type} (p : A -> bool) (l : list A) :
  length (filter p l) = length l <-> forall x, In x l -> p x = true.
Proof.
  split.
  - intros H. apply filter_length_forallb in H. apply forallb_forall. exact H.
  - intros H. rewrite forallb_filter_id; [reflexivity|]. apply forallb_forall. exact H.
Qed.

Lemma filter_none_iff {A : Type} (p : A -> bool) (l : list A) :
  length (filter p l) = 0 <-> forall x, In x l -> p x = false.
Proof.
  split.
  - intros H x Hx. destruct (p x) eqn:E; [|reflexivity].
    assert (Hin : In x (filter p l)) by (apply filter_In; auto).
    destruct (filter p l); [destruct Hin | discriminate].
  - intros H. induction l as [|x r IH]; simpl; [reflexivity|].
    rewrite (H x (or_introl eq_refl)). apply IH. intros y Hy. apply H. right. exact Hy.
Qed.

Lemma nonempty_length {A : Type} (l : list A) : nonempty l = (0 <? length l)%nat.
Proof. destruct l; reflexivity. Qed.

(** The three-way split the status properties and the health checks both
    compute: [u] of [n] are up. *)
Lemma updown_cases (u n : nat) :
  u <= n ->
  (u = n /\ (u =? n)%nat = true)
  \/ (u <> n /\ 0 < u /\ (u =? n)%nat = false /\ (0 <? u)%nat = true)
  \/ (u = 0 /\ 0 < n /\ (u =? n)%nat = false /\ (0 <? u)%nat = false).
Proof.
  intros L. destruct (Nat.eqb_spec u n) as [E|N]; [left; auto|].
  destruct (Nat.ltb_spec 0 u) as [P|Z]; [right; left; auto|].
  right. right. repeat split; lia.
Qed.

(** [tunnel_status] and the tunnel check agree.  The status is [all_up]
    exactly when every tunnel is UP (also when there is no tunnel), and
    then the connection gets no finding; it is [down] exactly when there
    is a tunnel and none is UP, and then the connection gets the single
    error [vpn_down]; otherwise it is [partial], and then the connection
    gets one [vpn_partial] warning per tunnel that is not UP, in tunnel
    order, and no error. *)
Theorem vpn_issues_follow_tunnel_status (vpn : VPNConnection.t) :
  let down := filter (fun t => negb (VPNTunnel.is_up t)) (VPNConnection.tunnels vpn) in
  (VPNConnection.tunnel_status vpn = "all_up" <->
   forall t, In t (VPNConnection.tunnels vpn) -> VPNTunnel.status t = "UP")
  /\ (VPNConnection.tunnel_status vpn = "down" <->
      VPNConnection.tunnels vpn <> []
      /\ forall t, In t (VPNConnection.tunnels vpn) -> VPNTunnel.status t <> "UP")
  /\ (VPNConnection.tunnel_status vpn = "partial" <->
      (exists t, In t (VPNConnection.tunnels vpn) /\ VPNTunnel.status t = "UP")
      /\ (exists t, In t (VPNConnection.tunnels vpn) /\ VPNTunnel.status t <> "UP"))
  /\ (VPNConnection.tunnel_status vpn = "all_up" -> vpn_issues vpn = [])
  /\ (VPNConnection.tunnel_status vpn = "down" -> vpn_issues vpn = [vpn_down_issue vpn])
  /\ (VPNConnection.tunnel_status vpn = "partial" ->
      vpn_issues vpn = map (vpn_partial_issue vpn) down
      /\ length (vpn_issues vpn)
         = length (VPNConnection.tunnels vpn) - VPNConnection.up_count vpn
      /\ 0 < length (vpn_issues vpn)).
Proof.
  cbv zeta.
  set (l := VPNConnection.tunnels vpn).
  set (dn := filter (fun t => negb (VPNTunnel.is_up t)) l).
  pose proof (filter_length VPNTunnel.is_up l) as HL. fold dn in HL.
  pose proof (filter_all_iff VPNTunnel.is_up l) as Hall.
  pose proof (filter_none_iff VPNTunnel.is_up l) as Hnone.
  assert (Hup : forall t, VPNTunnel.is_up t = true <-> VPNTunnel.status t = "UP")
    by (intros t; apply String.eqb_eq).
  assert (Hdown : forall t, VPNTunnel.is_up t = false <-> VPNTunnel.status t <> "UP")
    by (intros t; apply String.eqb_neq).
  unfold VPNConnection.tunnel_status, vpn_issues, VPNConnection.up_count.
  fold l. fold dn. rewrite (nonempty_length dn).
  set (u := length (filter VPNTunnel.is_up l)) in *.
  set (n := length l) in *.
  assert (Hn : n = 0 <-> l = []) by (subst n; destruct l; simpl; split; congruence).
  destruct (updown_cases u n ltac:(lia)) as [[E B]|[[N [P [B1 B2]]]|[Z [P [B1 B2]]]]].
  - rewrite B.
    assert (Hd : length dn = 0) by lia. rewrite Hd.
    assert (C : ((0 =? n)%nat && (0 <? n)%nat) = false)
      by (destruct n; reflexivity).
    rewrite C. cbn [Nat.ltb Nat.leb].
    split; [split; [intros _ t Ht; apply Hup, Hall; auto | reflexivity]|].
    split; [split; [discriminate|]|].
    { intros [NE H]. exfalso. apply NE. apply Hn.
      destruct l as [|t r]; [reflexivity|].
      assert (Ht := proj1 Hall E t (or_introl eq_refl)).
      apply Hup in Ht. destruct (H t (or_introl eq_refl) Ht). }
    split; [split; [discriminate|]|].
    { intros [_ [t [Ht Nt]]]. apply Hdown in Nt.
      rewrite (proj1 Hall E t Ht) in Nt. discriminate. }
    split; [reflexivity|]. split; discriminate.
  - rewrite B1, B2.
    assert (Hd : length dn = n - u) by lia.
    assert (C : ((length dn =? n)%nat && (0 <? n)%nat) = false).
    { apply andb_false_iff. left. apply Nat.eqb_neq. lia. }
    assert (C' : (0 <? length dn)%nat = true) by (apply Nat.ltb_lt; lia).
    rewrite C, C'.
    split; [split; [discriminate|]|].
    { intros H. exfalso. apply N. apply Hall. intros t Ht. apply Hup. auto. }
    split; [split; [discriminate|]|].
    { intros [_ H]. exfalso. assert (u = 0); [|lia].
      apply Hnone. intros t Ht. apply Hdown. auto. }
    split; [split; [intros _|reflexivity]|].
    { split.
      - destruct (filter VPNTunnel.is_up l) as [|t r] eqn:F; [simpl in u; lia|].
        assert (Ht : In t (filter VPNTunnel.is_up l)) by (rewrite F; left; reflexivity).
        apply filter_In in Ht. exists t. split; [apply Ht | apply Hup, Ht].
      - destruct dn as [|t r] eqn:F; [simpl in Hd; lia|].
        assert (Ht : In t (filter (fun t => negb (VPNTunnel.is_up t)) l))
          by (fold dn; rewrite F; left; reflexivity).
        apply filter_In in Ht. destruct Ht as [Ht Nt].
        apply negb_true_iff in Nt. exists t. split; [exact Ht | apply Hdown, Nt]. }
    split; [discriminate|]. split; [discriminate|].
    intros _. rewrite length_map. split; [reflexivity|]. split; lia.
  - rewrite B1, B2.
    assert (Hd : length dn = n) by lia.
    assert (C : ((length dn =? n)%nat && (0 <? n)%nat) = true).
    { apply andb_true_iff. split; [apply Nat.eqb_eq | apply Nat.ltb_lt]; lia. }
    rewrite C.
    split; [split; [discriminate|]|].
    { intros H. exfalso. assert (u = n); [|lia].
      apply Hall. intros t Ht. apply Hup. auto. }
    split; [split; [intros _|reflexivity]|].
    { split; [intros E; apply Hn in E; lia|].
      intros t Ht. apply Hdown. apply Hnone; auto. }
    split; [split; [discriminate|]|].
    { intros [[t [Ht Ut]] _]. apply Hup in Ut.
      rewrite (proj1 Hnone Z t Ht) in Ut. discriminate. }
    split; [discriminate|]. split; [reflexivity|]. discriminate.
Qed.

Lemma filter_nonempty_exists {A : Type} (p : A -> bool) (l : list A) :
  0 < length (filter p l) -> exists x, In x l /\ p x = true.
Proof.
  destruct (filter p l) as [|x r] eqn:F; [cbn; lia|]. intros _.
  assert (H : In x (filter p l)) by (rewrite F; left; reflexivity).
  apply filter_In in H. exists x. exact H.
Qed.

(** [bgp_status] and the BGP check of a virtual interface agree.  Without
    peers the status is [no_peers] and there is no finding.  With peers,
    the status is [all_up] exactly when the status of every peer is [up]
    in any letter case, and then there is no finding; it is [down] exactly
    when no peer is up, and then there is the single error [bgp_down];
    it is [partial] exactly when some peer is up and some peer is not, and
    then there is one [bgp_partial] warning per peer that is not up.  The
    status is one of these four. *)
Theorem vif_bgp_issues_follow_bgp_status (vif : DXVirtualInterface.t) :
  let peers := DXVirtualInterface.bgp_peers vif in
  let down := filter (fun p => negb (BGPPeer.is_up p)) peers in
  (DXVirtualInterface.bgp_status vif = "no_peers" <-> peers = [])
  /\ (DXVirtualInterface.bgp_status vif = "all_up" <->
      peers <> [] /\ forall p, In p peers -> BGPPeer.is_up p = true)
  /\ (DXVirtualInterface.bgp_status vif = "down" <->
      peers <> [] /\ forall p, In p peers -> BGPPeer.is_up p = false)
  /\ (DXVirtualInterface.bgp_status vif = "partial" <->
      (exists p, In p peers /\ BGPPeer.is_up p = true)
      /\ (exists p, In p peers /\ BGPPeer.is_up p = false))
  /\ (DXVirtualInterface.bgp_status vif = "no_peers" -> vif_bgp_issues vif = [])
  /\ (DXVirtualInterface.bgp_status vif = "all_up" -> vif_bgp_issues vif = [])
  /\ (DXVirtualInterface.bgp_status vif = "down" ->
      vif_bgp_issues vif
      = [Issue.mk "bgp_down" "error" (DXVirtualInterface.name vif)
           ("All BGP peers DOWN for VIF " ++ DXVirtualInterface.name vif)])
  /\ (DXVirtualInterface.bgp_status vif = "partial" ->
      vif_bgp_issues vif = map (bgp_partial_issue vif) down
      /\ length (vif_bgp_issues vif)
         = length peers - DXVirtualInterface.up_count vif
      /\ 0 < length (vif_bgp_issues vif)).
Proof.
  cbv zeta.
  set (l := DXVirtualInterface.bgp_peers vif).
  set (dn := filter (fun p => negb (BGPPeer.is_up p)) l).
  pose proof (filter_length BGPPeer.is_up l) as HL. fold dn in HL.
  pose proof (filter_all_iff BGPPeer.is_up l) as Hall.
  pose proof (filter_none_iff BGPPeer.is_up l) as Hnone.
  unfold DXVirtualInterface.bgp_status, vif_bgp_issues, DXVirtualInterface.up_count.
  fold l. fold dn. rewrite (nonempty_length dn), (nonempty_length l).
  set (u := length (filter BGPPeer.is_up l)) in *.
  set (n := length l) in *.
  assert (Hn : n = 0 <-> l = []) by (subst n; destruct l; simpl; split; congruence).
  destruct (Nat.ltb_spec 0 n) as [Pn|Zn]; cbn [negb].
  2:{ assert (En : n = 0) by lia. assert (El : l = []) by (apply Hn; exact En).
      assert (Hd : length dn = 0) by lia. rewrite Hd, En. cbn.
      split; [split; [intros _; exact El | reflexivity]|].
      split; [split; [discriminate | intros [NE _]; contradiction]|].
      split; [split; [discriminate | intros [NE _]; contradiction]|].
      split; [split; [discriminate|]|].
      { intros [[p [Hp _]] _]. rewrite El in Hp. destruct Hp. }
      repeat split; try reflexivity; discriminate. }
  assert (NE : l <> []) by (intros E; apply Hn in E; lia).
  destruct (updown_cases u n ltac:(lia)) as [[E B]|[[N [P [B1 B2]]]|[Z [P [B1 B2]]]]].
  - rewrite B.
    assert (Hd : length dn = 0) by lia. rewrite Hd.
    assert (C : ((0 =? n)%nat && true) = false)
      by (apply andb_false_iff; left; apply Nat.eqb_neq; lia).
    rewrite C. cbn [Nat.ltb Nat.leb].
    split; [split; [discriminate | intros El; contradiction]|].
    split; [split; [intros _; split; [exact NE | apply Hall; exact E] | reflexivity]|].
    split; [split; [discriminate|]|].
    { intros [_ H]. exfalso. assert (u = 0); [apply Hnone; exact H | lia]. }
    split; [split; [discriminate|]|].
    { intros [_ [p [Hp Np]]]. rewrite (proj1 Hall E p Hp) in Np. discriminate. }
    repeat split; try reflexivity; discriminate.
  - rewrite B1, B2.
    assert (Hd : length dn = n - u) by lia.
    assert (C : ((length dn =? n)%nat && true) = false).
    { apply andb_false_iff. left. apply Nat.eqb_neq. lia. }
    assert (C' : (0 <? length dn)%nat = true) by (apply Nat.ltb_lt; lia).
    rewrite C, C'.
    split; [split; [discriminate | intros El; contradiction]|].
    split; [split; [discriminate|]|].
    { intros [_ H]. exfalso. apply N. apply Hall. exact H. }
    split; [split; [discriminate|]|].
    { intros [_ H]. exfalso. assert (u = 0); [apply Hnone; exact H | lia]. }
    split; [split; [intros _ | reflexivity]|].
    { split.
      - apply (filter_nonempty_exists BGPPeer.is_up l). fold u. exact P.
      - destruct (filter_nonempty_exists (fun p => negb (BGPPeer.is_up p)) l)
          as [p [Hp Np]]; [fold dn; lia|].
        exists p. split; [exact Hp | apply negb_true_iff; exact Np]. }
    split; [discriminate|]. split; [discriminate|]. split; [discriminate|].
    intros _. rewrite length_map. split; [reflexivity|]. split; lia.
  - rewrite B1, B2.
    assert (Hd : length dn = n) by lia.
    assert (C : ((length dn =? n)%nat && true) = true).
    { apply andb_true_iff. split; [apply Nat.eqb_eq; lia | reflexivity]. }
    rewrite C.
    split; [split; [discriminate | intros El; contradiction]|].
    split; [split; [discriminate|]|].
    { intros [_ H]. exfalso. assert (u = n); [apply Hall; exact H | lia]. }
    split; [split; [intros _; split; [exact NE | apply Hnone; exact Z] | reflexivity]|].
    split; [split; [discriminate|]|].
    { intros [[p [Hp Up]] _]. rewrite (proj1 Hnone Z p Hp) in Up. discriminate. }
    split; [discriminate|]. split; [discriminate|]. split; [reflexivity|]. discriminate.
Qed.

Example bgp_peer_is_up_letter_case :
  map (fun s => BGPPeer.is_up (BGPPeer.mk "p" 65000%Z "a" "c" "available" s))
      ["up"; "UP"; "Up"; "down"; ""; "upp"]
  = [true; true; true; false; false; false].
Proof. reflexivity. Qed.

(** ** More on the classifier and on the VPC loader *)

Lemma scan_routes_idempotent (routes : list VPCRoute.t) (current : SubnetType.t) :
  scan_routes routes (scan_routes routes current) = scan_routes routes current.
Proof.
  induction routes as [|r rest IH]; simpl; [reflexivity|].
  destruct (is_default_destination (VPCRoute.destination r)); [|exact IH].
  destruct (VPCRoute.target_type r); try reflexivity; exact IH.
Qed.

Lemma classify_subnet_idempotent (d : NetworkData.t) (subnet : Subnet.t) :
  classify_subnet d (classify_subnet d subnet) = classify_subnet d subnet.
Proof.
  rewrite (classify_subnet_eq d subnet).
  rewrite classify_subnet_eq.
  change (effective_table d (Subnet.set_subnet_type ?t subnet))
    with (effective_table d subnet).
  destruct (effective_table d subnet) as [rt|]; cbn.
  - rewrite scan_routes_idempotent. reflexivity.
  - reflexivity.
Qed.

(** Classifying the subnets a second time changes nothing, and the
    classifier writes nothing but the class of each subnet: the other
    collections, the keys of the subnets and every other field of a subnet
    stay as they were. *)
Theorem classify_subnets_idempotent (d : NetworkData.t) :
  _classify_subnets (_classify_subnets d) = _classify_subnets d
  /\ NetworkData.vpcs (_classify_subnets d) = NetworkData.vpcs d
  /\ NetworkData.vpc_route_tables (_classify_subnets d) = NetworkData.vpc_route_tables d
  /\ NetworkData.tgw_attachments (_classify_subnets d) = NetworkData.tgw_attachments d
  /\ NetworkData.tgw_route_tables (_classify_subnets d) = NetworkData.tgw_route_tables d
  /\ NetworkData.tgws (_classify_subnets d) = NetworkData.tgws d
  /\ forall k subnet,
       dict_get (NetworkData.subnets d) k = Some subnet ->
       exists class,
         dict_get (NetworkData.subnets (_classify_subnets d)) k
         = Some (Subnet.set_subnet_type class subnet).
Proof.
  split; [|repeat (split; [reflexivity|])].
  - assert (E : forall s, classify_subnet (_classify_subnets d) s = classify_subnet d s)
      by reflexivity.
    unfold _classify_subnets at 1. rewrite (map_ext _ _ (fun kv => f_equal (pair (fst kv)) (E (snd kv)))).
    unfold _classify_subnets, NetworkData.set_subnets.
    cbn [NetworkData.tgws NetworkData.tgw_route_tables NetworkData.tgw_attachments
         NetworkData.vpcs NetworkData.vpc_route_tables NetworkData.subnets
         NetworkData.local_account_id].
    f_equal. rewrite map_map. apply map_ext. intros [k s]. cbn [fst snd]. f_equal.
    apply classify_subnet_idempotent.
  - intros k subnet Hk. rewrite classify_subnets_get, Hk. cbn [option_map].
    rewrite classify_subnet_eq. eexists. reflexivity.
Qed.

Lemma vpc_cidrs_invariant (primary : string) (assocs done acc : list string) :
  NoDup acc -> hd_error acc = Some primary ->
  (forall c, In c acc <-> c = primary \/ In c done) ->
  let r := fold_left
             (fun cidrs assoc => if str_in assoc cidrs then cidrs else (cidrs ++ [assoc])%list)
             assocs acc in
  NoDup r /\ hd_error r = Some primary
  /\ (forall c, In c r <-> c = primary \/ In c (done ++ assocs)%list).
Proof.
  revert done acc. induction assocs as [|a rest IH]; intros done acc ND Hh Hin; cbn zeta.
  - simpl. rewrite app_nil_r. auto.
  - simpl. replace (done ++ a :: rest)%list with ((done ++ [a]) ++ rest)%list
      by (rewrite <- app_assoc; reflexivity).
    destruct (str_in a acc) eqn:E.
    + apply (IH (done ++ [a])%list acc ND Hh).
      intros c. rewrite Hin, in_app_iff. simpl. split; [tauto|].
      intros [H|[H|[H|[]]]]; auto. subst c.
      apply str_in_true_iff in E. apply Hin in E. exact E.
    + apply str_in_false_iff in E. apply (IH (done ++ [a])%list (acc ++ [a])%list).
      * apply NoDup_app; [exact ND | constructor; [intros [] | constructor] |].
        intros x Hx [<-|[]]. contradiction.
      * destruct acc; [discriminate | exact Hh].
      * intros c. rewrite !in_app_iff, Hin. simpl. tauto.
Qed.

(** The CIDR list the loader gives a VPC starts with the primary CIDR
    block (the empty string when the record has none, so the list is never
    empty), holds every associated CIDR block and nothing else, and lists
    no CIDR twice. *)
Theorem vpc_cidrs_primary_first_no_repetition (vpc : RawVPC.t) :
  let primary := get_default (RawVPC.CidrBlock vpc) "" in
  VPC.cidrs (make_vpc vpc) = vpc_cidrs vpc
  /\ hd_error (vpc_cidrs vpc) = Some primary
  /\ NoDup (vpc_cidrs vpc)
  /\ (forall c, In c (vpc_cidrs vpc) <->
                c = primary \/ In c (RawVPC.CidrBlockAssociationSet vpc))
  /\ vpc_cidrs vpc <> [].
Proof.
  cbv zeta. split; [reflexivity|].
  destruct (vpc_cidrs_invariant (get_default (RawVPC.CidrBlock vpc) "")
              (RawVPC.CidrBlockAssociationSet vpc) []
              [get_default (RawVPC.CidrBlock vpc) ""]) as [ND [Hh Hin]].
  - constructor; [intros [] | constructor].
  - reflexivity.
  - intros c. simpl. split; [intros [H|[]]; left; auto | intros [H|[]]; left; auto].
  - unfold vpc_cidrs. split; [exact Hh|]. split; [exact ND|]. split; [exact Hin|].
    intros E. rewrite E in Hh. discriminate.
Qed.

(** ** The other checks *)

Lemma has_tgw_route_true_iff (d : NetworkData.t) (vpc : VPC.t) :
  has_tgw_route d vpc = true <->
  exists rt route,
    In rt (dict_values (NetworkData.vpc_route_tables d))
    /\ VPCRouteTable.vpc_id rt = VPC.id vpc
    /\ In route (VPCRouteTable.routes rt)
    /\ VPCRoute.target_type route = RouteTargetType.TGW.
Proof.
  unfold has_tgw_route. rewrite existsb_exists. split.
  - intros [rt [Hrt H]]. apply andb_true_iff in H. destruct H as [Hv H].
    apply String.eqb_eq in Hv. apply existsb_exists in H. destruct H as [route [Hr Ht]].
    exists rt, route. repeat split; auto.
    destruct (VPCRoute.target_type route); try discriminate; reflexivity.
  - intros [rt [route [Hrt [Hv [Hr Ht]]]]]. exists rt. split; [exact Hrt|].
    apply andb_true_iff. split; [apply String.eqb_eq; exact Hv|].
    apply existsb_exists. exists route. split; [exact Hr|]. rewrite Ht. reflexivity.
Qed.

(** The missing-route check gives one [missing_route] info finding per
    flagged VPC, in catalog order, and a VPC is flagged exactly when it has
    a TGW attachment id and no route table of the catalog that belongs to
    it has a route whose target type is tgw, whatever the state of that
    route.  A VPC without attachment is never flagged. *)
Theorem check_missing_routes_flags (d : NetworkData.t) :
  _check_missing_routes d
  = map missing_route_issue
        (filter (fun vpc => opt_truthy (VPC.tgw_attachment_id vpc)
                            && negb (has_tgw_route d vpc))
                (dict_values (NetworkData.vpcs d)))
  /\ (forall vpc,
        (In vpc (dict_values (NetworkData.vpcs d))
         /\ (exists att_id, VPC.tgw_attachment_id vpc = Some att_id /\ att_id <> "")
         /\ forall rt route,
              In rt (dict_values (NetworkData.vpc_route_tables d)) ->
              VPCRouteTable.vpc_id rt = VPC.id vpc ->
              In route (VPCRouteTable.routes rt) ->
              VPCRoute.target_type route <> RouteTargetType.TGW) ->
        In (missing_route_issue vpc) (_check_missing_routes d))
  /\ (forall issue,
        In issue (_check_missing_routes d) ->
        exists vpc,
          issue = missing_route_issue vpc
          /\ In vpc (dict_values (NetworkData.vpcs d))
          /\ (exists att_id, VPC.tgw_attachment_id vpc = Some att_id /\ att_id <> "")
          /\ forall rt route,
               In rt (dict_values (NetworkData.vpc_route_tables d)) ->
               VPCRouteTable.vpc_id rt = VPC.id vpc ->
               In route (VPCRouteTable.routes rt) ->
               VPCRoute.target_type route <> RouteTargetType.TGW)
  /\ ((forall vpc, In vpc (dict_values (NetworkData.vpcs d)) ->
                   VPC.tgw_attachment_id vpc = None) ->
      _check_missing_routes d = []).
Proof.
  assert (E : _check_missing_routes d
              = map missing_route_issue
                    (filter (fun vpc => opt_truthy (VPC.tgw_attachment_id vpc)
                                        && negb (has_tgw_route d vpc))
                            (dict_values (NetworkData.vpcs d)))).
  { unfold _check_missing_routes.
    induction (dict_values (NetworkData.vpcs d)) as [|vpc r IH]; simpl; [reflexivity|].
    rewrite IH. destruct (opt_truthy (VPC.tgw_attachment_id vpc)); [|reflexivity].
    destruct (has_tgw_route d vpc); reflexivity. }
  assert (F : forall vpc,
             (opt_truthy (VPC.tgw_attachment_id vpc) && negb (has_tgw_route d vpc)) = true <->
             (exists att_id, VPC.tgw_attachment_id vpc = Some att_id /\ att_id <> "")
             /\ forall rt route,
                  In rt (dict_values (NetworkData.vpc_route_tables d)) ->
                  VPCRouteTable.vpc_id rt = VPC.id vpc ->
                  In route (VPCRouteTable.routes rt) ->
                  VPCRoute.target_type route <> RouteTargetType.TGW).
  { intros vpc. rewrite andb_true_iff, opt_truthy_true_iff, negb_true_iff. split.
    - intros [Ha Hn]. split; [exact Ha|]. intros rt route Hrt Hv Hr Ht.
      assert (H : has_tgw_route d vpc = true)
        by (apply has_tgw_route_true_iff; exists rt, route; auto).
      congruence.
    - intros [Ha Hn]. split; [exact Ha|].
      destruct (has_tgw_route d vpc) eqn:H; [|reflexivity].
      apply has_tgw_route_true_iff in H. destruct H as [rt [route [Hrt [Hv [Hr Ht]]]]].
      destruct (Hn rt route Hrt Hv Hr Ht). }
  split; [exact E|]. split; [|split].
  - intros vpc [Hin H]. rewrite E. apply in_map. apply filter_In.
    split; [exact Hin | apply F; exact H].
  - intros issue Hi. rewrite E in Hi. apply in_map_iff in Hi.
    destruct Hi as [vpc [<- Hv]]. apply filter_In in Hv. destruct Hv as [Hin Hv].
    exists vpc. split; [reflexivity|]. split; [exact Hin | apply F; exact Hv].
  - intros H. rewrite E. clear E. revert H.
    generalize (dict_values (NetworkData.vpcs d)) as l.
    induction l as [|vpc r IH]; intros H; [reflexivity|].
    simpl. rewrite (H vpc (or_introl eq_refl)). simpl.
    apply IH. intros v Hv. apply H. right. exact Hv.
Qed.

Lemma filter_app_all {A : Type} (p : A -> bool) (l : list A) :
  forallb p l = true -> filter p l = l.
Proof. apply forallb_filter_id. Qed.

Lemma filter_app_none {A : Type} (p : A -> bool) (l : list A) :
  forallb (fun x => negb (p x)) l = true -> filter p l = [].
Proof.
  induction l as [|x r IH]; simpl; [reflexivity|].
  intros H. apply andb_true_iff in H. destruct H as [Hx Hr].
  apply negb_true_iff in Hx. rewrite Hx. apply IH. exact Hr.
Qed.

Lemma forallb_flat_map {A B : Type} (p : B -> bool) (g : A -> list B) (l : list A) :
  (forall x, forallb p (g x) = true) -> forallb p (flat_map g l) = true.
Proof.
  intros H. induction l as [|x r IH]; simpl; [reflexivity|].
  rewrite forallb_app, H, IH. reflexivity.
Qed.

(** Every finding of a check carries one of the types of that check. *)
Lemma check_blackholes_types (d : NetworkData.t) :
  forallb (fun i => Issue.type i =? "blackhole") (_check_blackholes d) = true.
Proof.
  unfold _check_blackholes. apply forallb_flat_map. intros rt.
  apply forallb_flat_map. intros route. destruct (TGWRoute.is_blackhole route); reflexivity.
Qed.

Lemma check_asymmetric_types (ip_network : string -> option IPNetwork.t)
  (d : NetworkData.t) :
  forallb (fun i => Issue.type i =? "asymmetric") (_check_asymmetric_routing ip_network d)
  = true.
Proof.
  unfold _check_asymmetric_routing, asymmetric_loop. apply forallb_flat_map. intros tgw.
  apply forallb_flat_map. intros src. apply forallb_flat_map. intros dst.
  destruct (TGWAttachment.id src =? TGWAttachment.id dst); [reflexivity|].
  cbv zeta.
  destruct (_can_reach ip_network d src dst && negb (_can_reach ip_network d dst src));
    reflexivity.
Qed.

Lemma check_peering_types (x : Connectivity.t) :
  forallb (fun i => Issue.type i =? "peering") (_check_peering_issues x) = true.
Proof.
  unfold _check_peering_issues. apply forallb_flat_map. intros pcx.
  destruct (negb (VPCPeering.status pcx =? "active")); reflexivity.
Qed.

Lemma check_overlap_types (ip_network : string -> option IPNetwork.t) (d : NetworkData.t) :
  forallb (fun i => Issue.type i =? "overlap") (_check_cidr_overlaps ip_network d) = true.
Proof.
  unfold _check_cidr_overlaps.
  induction (dict_values (NetworkData.vpcs d)) as [|vpc1 rest IH]; simpl; [reflexivity|].
  rewrite forallb_app, IH, andb_true_r.
  apply forallb_flat_map. intros vpc2. unfold overlap_pair.
  apply forallb_flat_map. intros cidr1. apply forallb_flat_map. intros cidr2.
  destruct (cidrs_overlap ip_network cidr1 cidr2); reflexivity.
Qed.

Lemma check_missing_routes_types (d : NetworkData.t) :
  forallb (fun i => Issue.type i =? "missing_route") (_check_missing_routes d) = true.
Proof.
  unfold _check_missing_routes. apply forallb_flat_map. intros vpc.
  destruct (opt_truthy (VPC.tgw_attachment_id vpc)); [|reflexivity].
  destruct (negb (has_tgw_route d vpc)); reflexivity.
Qed.

Lemma check_vpn_types (x : Connectivity.t) :
  forallb (issue_type_in vpn_issue_types) (_check_vpn_tunnels x) = true.
Proof.
  unfold _check_vpn_tunnels. apply forallb_flat_map. intros vpn. unfold vpn_issues.
  match goal with |- context [if ?c then _ else _] => destruct c end; [reflexivity|].
  match goal with |- context [if ?c then _ else _] => destruct c end; [|reflexivity].
  apply forallb_forall. intros i Hi. apply in_map_iff in Hi.
  destruct Hi as [t [<- _]]. reflexivity.
Qed.

Lemma check_dx_types (x : Connectivity.t) :
  forallb (issue_type_in dx_issue_types) (_check_dx_issues x) = true.
Proof.
  unfold _check_dx_issues. rewrite forallb_app. apply andb_true_iff. split.
  - apply forallb_flat_map. intros conn. unfold dx_connection_issues.
    destruct (DXConnection.state conn =? "down"); [reflexivity|].
    match goal with |- context [if ?c then _ else _] => destruct c end; reflexivity.
  - apply forallb_flat_map. intros vif. rewrite forallb_app. apply andb_true_iff. split.
    + unfold vif_state_issues.
      destruct (negb (DXVirtualInterface.state vif =? "available")); reflexivity.
    + unfold vif_bgp_issues.
      match goal with |- context [if ?c then _ else _] => destruct c end; [reflexivity|].
      match goal with |- context [if ?c then _ else _] => destruct c end; [|reflexivity].
      apply forallb_forall. intros i Hi. apply in_map_iff in Hi.
      destruct Hi as [p [<- _]]. reflexivity.
Qed.

Lemma forallb_impl {A : Type} (p q : A -> bool) (l : list A) :
  (forall x, p x = true -> q x = true) -> forallb p l = true -> forallb q l = true.
Proof.
  intros H. rewrite !forallb_forall. intros Hp x Hx. apply H, Hp, Hx.
Qed.

Ltac settle_types :=
  let i := fresh "i" in
  let H := fresh "H" in
  intros i H; cbv beta;
  unfold issue_type_in, str_in, vpn_issue_types, dx_issue_types in *;
  cbn [existsb] in *;
  repeat match goal with
         | H : (_ || _)%bool = true |- _ =>
             apply orb_true_iff in H; destruct H as [H|H]
         end;
  try discriminate;
  match goal with
  | H : (_ =? _) = true |- _ => apply String.eqb_eq in H; rewrite H
  end;
  reflexivity.

Ltac check_types :=
  first [ apply check_blackholes_types | apply check_asymmetric_types
        | apply check_peering_types | apply check_overlap_types
        | apply check_missing_routes_types | apply check_vpn_types
        | apply check_dx_types ].

Ltac filter_checks :=
  unfold find_issues; rewrite !filter_app;
  repeat match goal with
         | |- context [filter ?p ?l] =>
             first [ rewrite (filter_app_all p l)
                       by (eapply forallb_impl; [|check_types]; settle_types)
                   | rewrite (filter_app_none p l)
                       by (eapply forallb_impl; [|check_types]; settle_types) ]
         end;
  cbn [app]; rewrite ?app_nil_r; reflexivity.

(** [find_issues] gives the findings of the seven checks as seven
    consecutive blocks, in this order: blackholes, asymmetric routing,
    peerings, CIDR overlaps, missing routes, VPN tunnels, Direct Connect.
    No check emits a type of another, so selecting the findings by type
    gives back the output of each check, in its order: the findings of one
    check never hide or alter those of another. *)
Theorem find_issues_keeps_every_check
  (ip_network : string -> option IPNetwork.t) (d : NetworkData.t) (x : Connectivity.t) :
  let issues := find_issues ip_network d x in
  issues = (_check_blackholes d
            ++ _check_asymmetric_routing ip_network d
            ++ _check_peering_issues x
            ++ _check_cidr_overlaps ip_network d
            ++ _check_missing_routes d
            ++ _check_vpn_tunnels x
            ++ _check_dx_issues x)%list
  /\ filter (fun i => Issue.type i =? "blackhole") issues = _check_blackholes d
  /\ filter (fun i => Issue.type i =? "asymmetric") issues
     = _check_asymmetric_routing ip_network d
  /\ filter (fun i => Issue.type i =? "peering") issues = _check_peering_issues x
  /\ filter (fun i => Issue.type i =? "overlap") issues
     = _check_cidr_overlaps ip_network d
  /\ filter (fun i => Issue.type i =? "missing_route") issues = _check_missing_routes d
  /\ filter (issue_type_in vpn_issue_types) issues = _check_vpn_tunnels x
  /\ filter (issue_type_in dx_issue_types) issues = _check_dx_issues x
  /\ length issues
     = length (_check_blackholes d)
       + length (_check_asymmetric_routing ip_network d)
       + length (_check_peering_issues x)
       + length (_check_cidr_overlaps ip_network d)
       + length (_check_missing_routes d)
       + length (_check_vpn_tunnels x)
       + length (_check_dx_issues x).
Proof.
  cbv zeta. split; [reflexivity|].
  split; [filter_checks|]. split; [filter_checks|]. split; [filter_checks|].
  split; [filter_checks|]. split; [filter_checks|]. split; [filter_checks|].
  split; [filter_checks|].
  unfold find_issues. rewrite !length_app. lia.
Qed.

(** ** What the loader puts into a TGW route table *)

Lemma option_map_app_nil {B : Type} (o : option (list B)) :
  option_map (fun l => (l ++ [])%list) o = o.
Proof. destruct o; simpl; [rewrite app_nil_r|]; reflexivity. Qed.

Lemma option_map_app_app {B : Type} (o : option (list B)) (x y : list B) :
  option_map (fun l => (l ++ y)%list) (option_map (fun l => (l ++ x)%list) o)
  = option_map (fun l => (l ++ (x ++ y))%list) o.
Proof. destruct o; simpl; [rewrite app_assoc|]; reflexivity. Qed.

Lemma view_update_app {V B : Type} (pr : V -> list B) (d : dict V) (key : string)
  (f : V -> V) (x : list B) (k : string) :
  (forall v, pr (f v) = (pr v ++ x)%list) ->
  dict_get (dict_view pr (dict_update d key f)) k
  = option_map (fun l => (l ++ (if key =? k then x else []))%list)
               (dict_get (dict_view pr d) k).
Proof.
  intros Hf. rewrite !dict_get_view, dict_get_update.
  destruct (key =? k).
  - destruct (dict_get d k); simpl; [rewrite Hf|]; reflexivity.
  - rewrite option_map_app_nil. reflexivity.
Qed.

(** Folding steps that append to the lists of a view appends the
    concatenation of what each step appends. *)
Lemma fold_left_appends {S E B : Type} (vw : S -> dict (list B)) (step : S -> E -> S)
  (upd : E -> string -> list B) (Inv : S -> Prop) :
  (forall s e, Inv s -> Inv (step s e)) ->
  (forall s e k, Inv s ->
     dict_get (vw (step s e)) k
     = option_map (fun l => (l ++ upd e k)%list) (dict_get (vw s) k)) ->
  forall es s k, Inv s ->
    Inv (fold_left step es s)
    /\ dict_get (vw (fold_left step es s)) k
       = option_map (fun l => (l ++ flat_map (fun e => upd e k) es)%list)
                    (dict_get (vw s) k).
Proof.
  intros Hinv Hstep. induction es as [|e es IH]; intros s k Hs; simpl.
  - split; [exact Hs|]. rewrite option_map_app_nil. reflexivity.
  - destruct (IH (step s e) k (Hinv s e Hs)) as [Hi Hg]. split; [exact Hi|].
    rewrite Hg, Hstep by exact Hs. apply option_map_app_app.
Qed.

Lemma flat_map_file_entries {X B : Type} (g : X -> list B)
  (files : list (string * list X)) (k : string) :
  flat_map (fun f => if fst f =? k then flat_map g (snd f) else []) files
  = flat_map g (file_entries files k).
Proof.
  unfold file_entries. induction files as [|f r IH]; simpl; [reflexivity|].
  rewrite flat_map_app, IH. destruct (fst f =? k); reflexivity.
Qed.

Definition keys_known (known : string -> bool) (d : NetworkData.t) : Prop :=
  forall k, dict_mem (NetworkData.tgw_route_tables d) k = known k.

Lemma load_association_keys (known : string -> bool) (rt_id : string)
  (d : NetworkData.t) (e : RawAssociation.t) :
  keys_known known d -> keys_known known (load_association rt_id d e).
Proof.
  intros H k. unfold load_association.
  destruct (opt_eqb (RawAssociation.State e) "associated"); [|apply H].
  destruct (RawAssociation.TransitGatewayAttachmentId e) as [a|]; [|apply H].
  destruct (truthy a); [|apply H]. simpl. rewrite dict_mem_update. apply H.
Qed.

Lemma load_propagation_keys (known : string -> bool) (rt_id : string)
  (d : NetworkData.t) (e : RawAssociation.t) :
  keys_known known d -> keys_known known (load_propagation rt_id d e).
Proof.
  intros H k. unfold load_propagation.
  destruct (opt_eqb (RawAssociation.State e) "enabled"); [|apply H].
  destruct (RawAssociation.TransitGatewayAttachmentId e) as [a|]; [|apply H].
  destruct (truthy a); [|apply H]. simpl. rewrite dict_mem_update. apply H.
Qed.

Lemma load_association_appends (rt_id : string) (d : NetworkData.t)
  (e : RawAssociation.t) (k : string) :
  dict_get (table_view TGWRouteTable.associations (load_association rt_id d e)) k
  = option_map (fun l => (l ++ (if rt_id =? k then linked_id "associated" e else []))%list)
               (dict_get (table_view TGWRouteTable.associations d) k).
Proof.
  unfold load_association, linked_id.
  destruct (opt_eqb (RawAssociation.State e) "associated");
    [|destruct (rt_id =? k); rewrite option_map_app_nil; reflexivity].
  destruct (RawAssociation.TransitGatewayAttachmentId e) as [a|];
    [|destruct (rt_id =? k); rewrite option_map_app_nil; reflexivity].
  destruct (truthy a);
    [|destruct (rt_id =? k); rewrite option_map_app_nil; reflexivity].
  unfold table_view. simpl. apply view_update_app. reflexivity.
Qed.

Lemma load_propagation_appends (rt_id : string) (d : NetworkData.t)
  (e : RawAssociation.t) (k : string) :
  dict_get (table_view TGWRouteTable.propagations (load_propagation rt_id d e)) k
  = option_map (fun l => (l ++ (if rt_id =? k then linked_id "enabled" e else []))%list)
               (dict_get (table_view TGWRouteTable.propagations d) k).
Proof.
  unfold load_propagation, linked_id.
  destruct (opt_eqb (RawAssociation.State e) "enabled");
    [|destruct (rt_id =? k); rewrite option_map_app_nil; reflexivity].
  destruct (RawAssociation.TransitGatewayAttachmentId e) as [a|];
    [|destruct (rt_id =? k); rewrite option_map_app_nil; reflexivity].
  destruct (truthy a);
    [|destruct (rt_id =? k); rewrite option_map_app_nil; reflexivity].
  unfold table_view. simpl. apply view_update_app. reflexivity.
Qed.

(** A file step: when the table is unknown nothing is appended, and then
    the view has no entry under that key either. *)
Lemma file_step_appends {X B : Type} (pr : TGWRouteTable.t -> list B)
  (step : string -> NetworkData.t -> X -> NetworkData.t) (g : X -> list B)
  (d : NetworkData.t) (f : string * list X) (k : string) :
  (forall rt_id s e k',
     dict_get (table_view pr (step rt_id s e)) k'
     = option_map (fun l => (l ++ (if rt_id =? k' then g e else []))%list)
                  (dict_get (table_view pr s) k')) ->
  dict_get (table_view pr
              (if dict_mem (NetworkData.tgw_route_tables d) (fst f)
               then fold_left (step (fst f)) (snd f) d else d)) k
  = option_map (fun l => (l ++ (if fst f =? k then flat_map g (snd f) else []))%list)
               (dict_get (table_view pr d) k).
Proof.
  intros Hstep.
  destruct (dict_mem (NetworkData.tgw_route_tables d) (fst f)) eqn:M.
  - destruct (fold_left_appends (table_view pr) (step (fst f))
                (fun e k' => if fst f =? k' then g e else []) (fun _ => True)
                (fun _ _ _ => I) (fun s e k' _ => Hstep (fst f) s e k')
                (snd f) d k I) as [_ H].
    rewrite H. clear H.
    assert (E : flat_map (fun e => if fst f =? k then g e else []) (snd f)
                = if fst f =? k then flat_map g (snd f) else []).
    { destruct (fst f =? k); [reflexivity|].
      generalize (snd f) as es. induction es as [|e r IH]; simpl; [reflexivity | exact IH]. }
    rewrite E. reflexivity.
  - destruct (String.eqb_spec (fst f) k) as [<-|N].
    + unfold table_view. rewrite dict_get_view. unfold dict_mem in M.
      destruct (dict_get (NetworkData.tgw_route_tables d) (fst f)); [discriminate|].
      reflexivity.
    + rewrite option_map_app_nil. reflexivity.
Qed.

Lemma files_fold_appends {X B : Type} (pr : TGWRouteTable.t -> list B)
  (file_step : NetworkData.t -> string * list X -> NetworkData.t) (g : X -> list B) :
  (forall d f k,
     dict_get (table_view pr (file_step d f)) k
     = option_map (fun l => (l ++ (if fst f =? k then flat_map g (snd f) else []))%list)
                  (dict_get (table_view pr d) k)) ->
  forall files d k,
    dict_get (table_view pr (fold_left file_step files d)) k
    = option_map (fun l => (l ++ flat_map g (file_entries files k))%list)
                 (dict_get (table_view pr d) k).
Proof.
  intros Hstep files d k.
  destruct (fold_left_appends (table_view pr) file_step
              (fun f k' => if fst f =? k' then flat_map g (snd f) else [])
              (fun _ => True) (fun _ _ _ => I) (fun s f k' _ => Hstep s f k')
              files d k I) as [_ H].
  rewrite H, flat_map_file_entries. reflexivity.
Qed.

Lemma load_association_file_table_view {B : Type} (pr : TGWRouteTable.t -> B)
  (d : NetworkData.t) (f : string * list RawAssociation.t) :
  (forall v rt, pr (TGWRouteTable.add_association v rt) = pr rt) ->
  table_view pr (load_association_file d f) = table_view pr d.
Proof.
  intros Hpr. unfold load_association_file.
  destruct (dict_mem (NetworkData.tgw_route_tables d) (fst f)); [|reflexivity].
  apply (fold_left_invariant _ (fun s => table_view pr s = table_view pr d)); [|reflexivity].
  intros s e H. rewrite <- H. unfold load_association.
  destruct (opt_eqb (RawAssociation.State e) "associated"); [|reflexivity].
  destruct (RawAssociation.TransitGatewayAttachmentId e) as [a|]; [|reflexivity].
  destruct (truthy a); [|reflexivity].
  unfold table_view. simpl. apply dict_view_update. apply Hpr.
Qed.

Lemma after_association_files_table_view {B : Type} (pr : TGWRouteTable.t -> B)
  (inp : RawInput.t) :
  (forall v rt, pr (TGWRouteTable.add_association v rt) = pr rt) ->
  table_view pr (after_association_files inp) = table_view pr (after_route_tables inp).
Proof.
  intros Hpr. unfold after_association_files.
  apply (fold_left_invariant _
           (fun s => table_view pr s = table_view pr (after_route_tables inp)));
    [|reflexivity].
  intros s f H. rewrite load_association_file_table_view by exact Hpr. exact H.
Qed.

Lemma after_propagation_files_table_view {B : Type} (pr : TGWRouteTable.t -> B)
  (inp : RawInput.t) :
  (forall v rt, pr (TGWRouteTable.add_propagation v rt) = pr rt) ->
  table_view pr (after_propagation_files inp) = table_view pr (after_association_files inp).
Proof.
  intros Hpr. unfold after_propagation_files.
  apply (fold_left_invariant _
           (fun s => table_view pr s = table_view pr (after_association_files inp)));
    [|reflexivity].
  intros s f H. rewrite load_propagation_file_table_view by exact Hpr. exact H.
Qed.

Lemma after_route_details_eq (inp : RawInput.t) :
  after_route_details inp
  = fold_left load_route_file (RawInput.route_files inp) (after_propagation_files inp).
Proof. reflexivity. Qed.

(** The phases after [_load_tgw_route_details] leave the TGW route tables
    alone. *)
Lemma load_tables_after_route_details (inp : RawInput.t) :
  NetworkData.tgw_route_tables (load inp)
  = NetworkData.tgw_route_tables (after_route_details inp).
Proof.
  rewrite load_before_classification.
  change (NetworkData.tgw_route_tables (_classify_subnets (before_classification inp)))
    with (NetworkData.tgw_route_tables (before_classification inp)).
  unfold before_classification.
  change (NetworkData.tgw_route_tables (_extract_cross_account_cidrs ?d))
    with (NetworkData.tgw_route_tables d).
  match goal with
  | |- NetworkData.tgw_route_tables (_correlate_data ?d) = _ =>
      assert (E : NetworkData.tgw_route_tables (_correlate_data d)
                  = NetworkData.tgw_route_tables d)
  end.
  { unfold _correlate_data.
    match goal with
    | |- context [correlate_attachments ?a ?v] => destruct (correlate_attachments a v)
    end.
    reflexivity. }
  rewrite E. clear E.
  match goal with
  | |- context [_load_vpc_route_tables inp ?d] =>
      pose proof (load_vpc_route_tables_tgw_side inp d) as H
  end.
  apply (f_equal (fun x => snd (fst x))) in H. simpl in H. rewrite H. reflexivity.
Qed.

Lemma after_route_tables_empty_lists (inp : RawInput.t) :
  Forall (fun kv => TGWRouteTable.associations (snd kv) = []
                    /\ TGWRouteTable.propagations (snd kv) = []
                    /\ TGWRouteTable.routes (snd kv) = [])
         (NetworkData.tgw_route_tables (after_route_tables inp)).
Proof.
  unfold after_route_tables, _load_tgw_route_tables. simpl.
  apply (fold_left_invariant _
           (Forall (fun kv => TGWRouteTable.associations (snd kv) = []
                              /\ TGWRouteTable.propagations (snd kv) = []
                              /\ TGWRouteTable.routes (snd kv) = [])));
    [|constructor].
  intros acc rt H. apply Forall_entries_dict_set; [| exact H].
  repeat split; reflexivity.
Qed.

Lemma after_route_tables_keys (inp : RawInput.t) (k : string) :
  In k (dict_keys (NetworkData.tgw_route_tables (after_route_tables inp))) <->
  exists raw, In raw (RawInput.TransitGatewayRouteTables inp)
              /\ RawTGWRouteTable.TransitGatewayRouteTableId raw = k.
Proof.
  unfold after_route_tables, _load_tgw_route_tables. simpl.
  assert (G : forall raws acc,
             In k (dict_keys
                     (fold_left
                        (fun acc rt =>
                           dict_set acc (RawTGWRouteTable.TransitGatewayRouteTableId rt)
                                    (make_tgw_route_table rt)) raws acc)) <->
             In k (dict_keys acc)
             \/ exists raw, In raw raws
                            /\ RawTGWRouteTable.TransitGatewayRouteTableId raw = k).
  { induction raws as [|r rs IH]; intros acc; simpl.
    - split; [auto | intros [H|[raw [[] _]]]; exact H].
    - rewrite IH, !In_dict_keys_get. split.
      + intros [[v Hv]|[raw [Hr E]]].
        * rewrite dict_get_set in Hv.
          destruct (String.eqb_spec (RawTGWRouteTable.TransitGatewayRouteTableId r) k) as [E|N].
          -- right. exists r. auto.
          -- left. exists v. exact Hv.
        * right. exists raw. auto.
      + intros [[v Hv]|[raw [[<-|Hr] E]]].
        * left. rewrite dict_get_set.
          destruct (RawTGWRouteTable.TransitGatewayRouteTableId r =? k);
            eexists; [reflexivity | exact Hv].
        * left. rewrite dict_get_set, E, String.eqb_refl. eexists. reflexivity.
        * right. exists raw. auto. }
  rewrite G. simpl. split; [intros [[]|H]; exact H | auto].
Qed.

Lemma flat_map_singleton {A B : Type} (f : A -> B) (l : list A) :
  flat_map (fun x => [f x]) l = map f l.
Proof. induction l as [|x r IH]; simpl; [reflexivity | rewrite IH; reflexivity]. Qed.

Lemma load_table_ids_view (inp : RawInput.t) :
  table_view TGWRouteTable.id (load inp)
  = table_view TGWRouteTable.id (after_route_tables inp).
Proof.
  rewrite load_table_view_after_association_files by reflexivity.
  apply after_association_files_table_view. reflexivity.
Qed.

Lemma load_table_keys (inp : RawInput.t) :
  dict_keys (NetworkData.tgw_route_tables (load inp))
  = dict_keys (NetworkData.tgw_route_tables (after_route_tables inp)).
Proof.
  rewrite <- (dict_view_keys TGWRouteTable.id (NetworkData.tgw_route_tables (load inp))).
  rewrite <- (dict_view_keys TGWRouteTable.id
                (NetworkData.tgw_route_tables (after_route_tables inp))).
  f_equal. apply load_table_ids_view.
Qed.

Lemma loaded_associations (inp : RawInput.t) (k : string) :
  dict_get (table_view TGWRouteTable.associations (load inp)) k
  = option_map
      (fun l => (l ++ flat_map (linked_id "associated")
                               (file_entries (RawInput.association_files inp) k))%list)
      (dict_get (table_view TGWRouteTable.associations (after_route_tables inp)) k).
Proof.
  rewrite load_table_view_after_association_files by reflexivity.
  unfold after_association_files.
  apply (files_fold_appends TGWRouteTable.associations load_association_file).
  intros d f k'.
  apply (file_step_appends TGWRouteTable.associations load_association
           (linked_id "associated") d f k').
  intros rt_id s e k''. apply load_association_appends.
Qed.

Lemma loaded_propagations (inp : RawInput.t) (k : string) :
  dict_get (table_view TGWRouteTable.propagations (load inp)) k
  = option_map
      (fun l => (l ++ flat_map (linked_id "enabled")
                               (file_entries (RawInput.propagation_files inp) k))%list)
      (dict_get (table_view TGWRouteTable.propagations (after_route_tables inp)) k).
Proof.
  unfold table_view at 1. rewrite load_tables_after_route_details.
  change (dict_view TGWRouteTable.propagations
            (NetworkData.tgw_route_tables (after_route_details inp)))
    with (table_view TGWRouteTable.propagations (after_route_details inp)).
  rewrite after_route_details_eq.
  assert (E : table_view TGWRouteTable.propagations
                (fold_left load_route_file (RawInput.route_files inp)
                           (after_propagation_files inp))
              = table_view TGWRouteTable.propagations (after_propagation_files inp)).
  { apply (fold_left_invariant _
             (fun s => table_view TGWRouteTable.propagations s
                       = table_view TGWRouteTable.propagations (after_propagation_files inp)));
      [|reflexivity].
    intros s f H. rewrite load_route_file_table_view by reflexivity. exact H. }
  rewrite E. clear E.
  rewrite <- (after_association_files_table_view TGWRouteTable.propagations inp)
    by reflexivity.
  unfold after_propagation_files.
  apply (files_fold_appends TGWRouteTable.propagations load_propagation_file).
  intros d f k'.
  apply (file_step_appends TGWRouteTable.propagations load_propagation
           (linked_id "enabled") d f k').
  intros rt_id s e k''. apply load_propagation_appends.
Qed.

Lemma loaded_routes (inp : RawInput.t) (k : string) :
  dict_get (table_view TGWRouteTable.routes (load inp)) k
  = option_map
      (fun l => (l ++ map make_tgw_route (file_entries (RawInput.route_files inp) k))%list)
      (dict_get (table_view TGWRouteTable.routes (after_route_tables inp)) k).
Proof.
  unfold table_view at 1. rewrite load_tables_after_route_details.
  change (dict_view TGWRouteTable.routes
            (NetworkData.tgw_route_tables (after_route_details inp)))
    with (table_view TGWRouteTable.routes (after_route_details inp)).
  rewrite after_route_details_eq.
  rewrite <- (after_association_files_table_view TGWRouteTable.routes inp) by reflexivity.
  rewrite <- (after_propagation_files_table_view TGWRouteTable.routes inp) by reflexivity.
  rewrite <- flat_map_singleton.
  apply (files_fold_appends TGWRouteTable.routes load_route_file
           (fun route => [make_tgw_route route])).
  intros d f k'.
  apply (file_step_appends TGWRouteTable.routes
           (fun rt_id d route =>
              NetworkData.set_tgw_route_tables
                (dict_update (NetworkData.tgw_route_tables d) rt_id
                             (TGWRouteTable.add_route (make_tgw_route route))) d)
           (fun route => [make_tgw_route route]) d f k').
  intros rt_id s e k''. unfold table_view. simpl. apply view_update_app. reflexivity.
Qed.

(** A TGW route table of the loaded catalog holds what the per-table files
    of its id say, in file order: as associations the attachment ids of
    the entries in state [associated], as propagations those of the entries
    in state [enabled], as routes the routes of its route files; entries in
    any other state or without attachment id are dropped.  The tables of
    the catalog are those of the table list, so a per-table file whose
    table id is not in the list creates no table and loads nothing. *)
Theorem loaded_tgw_route_table_contents (inp : RawInput.t) (k : string) :
  match dict_get (NetworkData.tgw_route_tables (load inp)) k with
  | Some rt =>
      TGWRouteTable.id rt = k
      /\ (exists raw, In raw (RawInput.TransitGatewayRouteTables inp)
                      /\ RawTGWRouteTable.TransitGatewayRouteTableId raw = k)
      /\ TGWRouteTable.associations rt
         = flat_map (linked_id "associated")
                    (file_entries (RawInput.association_files inp) k)
      /\ TGWRouteTable.propagations rt
         = flat_map (linked_id "enabled")
                    (file_entries (RawInput.propagation_files inp) k)
      /\ TGWRouteTable.routes rt
         = map make_tgw_route (file_entries (RawInput.route_files inp) k)
  | None =>
      forall raw, In raw (RawInput.TransitGatewayRouteTables inp) ->
                  RawTGWRouteTable.TransitGatewayRouteTableId raw <> k
  end.
Proof.
  pose proof (after_route_tables_keys inp k) as K. rewrite <- load_table_keys in K.
  rewrite In_dict_keys_get in K.
  pose proof (loaded_associations inp k) as A.
  pose proof (loaded_propagations inp k) as P.
  pose proof (loaded_routes inp k) as R.
  unfold table_view in A, P, R.
  rewrite !dict_get_view in A. rewrite !dict_get_view in P. rewrite !dict_get_view in R.
  destruct (dict_get (NetworkData.tgw_route_tables (load inp)) k) as [rt|] eqn:E.
  - split; [exact (load_table_key inp k rt E)|].
    split; [apply K; exists rt; reflexivity|].
    destruct (dict_get (NetworkData.tgw_route_tables (after_route_tables inp)) k)
      as [rt0|] eqn:E0; [|discriminate].
    apply dict_get_In in E0.
    pose proof (after_route_tables_empty_lists inp) as F. rewrite Forall_forall in F.
    destruct (F _ E0) as [F1 [F2 F3]]. cbn [snd] in F1, F2, F3.
    cbn [option_map] in A, P, R. rewrite F1 in A. rewrite F2 in P. rewrite F3 in R.
    injection A as A. injection P as P. injection R as R. auto.
  - intros raw Hr Hk. destruct (proj2 K (ex_intro _ raw (conj Hr Hk))) as [v Hv].
    discriminate.
Qed.

Lemma fold_dict_set_keys_NoDup {X V : Type} (key : X -> string) (mk : X -> V)
  (xs : list X) (acc : dict V) :
  NoDup (dict_keys acc) ->
  NoDup (dict_keys (fold_left (fun acc x => dict_set acc (key x) (mk x)) xs acc)).
Proof.
  revert acc. induction xs as [|x r IH]; intros acc H; simpl; [exact H|].
  apply IH. apply NoDup_dict_keys_set. exact H.
Qed.

Lemma load_table_keys_NoDup (inp : RawInput.t) :
  NoDup (dict_keys (NetworkData.tgw_route_tables (load inp))).
Proof.
  rewrite load_table_keys. unfold after_route_tables, _load_tgw_route_tables. simpl.
  apply fold_dict_set_keys_NoDup. constructor.
Qed.

Lemma check_blackholes_length (d : NetworkData.t) :
  length (_check_blackholes d)
  = list_sum (map (fun rt => length (filter TGWRoute.is_blackhole (TGWRouteTable.routes rt)))
                  (dict_values (NetworkData.tgw_route_tables d))).
Proof.
  unfold _check_blackholes. rewrite length_flat_map_sum. f_equal.
  apply map_ext. intros rt.
  induction (TGWRouteTable.routes rt) as [|r rs IH]; simpl; [reflexivity|].
  destruct (TGWRoute.is_blackhole r); simpl; rewrite IH; reflexivity.
Qed.

Lemma filter_map_comm {A B : Type} (f : A -> B) (p : B -> bool) (l : list A) :
  filter p (map f l) = map f (filter (fun x => p (f x)) l).
Proof.
  induction l as [|x r IH]; simpl; [reflexivity|].
  destruct (p (f x)); simpl; rewrite IH; reflexivity.
Qed.

(** From the export to the findings: the loaded catalog gets one
    [blackhole] warning per route entry whose [State] is exactly
    [blackhole] in a route file of a table of the table list, and none for
    any other entry; entries of route files that name no listed table are
    not counted.  The table ids counted over are pairwise distinct. *)
Theorem loaded_blackholes_counted (inp : RawInput.t) :
  let is_blackhole_entry := fun r => opt_eqb (RawTGWRoute.State r) "blackhole" in
  let tables := dict_keys (NetworkData.tgw_route_tables (load inp)) in
  length (_check_blackholes (load inp))
  = list_sum
      (map (fun k => length (filter is_blackhole_entry
                                    (file_entries (RawInput.route_files inp) k)))
           tables)
  /\ NoDup tables
  /\ (forall k, In k tables <->
                exists raw, In raw (RawInput.TransitGatewayRouteTables inp)
                            /\ RawTGWRouteTable.TransitGatewayRouteTableId raw = k)
  /\ ((forall f r, In f (RawInput.route_files inp) -> In r (snd f) ->
                   RawTGWRoute.State r <> Some "blackhole") ->
      _check_blackholes (load inp) = []).
Proof.
  cbv zeta.
  assert (L : length (_check_blackholes (load inp))
              = list_sum
                  (map (fun k =>
                          length (filter (fun r => opt_eqb (RawTGWRoute.State r) "blackhole")
                                         (file_entries (RawInput.route_files inp) k)))
                       (dict_keys (NetworkData.tgw_route_tables (load inp))))).
  { rewrite check_blackholes_length. unfold dict_values, dict_keys. rewrite !map_map.
    f_equal. apply map_ext_in. intros [k rt] Hin. cbn [fst snd].
    apply In_dict_get in Hin; [|apply load_table_keys_NoDup].
    pose proof (loaded_routes inp k) as R. unfold table_view in R.
    rewrite !dict_get_view in R. rewrite Hin in R.
    destruct (dict_get (NetworkData.tgw_route_tables (after_route_tables inp)) k)
      as [rt0|] eqn:E0; [|discriminate].
    apply dict_get_In in E0.
    pose proof (after_route_tables_empty_lists inp) as F. rewrite Forall_forall in F.
    destruct (F _ E0) as [_ [_ F3]]. cbn [snd] in F3.
    cbn [option_map] in R. rewrite F3 in R. injection R as R. cbn [app] in R.
    rewrite R, filter_map_comm, length_map. f_equal.
    apply filter_ext. intros r. unfold TGWRoute.is_blackhole, make_tgw_route.
    cbn [TGWRoute.state].
    destruct (opt_eqb (RawTGWRoute.State r) "blackhole"); reflexivity. }
  split; [exact L|]. split; [apply load_table_keys_NoDup|]. split.
  - intros k. rewrite load_table_keys. apply after_route_tables_keys.
  - intros H.
    destruct (_check_blackholes (load inp)) as [|i others] eqn:E; [reflexivity|].
    exfalso. cbn [length] in L. revert L.
    generalize (dict_keys (NetworkData.tgw_route_tables (load inp))) as ks.
    assert (Z : forall k,
               length (filter (fun r => opt_eqb (RawTGWRoute.State r) "blackhole")
                              (file_entries (RawInput.route_files inp) k)) = 0).
    { intros k. apply filter_none_iff. intros r Hr.
      unfold file_entries in Hr. apply in_flat_map in Hr. destruct Hr as [f [Hf Hr]].
      destruct (fst f =? k); [|destruct Hr].
      specialize (H f r Hf Hr).
      destruct (opt_eqb (RawTGWRoute.State r) "blackhole") eqn:O; [|reflexivity].
      apply opt_eqb_true_iff in O. contradiction. }
    intros ks. induction ks as [|k ks IH]; unfold list_sum; cbn [map fold_right];
      intros L; [discriminate L|].
    rewrite Z in L. exact (IH L).
Qed.

(** ** Ids are unique in the loaded catalog *)

Lemma load_tgw_route_details_tgws (inp : RawInput.t) (d : NetworkData.t) :
  NetworkData.tgws (_load_tgw_route_details inp d) = NetworkData.tgws d.
Proof.
  unfold _load_tgw_route_details.
  set (Q := fun s => NetworkData.tgws s = NetworkData.tgws d).
  apply (fold_left_invariant _ Q).
  { intros s x H. unfold load_route_file.
    destruct (dict_mem (NetworkData.tgw_route_tables s) (fst x)); [|exact H].
    apply (fold_left_invariant _ Q); [|exact H]. intros s' y H'. exact H'. }
  apply (fold_left_invariant _ Q).
  { intros s x H. unfold load_propagation_file.
    destruct (dict_mem (NetworkData.tgw_route_tables s) (fst x)); [|exact H].
    apply (fold_left_invariant _ Q); [|exact H].
    intros s' y H'. unfold Q, load_propagation.
    destruct (opt_eqb (RawAssociation.State y) "enabled"); [|exact H'].
    destruct (RawAssociation.TransitGatewayAttachmentId y) as [a|]; [|exact H'].
    destruct (truthy a); exact H'. }
  apply (fold_left_invariant _ Q); [|reflexivity].
  intros s x H. unfold load_association_file.
  destruct (dict_mem (NetworkData.tgw_route_tables s) (fst x)); [|exact H].
  apply (fold_left_invariant _ Q); [|exact H].
  intros s' y H'. unfold Q, load_association.
  destruct (opt_eqb (RawAssociation.State y) "associated"); [|exact H'].
  destruct (RawAssociation.TransitGatewayAttachmentId y) as [a|]; [|exact H'].
  destruct (truthy a); exact H'.
Qed.

Lemma load_vpc_route_tables_tgws (inp : RawInput.t) (d : NetworkData.t) :
  NetworkData.tgws (_load_vpc_route_tables inp d) = NetworkData.tgws d.
Proof.
  unfold _load_vpc_route_tables.
  apply (fold_left_invariant _ (fun s => NetworkData.tgws s = NetworkData.tgws d));
    [|reflexivity].
  intros s rt H. rewrite <- H. unfold load_vpc_route_table.
  match goal with
  | |- context [fold_left ?f ?l ?s0] =>
      pose proof (fold_left_invariant f
                    (fun st => NetworkData.tgws (fst st) = NetworkData.tgws s)) as G;
      specialize (G (fun st x Hst =>
                       eq_trans
                         (ltac:(destruct st as [d0 t0]; unfold load_rt_association;
                                destruct (get_default (RawRTAssociation.Main x) false);
                                destruct (RawRTAssociation.SubnetId x) as [sid|];
                                try destruct (truthy sid); reflexivity)
                          : NetworkData.tgws (fst (load_rt_association rt st x))
                            = NetworkData.tgws (fst st))
                         Hst) l s0 eq_refl);
      destruct (fold_left f l s0) as [d' vpc_rt']
  end.
  exact G.
Qed.

Lemma load_tgws_unchanged (inp : RawInput.t) :
  NetworkData.tgws (load inp)
  = NetworkData.tgws (_load_tgws inp (_load_metadata inp NetworkData.empty)).
Proof.
  rewrite load_before_classification.
  change (NetworkData.tgws (_classify_subnets (before_classification inp)))
    with (NetworkData.tgws (before_classification inp)).
  unfold before_classification.
  change (NetworkData.tgws (_extract_cross_account_cidrs ?d)) with (NetworkData.tgws d).
  match goal with
  | |- NetworkData.tgws (_correlate_data ?d) = _ =>
      assert (E : NetworkData.tgws (_correlate_data d) = NetworkData.tgws d)
  end.
  { unfold _correlate_data.
    match goal with
    | |- context [correlate_attachments ?a ?v] => destruct (correlate_attachments a v)
    end.
    reflexivity. }
  rewrite E, load_vpc_route_tables_tgws.
  change (NetworkData.tgws (_load_subnets inp ?d)) with (NetworkData.tgws d).
  change (NetworkData.tgws (_load_vpcs inp ?d)) with (NetworkData.tgws d).
  rewrite load_tgw_route_details_tgws. reflexivity.
Qed.

Lemma fold_dict_set_entries {X V : Type} (P : string * V -> Prop) (key : X -> string)
  (mk : X -> V) (xs : list X) (acc : dict V) :
  (forall x, P (key x, mk x)) -> Forall P acc ->
  Forall P (fold_left (fun acc x => dict_set acc (key x) (mk x)) xs acc).
Proof.
  intros Hx. revert acc. induction xs as [|x r IH]; intros acc H; simpl; [exact H|].
  apply IH. apply Forall_entries_dict_set; [apply Hx | exact H].
Qed.

Lemma ids_are_keys {V : Type} (id : V -> string) (d : dict V) :
  Forall (fun kv => id (snd kv) = fst kv) d -> map id (dict_values d) = dict_keys d.
Proof.
  unfold dict_values, dict_keys. rewrite map_map. intros H.
  apply map_ext_in. intros kv Hin. rewrite Forall_forall in H. exact (H kv Hin).
Qed.

Lemma entries_by_get {V : Type} (P : string -> V -> Prop) (d : dict V) :
  NoDup (dict_keys d) ->
  (forall k v, dict_get d k = Some v -> P k v) ->
  Forall (fun kv => P (fst kv) (snd kv)) d.
Proof.
  intros ND H. apply Forall_forall. intros [k v] Hin. apply H.
  apply In_dict_get; assumption.
Qed.

Lemma loaded_tgw_ids_NoDup (inp : RawInput.t) :
  NoDup (map TransitGateway.id (dict_values (NetworkData.tgws (load inp)))).
Proof.
  rewrite load_tgws_unchanged. unfold _load_tgws. simpl.
  rewrite ids_are_keys.
  - apply fold_dict_set_keys_NoDup. constructor.
  - apply (fold_dict_set_entries (fun kv => TransitGateway.id (snd kv) = fst kv));
      [reflexivity | constructor].
Qed.

Lemma loaded_attachment_ids_NoDup (inp : RawInput.t) :
  NoDup (map TGWAttachment.id (dict_values (NetworkData.tgw_attachments (load inp)))).
Proof.
  assert (K : NoDup (dict_keys (NetworkData.tgw_attachments (load inp)))).
  { rewrite <- (dict_view_keys TGWAttachment.id).
    change (dict_view TGWAttachment.id (NetworkData.tgw_attachments (load inp)))
      with (attachment_view TGWAttachment.id (load inp)).
    rewrite load_view_after_route_tables by reflexivity.
    unfold attachment_view. rewrite dict_view_keys.
    unfold after_route_tables, after_attachments, _load_tgw_attachments. simpl.
    apply fold_dict_set_keys_NoDup. constructor. }
  rewrite ids_are_keys; [exact K|].
  apply (entries_by_get (fun k a => TGWAttachment.id a = k)); [exact K|].
  apply load_attachment_key.
Qed.

Lemma loaded_table_ids_NoDup (inp : RawInput.t) :
  NoDup (map TGWRouteTable.id (dict_values (NetworkData.tgw_route_tables (load inp)))).
Proof.
  rewrite ids_are_keys; [apply load_table_keys_NoDup|].
  apply (entries_by_get (fun k rt => TGWRouteTable.id rt = k));
    [apply load_table_keys_NoDup | apply load_table_key].
Qed.

Section VPCProjection.
Context {B : Type} (pr : VPC.t -> B).

Definition vpc_view (d : NetworkData.t) : dict B := dict_view pr (NetworkData.vpcs d).

Hypothesis pr_main : forall v vpc, pr (VPC.set_main_route_table_id v vpc) = pr vpc.
Hypothesis pr_attachment : forall v vpc, pr (VPC.set_tgw_attachment_id v vpc) = pr vpc.

Lemma load_rt_association_vpc_view (rt : RawVPCRouteTable.t)
  (st : NetworkData.t * VPCRouteTable.t) (assoc : RawRTAssociation.t) :
  vpc_view (fst (load_rt_association rt st assoc)) = vpc_view (fst st).
Proof.
  destruct st as [d vpc_rt]. unfold load_rt_association, vpc_view.
  destruct (get_default (RawRTAssociation.Main assoc) false);
    destruct (RawRTAssociation.SubnetId assoc) as [sid|];
    try destruct (truthy sid); cbn [fst NetworkData.vpcs NetworkData.set_vpcs
                                    NetworkData.set_subnets];
    try reflexivity; apply dict_view_update; apply pr_main.
Qed.

Lemma load_vpc_route_table_vpc_view (d : NetworkData.t) (rt : RawVPCRouteTable.t) :
  vpc_view (load_vpc_route_table d rt) = vpc_view d.
Proof.
  unfold load_vpc_route_table.
  match goal with
  | |- context [fold_left ?f ?l ?s0] =>
      pose proof (fold_left_invariant f (fun st => vpc_view (fst st) = vpc_view d)
                    (fun st x H => eq_trans (load_rt_association_vpc_view rt st x) H)
                    l s0 eq_refl) as H;
      destruct (fold_left f l s0) as [d' vpc_rt']
  end.
  simpl in H. rewrite <- H. reflexivity.
Qed.

Lemma load_vpc_route_tables_vpc_view (inp : RawInput.t) (d : NetworkData.t) :
  vpc_view (_load_vpc_route_tables inp d) = vpc_view d.
Proof.
  unfold _load_vpc_route_tables.
  apply (fold_left_invariant load_vpc_route_table (fun s => vpc_view s = vpc_view d));
    [|reflexivity].
  intros s x H. rewrite load_vpc_route_table_vpc_view. exact H.
Qed.

Lemma correlate_attachments_vpc_view (atts : dict TGWAttachment.t) (vpcs : dict VPC.t) :
  dict_view pr (snd (correlate_attachments atts vpcs)) = dict_view pr vpcs.
Proof.
  revert vpcs. induction atts as [|[k att] rest IH]; intros vpcs; [reflexivity|].
  cbn [correlate_attachments].
  assert (E : dict_view pr (snd (correlate_attachment att vpcs)) = dict_view pr vpcs).
  { unfold correlate_attachment.
    destruct (AttachmentType.eqb (TGWAttachment.type att) AttachmentType.VPC);
      [|reflexivity].
    destruct (dict_get vpcs (TGWAttachment.resource_id att)); [|reflexivity].
    cbn [snd]. apply dict_view_update. apply pr_attachment. }
  destruct (correlate_attachment att vpcs) as [att' vpcs'].
  specialize (IH vpcs').
  destruct (correlate_attachments rest vpcs') as [rest' vpcs''].
  cbn [snd] in *. rewrite IH. exact E.
Qed.

Lemma correlate_data_vpc_view (d : NetworkData.t) :
  vpc_view (_correlate_data d) = vpc_view d.
Proof.
  unfold _correlate_data, vpc_view.
  pose proof (correlate_attachments_vpc_view (NetworkData.tgw_attachments d)
                (NetworkData.vpcs d)) as H.
  destruct (correlate_attachments (NetworkData.tgw_attachments d) (NetworkData.vpcs d))
    as [atts vpcs].
  exact H.
Qed.

Lemma load_vpc_view (inp : RawInput.t) :
  vpc_view (load inp) = vpc_view (after_vpcs inp).
Proof.
  rewrite load_before_classification.
  change (vpc_view (_classify_subnets (before_classification inp)))
    with (vpc_view (before_classification inp)).
  unfold before_classification.
  change (vpc_view (_extract_cross_account_cidrs ?d)) with (vpc_view d).
  rewrite correlate_data_vpc_view, load_vpc_route_tables_vpc_view.
  reflexivity.
Qed.

End VPCProjection.

Lemma load_tgw_route_details_vpcs (inp : RawInput.t) (d : NetworkData.t) :
  NetworkData.vpcs (_load_tgw_route_details inp d) = NetworkData.vpcs d.
Proof.
  unfold _load_tgw_route_details.
  set (Q := fun s => NetworkData.vpcs s = NetworkData.vpcs d).
  apply (fold_left_invariant _ Q).
  { intros s x H. unfold load_route_file.
    destruct (dict_mem (NetworkData.tgw_route_tables s) (fst x)); [|exact H].
    apply (fold_left_invariant _ Q); [|exact H]. intros s' y H'. exact H'. }
  apply (fold_left_invariant _ Q).
  { intros s x H. unfold load_propagation_file.
    destruct (dict_mem (NetworkData.tgw_route_tables s) (fst x)); [|exact H].
    apply (fold_left_invariant _ Q); [|exact H].
    intros s' y H'. unfold Q, load_propagation.
    destruct (opt_eqb (RawAssociation.State y) "enabled"); [|exact H'].
    destruct (RawAssociation.TransitGatewayAttachmentId y) as [a|]; [|exact H'].
    destruct (truthy a); exact H'. }
  apply (fold_left_invariant _ Q); [|reflexivity].
  intros s x H. unfold load_association_file.
  destruct (dict_mem (NetworkData.tgw_route_tables s) (fst x)); [|exact H].
  apply (fold_left_invariant _ Q); [|exact H].
  intros s' y H'. unfold Q, load_association.
  destruct (opt_eqb (RawAssociation.State y) "associated"); [|exact H'].
  destruct (RawAssociation.TransitGatewayAttachmentId y) as [a|]; [|exact H'].
  destruct (truthy a); exact H'.
Qed.

Lemma after_vpcs_vpcs (inp : RawInput.t) :
  NetworkData.vpcs (after_vpcs inp)
  = fold_left (fun acc vpc => dict_set acc (RawVPC.VpcId vpc) (make_vpc vpc))
              (RawInput.Vpcs inp) [].
Proof.
  unfold after_vpcs, _load_vpcs, after_route_details.
  cbn [NetworkData.vpcs NetworkData.set_vpcs].
  rewrite load_tgw_route_details_vpcs. reflexivity.
Qed.

Lemma fold_dict_set_from {X V : Type} (key : X -> string) (mk : X -> V)
  (xs : list X) (acc : dict V) :
  Forall (fun kv => exists x, In x xs /\ key x = fst kv /\ mk x = snd kv) acc ->
  Forall (fun kv => exists x, In x xs /\ key x = fst kv /\ mk x = snd kv)
         (fold_left (fun acc x => dict_set acc (key x) (mk x)) xs acc).
Proof.
  assert (G : forall done rest acc,
             Forall (fun kv => exists x, In x (done ++ rest)%list
                                         /\ key x = fst kv /\ mk x = snd kv) acc ->
             Forall (fun kv => exists x, In x (done ++ rest)%list
                                         /\ key x = fst kv /\ mk x = snd kv)
                    (fold_left (fun acc x => dict_set acc (key x) (mk x)) rest acc)).
  { intros done rest. revert done. induction rest as [|x r IH]; intros done a H;
      simpl; [exact H|].
    replace (done ++ x :: r)%list with ((done ++ [x]) ++ r)%list in *
      by (rewrite <- app_assoc; reflexivity).
    apply IH. apply Forall_entries_dict_set; [|exact H].
    exists x. split; [|split; reflexivity].
    rewrite !in_app_iff. left. right. left. reflexivity. }
  exact (G [] xs acc).
Qed.

Lemma loaded_vpc_entries (inp : RawInput.t) :
  NoDup (dict_keys (NetworkData.vpcs (load inp)))
  /\ Forall (fun kv => exists raw, In raw (RawInput.Vpcs inp)
                                   /\ RawVPC.VpcId raw = fst kv
                                   /\ vpc_identity (make_vpc raw) = vpc_identity (snd kv))
            (NetworkData.vpcs (load inp)).
Proof.
  pose proof (load_vpc_view vpc_identity (fun _ _ => eq_refl) (fun _ _ => eq_refl) inp) as V.
  unfold vpc_view in V. rewrite after_vpcs_vpcs in V.
  split.
  - rewrite <- (dict_view_keys vpc_identity), V, dict_view_keys.
    apply fold_dict_set_keys_NoDup. constructor.
  - pose proof (fold_dict_set_from RawVPC.VpcId make_vpc (RawInput.Vpcs inp) []
                  (Forall_nil _)) as F.
    revert V F. generalize (fold_left (fun acc vpc => dict_set acc (RawVPC.VpcId vpc) (make_vpc vpc))
                              (RawInput.Vpcs inp) []) as l.
    generalize (NetworkData.vpcs (load inp)) as m.
    induction m as [|[k v] m IH]; intros l V F; [constructor|].
    destruct l as [|[k' v'] l]; [discriminate|].
    inversion F as [|? ? [raw [Hin [Hk Hv]]] F']; subst.
    unfold dict_view in V. cbn [map fst snd] in V.
    assert (Ek : k = k') by congruence.
    assert (Ev : vpc_identity v = vpc_identity v') by congruence.
    assert (Er : dict_view vpc_identity m = dict_view vpc_identity l)
      by (unfold dict_view; congruence).
    constructor.
    + exists raw. cbn [fst snd] in *. split; [exact Hin|]. split.
      * congruence.
      * rewrite Hv. symmetry. exact Ev.
    + apply (IH l); assumption.
Qed.

Lemma vpc_cidrs_NoDup (raw : RawVPC.t) : NoDup (vpc_cidrs raw).
Proof.
  destruct (vpc_cidrs_invariant (get_default (RawVPC.CidrBlock raw) "")
              (RawVPC.CidrBlockAssociationSet raw) []
              [get_default (RawVPC.CidrBlock raw) ""]) as [ND _].
  - constructor; [intros [] | constructor].
  - reflexivity.
  - intros c. simpl. intuition.
  - exact ND.
Qed.

Lemma loaded_vpc_ids_NoDup (inp : RawInput.t) :
  NoDup (map VPC.id (dict_values (NetworkData.vpcs (load inp)))).
Proof.
  destruct (loaded_vpc_entries inp) as [K F].
  rewrite ids_are_keys; [exact K|].
  revert F. apply Forall_impl. intros [k v] [raw [_ [Hk Hv]]].
  cbn [fst snd] in *. unfold vpc_identity in Hv.
  assert (E : VPC.id (make_vpc raw) = VPC.id v) by congruence.
  rewrite <- E, <- Hk. reflexivity.
Qed.

Lemma loaded_vpc_cidrs_NoDup (inp : RawInput.t) (v : VPC.t) :
  In v (dict_values (NetworkData.vpcs (load inp))) -> NoDup (VPC.cidrs v).
Proof.
  destruct (loaded_vpc_entries inp) as [_ F]. rewrite Forall_forall in F.
  unfold dict_values. rewrite in_map_iff. intros [[k v'] [E Hin]].
  cbn [snd] in E. subst v'.
  destruct (F _ Hin) as [raw [_ [_ Hv]]]. cbn [snd] in Hv. unfold vpc_identity in Hv.
  assert (E : VPC.cidrs (make_vpc raw) = VPC.cidrs v) by congruence.
  rewrite <- E. apply vpc_cidrs_NoDup.
Qed.

(** Whatever the export holds (repeated ids included, the last record
    of an id replacing the earlier ones), the loaded catalog lists no
    transit gateway, attachment, TGW route table or VPC id twice, and no VPC
    of it has a CIDR twice.  So on a loaded catalog, with any parser, the
    asymmetric-routing check flags no ordered pair twice and the overlap
    check flags no quadruple twice, no VPC against itself and no two VPCs
    in both orders. *)
Theorem loaded_catalog_ids_unique (inp : RawInput.t) :
  let d := load inp in
  NoDup (map TransitGateway.id (dict_values (NetworkData.tgws d)))
  /\ NoDup (map TGWAttachment.id (dict_values (NetworkData.tgw_attachments d)))
  /\ NoDup (map TGWRouteTable.id (dict_values (NetworkData.tgw_route_tables d)))
  /\ NoDup (map VPC.id (dict_values (NetworkData.vpcs d)))
  /\ (forall vpc, In vpc (dict_values (NetworkData.vpcs d)) -> NoDup (VPC.cidrs vpc))
  /\ forall ip_network : string -> option IPNetwork.t,
       NoDup (asymmetric_pairs ip_network d)
       /\ NoDup (overlap_hits ip_network d)
       /\ forall vpc1 cidr1 vpc2 cidr2,
            In (vpc1, cidr1, vpc2, cidr2) (overlap_hits ip_network d) ->
            VPC.id vpc1 <> VPC.id vpc2
            /\ forall cidr1' cidr2',
                 ~ In (vpc2, cidr2', vpc1, cidr1') (overlap_hits ip_network d).
Proof.
  cbv zeta.
  pose proof (loaded_tgw_ids_NoDup inp) as Ht.
  pose proof (loaded_attachment_ids_NoDup inp) as Ha.
  pose proof (loaded_table_ids_NoDup inp) as Hr.
  pose proof (loaded_vpc_ids_NoDup inp) as Hv.
  pose proof (loaded_vpc_cidrs_NoDup inp) as Hc.
  repeat (split; [assumption|]).
  intros ip.
  assert (ND : NoDup (dict_values (NetworkData.vpcs (load inp))))
    by exact (NoDup_map_inv _ _ Hv).
  split; [apply asymmetric_pairs_NoDup; assumption|].
  split; [apply overlap_loop_NoDup; assumption|].
  intros v1 c1 v2 c2 H.
  apply overlap_hits_In in H. destruct H as [Bf _]. split.
  - intros E. apply (before_map VPC.id) in Bf. rewrite E in Bf.
    exact (before_irrefl _ _ Hv Bf).
  - intros c1' c2' H'.
    apply overlap_hits_In in H'. destruct H' as [Bf' _].
    exact (before_asym _ _ _ ND Bf Bf').
Qed.

Lemma find_last {X : Type} (p : X -> bool) (r : list X) (x : X) :
  find p (r ++ [x]) = match find p r with
                      | Some y => Some y
                      | None => if p x then Some x else None
                      end.
Proof.
  induction r as [|y r IH]; simpl; [reflexivity|].
  destruct (p y); [reflexivity | exact IH].
Qed.

Lemma dict_get_fold_set {X V : Type} (key : X -> string) (mk : X -> V)
  (xs : list X) (acc : dict V) (k : string) :
  dict_get (fold_left (fun acc x => dict_set acc (key x) (mk x)) xs acc) k
  = match find (fun x => key x =? k) (rev xs) with
    | Some x => Some (mk x)
    | None => dict_get acc k
    end.
Proof.
  revert acc. induction xs as [|x r IH]; intros acc; [reflexivity|].
  cbn [fold_left rev]. rewrite IH, find_last, dict_get_set.
  destruct (find (fun x0 => key x0 =? k) (rev r)); [reflexivity|].
  destruct (key x =? k); reflexivity.
Qed.

(** When the export lists a VPC id more than once the last record
    wins and replaces the earlier ones as a whole: looking an id up in the
    loaded catalog gives the VPC built from the last record of the export
    with this id (id, name, CIDR list, owner and default flag, which no
    later phase writes), and nothing when no record has the id.  In
    particular every VPC stands under its own id. *)
Theorem loaded_vpcs_last_record_wins (inp : RawInput.t) (k : string) :
  option_map vpc_identity (dict_get (NetworkData.vpcs (load inp)) k)
  = option_map (fun raw => vpc_identity (make_vpc raw))
               (find (fun raw => RawVPC.VpcId raw =? k) (rev (RawInput.Vpcs inp)))
  /\ forall vpc, dict_get (NetworkData.vpcs (load inp)) k = Some vpc -> VPC.id vpc = k.
Proof.
  assert (E : option_map vpc_identity (dict_get (NetworkData.vpcs (load inp)) k)
              = option_map (fun raw => vpc_identity (make_vpc raw))
                  (find (fun raw => RawVPC.VpcId raw =? k) (rev (RawInput.Vpcs inp)))).
  { rewrite <- dict_get_view.
    change (dict_view vpc_identity (NetworkData.vpcs (load inp)))
      with (vpc_view vpc_identity (load inp)).
    rewrite (load_vpc_view vpc_identity (fun _ _ => eq_refl) (fun _ _ => eq_refl)).
    unfold vpc_view. rewrite dict_get_view, after_vpcs_vpcs, dict_get_fold_set.
    destruct (find (fun raw => RawVPC.VpcId raw =? k) (rev (RawInput.Vpcs inp)));
      reflexivity. }
  split; [exact E|].
  intros vpc H. rewrite H in E. cbn [option_map] in E.
  destruct (find (fun raw => RawVPC.VpcId raw =? k) (rev (RawInput.Vpcs inp)))
    as [raw|] eqn:F; [|discriminate].
  apply find_some in F. destruct F as [_ F]. apply String.eqb_eq in F.
  cbn [option_map] in E. unfold vpc_identity in E.
  assert (I : VPC.id vpc = VPC.id (make_vpc raw)) by congruence.
  rewrite I. exact F.
Qed.

(** ** Correlation of attachments and VPCs *)

Lemma correlate_attachment_fst (att : TGWAttachment.t) (vpcs : dict VPC.t) :
  fst (correlate_attachment att vpcs)
  = match option_map vpc_label (vpc_of_attachment vpcs att) with
    | Some (n, c) => TGWAttachment.set_name n (TGWAttachment.set_cidrs c att)
    | None => att
    end.
Proof.
  unfold correlate_attachment, vpc_of_attachment.
  destruct (AttachmentType.eqb (TGWAttachment.type att) AttachmentType.VPC);
    [|reflexivity].
  destruct (dict_get vpcs (TGWAttachment.resource_id att)); reflexivity.
Qed.

Lemma vpc_of_attachment_label (vpcs vpcs' : dict VPC.t) (att : TGWAttachment.t) :
  dict_view vpc_label vpcs' = dict_view vpc_label vpcs ->
  option_map vpc_label (vpc_of_attachment vpcs' att)
  = option_map vpc_label (vpc_of_attachment vpcs att).
Proof.
  intros E. unfold vpc_of_attachment.
  destruct (AttachmentType.eqb (TGWAttachment.type att) AttachmentType.VPC);
    [|reflexivity].
  rewrite <- !dict_get_view, E. reflexivity.
Qed.

Lemma correlate_attachment_snd_label (att : TGWAttachment.t) (vpcs : dict VPC.t) :
  dict_view vpc_label (snd (correlate_attachment att vpcs)) = dict_view vpc_label vpcs.
Proof.
  unfold correlate_attachment.
  destruct (AttachmentType.eqb (TGWAttachment.type att) AttachmentType.VPC);
    [|reflexivity].
  destruct (dict_get vpcs (TGWAttachment.resource_id att)); [|reflexivity].
  cbn [snd]. apply dict_view_update. reflexivity.
Qed.

Lemma correlate_attachments_get (atts : dict TGWAttachment.t) (vpcs vpcs0 : dict VPC.t)
  (k : string) :
  dict_view vpc_label vpcs = dict_view vpc_label vpcs0 ->
  dict_get (fst (correlate_attachments atts vpcs)) k
  = option_map
      (fun att => match option_map vpc_label (vpc_of_attachment vpcs0 att) with
                  | Some (n, c) => TGWAttachment.set_name n (TGWAttachment.set_cidrs c att)
                  | None => att
                  end)
      (dict_get atts k).
Proof.
  revert vpcs. induction atts as [|[k' att] rest IH]; intros vpcs E; [reflexivity|].
  cbn [correlate_attachments].
  pose proof (correlate_attachment_fst att vpcs) as F.
  pose proof (correlate_attachment_snd_label att vpcs) as S.
  destruct (correlate_attachment att vpcs) as [att' vpcs'].
  cbn [fst snd] in F, S.
  assert (E' : dict_view vpc_label vpcs' = dict_view vpc_label vpcs0) by congruence.
  specialize (IH vpcs' E').
  destruct (correlate_attachments rest vpcs') as [rest' vpcs''].
  cbn [fst dict_get] in *.
  destruct (k' =? k); [|exact IH].
  cbn [option_map]. rewrite F, (vpc_of_attachment_label vpcs0 vpcs att E). reflexivity.
Qed.

Lemma correlate_attachments_keys (atts : dict TGWAttachment.t) (vpcs : dict VPC.t) :
  dict_keys (fst (correlate_attachments atts vpcs)) = dict_keys atts.
Proof.
  revert vpcs. induction atts as [|[k' att] rest IH]; intros vpcs; [reflexivity|].
  cbn [correlate_attachments].
  destruct (correlate_attachment att vpcs) as [att' vpcs'].
  specialize (IH vpcs').
  destruct (correlate_attachments rest vpcs') as [rest' vpcs''].
  cbn [fst] in *. unfold dict_keys in *. cbn [map fst]. rewrite IH. reflexivity.
Qed.

Lemma correlate_attachment_snd_get (att : TGWAttachment.t) (vpcs : dict VPC.t)
  (vpc_id : string) :
  dict_get (snd (correlate_attachment att vpcs)) vpc_id
  = option_map (fun vpc => if attachment_of_vpc vpc_id att
                           then VPC.set_tgw_attachment_id (Some (TGWAttachment.id att)) vpc
                           else vpc)
               (dict_get vpcs vpc_id).
Proof.
  unfold correlate_attachment, attachment_of_vpc.
  destruct (AttachmentType.eqb (TGWAttachment.type att) AttachmentType.VPC); cbn [andb snd].
  - destruct (dict_get vpcs (TGWAttachment.resource_id att)) as [vpc|] eqn:G; cbn [snd].
    + rewrite dict_get_update.
      destruct (TGWAttachment.resource_id att =? vpc_id); [reflexivity|].
      destruct (dict_get vpcs vpc_id); reflexivity.
    + destruct (String.eqb_spec (TGWAttachment.resource_id att) vpc_id) as [<-|N].
      * rewrite G. reflexivity.
      * destruct (dict_get vpcs vpc_id); reflexivity.
  - destruct (dict_get vpcs vpc_id); reflexivity.
Qed.

Lemma correlate_attachments_snd_get (atts : dict TGWAttachment.t) (vpcs : dict VPC.t)
  (vpc_id : string) :
  dict_get (snd (correlate_attachments atts vpcs)) vpc_id
  = option_map
      (fun vpc => match find (attachment_of_vpc vpc_id) (rev (dict_values atts)) with
                  | Some att => VPC.set_tgw_attachment_id (Some (TGWAttachment.id att)) vpc
                  | None => vpc
                  end)
      (dict_get vpcs vpc_id).
Proof.
  revert vpcs. induction atts as [|[k' att] rest IH]; intros vpcs.
  - cbn. destruct (dict_get vpcs vpc_id); reflexivity.
  - cbn [correlate_attachments].
    pose proof (correlate_attachment_snd_get att vpcs vpc_id) as S.
    destruct (correlate_attachment att vpcs) as [att' vpcs'].
    specialize (IH vpcs').
    destruct (correlate_attachments rest vpcs') as [rest' vpcs''].
    cbn [snd] in *. rewrite IH, S.
    unfold dict_values. cbn [map snd rev]. rewrite find_last.
    fold (dict_values rest).
    destruct (dict_get vpcs vpc_id) as [vpc|]; [|reflexivity]. cbn [option_map].
    destruct (find (attachment_of_vpc vpc_id) (rev (dict_values rest))) as [a|].
    + destruct (attachment_of_vpc vpc_id att); reflexivity.
    + destruct (attachment_of_vpc vpc_id att); reflexivity.
Qed.

(** Correlation links VPC attachments and VPCs and touches nothing else.
    An attachment of type VPC whose resource id names a VPC of the catalog
    receives the name and the CIDR list of that VPC; any other attachment
    (another type, or a VPC that is not in the catalog, as for a
    cross-account attachment) is left as it is.  A VPC receives as
    [tgw_attachment_id] the id of the last attachment of the catalog, in
    catalog order, that is of type VPC and names it, and keeps its value
    when no attachment does. *)
Theorem correlate_data_links (d : NetworkData.t) :
  let d' := _correlate_data d in
  NetworkData.tgws d' = NetworkData.tgws d
  /\ NetworkData.tgw_route_tables d' = NetworkData.tgw_route_tables d
  /\ NetworkData.vpc_route_tables d' = NetworkData.vpc_route_tables d
  /\ NetworkData.subnets d' = NetworkData.subnets d
  /\ NetworkData.local_account_id d' = NetworkData.local_account_id d
  /\ dict_keys (NetworkData.tgw_attachments d') = dict_keys (NetworkData.tgw_attachments d)
  /\ dict_keys (NetworkData.vpcs d') = dict_keys (NetworkData.vpcs d)
  /\ (forall k,
        dict_get (NetworkData.tgw_attachments d') k
        = option_map
            (fun att => match vpc_of_attachment (NetworkData.vpcs d) att with
                        | Some vpc =>
                            TGWAttachment.set_name (VPC.name vpc)
                              (TGWAttachment.set_cidrs (VPC.cidrs vpc) att)
                        | None => att
                        end)
            (dict_get (NetworkData.tgw_attachments d) k))
  /\ (forall vpc_id,
        dict_get (NetworkData.vpcs d') vpc_id
        = option_map
            (fun vpc =>
               match find (attachment_of_vpc vpc_id)
                          (rev (dict_values (NetworkData.tgw_attachments d))) with
               | Some att => VPC.set_tgw_attachment_id (Some (TGWAttachment.id att)) vpc
               | None => vpc
               end)
            (dict_get (NetworkData.vpcs d) vpc_id)).
Proof.
  cbv zeta. unfold _correlate_data.
  pose proof (correlate_attachments_keys (NetworkData.tgw_attachments d)
                (NetworkData.vpcs d)) as K.
  pose proof (correlate_attachments_vpc_view VPC.id (fun _ _ => eq_refl)
                (NetworkData.tgw_attachments d) (NetworkData.vpcs d)) as V.
  pose proof (fun k => correlate_attachments_get (NetworkData.tgw_attachments d)
                         (NetworkData.vpcs d) (NetworkData.vpcs d) k eq_refl) as G.
  pose proof (correlate_attachments_snd_get (NetworkData.tgw_attachments d)
                (NetworkData.vpcs d)) as S.
  destruct (correlate_attachments (NetworkData.tgw_attachments d) (NetworkData.vpcs d))
    as [atts vpcs].
  cbn [fst snd] in *.
  repeat (split; [reflexivity|]).
  split; [exact K|].
  split.
  { change (dict_keys vpcs = dict_keys (NetworkData.vpcs d)).
    rewrite <- (dict_view_keys VPC.id vpcs), V. apply dict_view_keys. }
  split; [|exact S].
  intros k.
  change (dict_get atts k
          = option_map
              (fun att => match vpc_of_attachment (NetworkData.vpcs d) att with
                          | Some vpc =>
                              TGWAttachment.set_name (VPC.name vpc)
                                (TGWAttachment.set_cidrs (VPC.cidrs vpc) att)
                          | None => att
                          end)
              (dict_get (NetworkData.tgw_attachments d) k)).
  rewrite G.
  destruct (dict_get (NetworkData.tgw_attachments d) k) as [att|]; [|reflexivity].
  cbn [option_map].
  destruct (vpc_of_attachment (NetworkData.vpcs d) att); reflexivity.
Qed.

(** ** The CIDRs of a loaded attachment *)

Lemma load_from_correlation (inp : RawInput.t) :
  load inp
  = _classify_subnets
      (_extract_cross_account_cidrs (_correlate_data (before_correlation inp))).
Proof. rewrite load_before_classification. reflexivity. Qed.

Lemma before_correlation_attachments (inp : RawInput.t) :
  NetworkData.tgw_attachments (before_correlation inp)
  = NetworkData.tgw_attachments (after_route_details inp).
Proof.
  unfold before_correlation.
  pose proof (load_vpc_route_tables_tgw_side inp (_load_subnets inp (after_vpcs inp))) as H.
  apply (f_equal (fun x => fst (fst x))) in H. exact H.
Qed.

Lemma before_correlation_no_cidrs (inp : RawInput.t) (k : string) (a : TGWAttachment.t) :
  dict_get (NetworkData.tgw_attachments (before_correlation inp)) k = Some a ->
  TGWAttachment.cidrs a = [].
Proof.
  intros H. rewrite before_correlation_attachments in H.
  assert (E : dict_get (attachment_view TGWAttachment.cidrs (after_route_details inp)) k
              = Some (TGWAttachment.cidrs a)).
  { unfold attachment_view. rewrite dict_get_view, H. reflexivity. }
  unfold after_route_details in E.
  rewrite load_tgw_route_details_view in E by reflexivity.
  unfold attachment_view in E. rewrite dict_get_view in E.
  change (NetworkData.tgw_attachments (after_route_tables inp))
    with (NetworkData.tgw_attachments (after_attachments inp)) in E.
  destruct (dict_get (NetworkData.tgw_attachments (after_attachments inp)) k)
    as [a0|] eqn:E0; [|discriminate].
  cbn [option_map] in E. injection E as <-.
  apply dict_get_In in E0.
  assert (F : Forall (fun kv => TGWAttachment.cidrs (snd kv) = [])
                     (NetworkData.tgw_attachments (after_attachments inp))).
  { unfold after_attachments, _load_tgw_attachments.
    cbn [NetworkData.tgw_attachments NetworkData.set_tgw_attachments].
    apply (fold_dict_set_entries (fun kv => TGWAttachment.cidrs (snd kv) = []));
      [reflexivity|].
    constructor. }
  rewrite Forall_forall in F. exact (F _ E0).
Qed.

Lemma before_correlation_vpc_labels (inp : RawInput.t) :
  dict_view vpc_label (NetworkData.vpcs (load inp))
  = dict_view vpc_label (NetworkData.vpcs (before_correlation inp)).
Proof.
  change (vpc_view vpc_label (load inp) = vpc_view vpc_label (before_correlation inp)).
  rewrite (load_vpc_view vpc_label (fun _ _ => eq_refl) (fun _ _ => eq_refl)).
  unfold before_correlation.
  rewrite (load_vpc_route_tables_vpc_view vpc_label (fun _ _ => eq_refl)).
  reflexivity.
Qed.

Lemma vpc_cidrs_nonempty (raw : RawVPC.t) : vpc_cidrs raw <> [].
Proof.
  destruct (vpc_cidrs_invariant (get_default (RawVPC.CidrBlock raw) "")
              (RawVPC.CidrBlockAssociationSet raw) []
              [get_default (RawVPC.CidrBlock raw) ""]) as [_ [Hh _]].
  - constructor; [intros [] | constructor].
  - reflexivity.
  - intros c. simpl. intuition.
  - intros E. change (hd_error (vpc_cidrs raw)
                      = Some (get_default (RawVPC.CidrBlock raw) "")) in Hh.
    rewrite E in Hh. discriminate.
Qed.

Lemma loaded_vpc_cidrs_nonempty (inp : RawInput.t) (k : string) (vpc : VPC.t) :
  dict_get (NetworkData.vpcs (load inp)) k = Some vpc -> VPC.cidrs vpc <> [].
Proof.
  intros H. apply dict_get_In in H.
  destruct (loaded_vpc_entries inp) as [_ F]. rewrite Forall_forall in F.
  destruct (F _ H) as [raw [_ [_ Hv]]]. cbn [snd] in Hv. unfold vpc_identity in Hv.
  assert (E : VPC.cidrs (make_vpc raw) = VPC.cidrs vpc) by congruence.
  rewrite <- E. apply vpc_cidrs_nonempty.
Qed.

Lemma vpc_of_attachment_Some (vpcs : dict VPC.t) (att : TGWAttachment.t) (vpc : VPC.t) :
  vpc_of_attachment vpcs att = Some vpc ->
  dict_get vpcs (TGWAttachment.resource_id att) = Some vpc.
Proof.
  unfold vpc_of_attachment.
  destruct (AttachmentType.eqb (TGWAttachment.type att) AttachmentType.VPC);
    [intros H; exact H | discriminate].
Qed.

Lemma vpc_of_attachment_fields (vpcs : dict VPC.t) (a b : TGWAttachment.t) :
  TGWAttachment.type a = TGWAttachment.type b ->
  TGWAttachment.resource_id a = TGWAttachment.resource_id b ->
  vpc_of_attachment vpcs a = vpc_of_attachment vpcs b.
Proof. unfold vpc_of_attachment. intros -> ->. reflexivity. Qed.

(** Where the CIDRs of an attachment of the loaded catalog come from.  An
    attachment of type VPC whose VPC is in the export carries the name and
    the CIDR list of that VPC, which is never empty, so that routes
    propagated for it never replace them.  Any other attachment of type
    VPC or VPN (a cross-account VPC, a VPN) carries the destination CIDRs
    of the propagated routes attributed to its id, in ascending order and
    without repetition, and none when there is no such route.  An
    attachment of any other type has no CIDRs. *)
Theorem loaded_attachment_cidrs (inp : RawInput.t) (k : string) (att : TGWAttachment.t)
  (Hatt : dict_get (NetworkData.tgw_attachments (load inp)) k = Some att) :
  match vpc_of_attachment (NetworkData.vpcs (load inp)) att with
  | Some vpc =>
      TGWAttachment.cidrs att = VPC.cidrs vpc
      /\ TGWAttachment.name att = VPC.name vpc
      /\ TGWAttachment.cidrs att <> []
  | None =>
      if vpc_or_vpn att then
        Sorted str_le (TGWAttachment.cidrs att)
        /\ NoDup (TGWAttachment.cidrs att)
        /\ forall c, In c (TGWAttachment.cidrs att)
                     <-> candidate (load inp) (TGWAttachment.id att) c
      else TGWAttachment.cidrs att = []
  end.
Proof.
  pose proof (before_correlation_vpc_labels inp) as L.
  pose proof (fun vid vpc => loaded_vpc_cidrs_nonempty inp vid vpc) as NE.
  revert Hatt L NE. rewrite load_from_correlation.
  set (B := before_correlation inp) in *.
  change (NetworkData.vpcs (_classify_subnets (_extract_cross_account_cidrs
                                                 (_correlate_data B))))
    with (NetworkData.vpcs (_correlate_data B)).
  change (NetworkData.tgw_attachments
            (_classify_subnets (_extract_cross_account_cidrs (_correlate_data B))))
    with (NetworkData.tgw_attachments (_extract_cross_account_cidrs (_correlate_data B))).
  unfold _extract_cross_account_cidrs at 1.
  cbn [NetworkData.tgw_attachments NetworkData.set_tgw_attachments].
  rewrite dict_get_map_values.
  set (att_cidrs := collect_att_cidrs (NetworkData.tgw_route_tables (_correlate_data B))).
  pose proof (collect_att_cidrs_collected (_correlate_data B)) as Col.
  fold att_cidrs in Col.
  assert (G : dict_get (NetworkData.tgw_attachments (_correlate_data B)) k
              = option_map
                  (fun a => match option_map vpc_label
                                    (vpc_of_attachment (NetworkData.vpcs B) a) with
                            | Some (n, c) =>
                                TGWAttachment.set_name n (TGWAttachment.set_cidrs c a)
                            | None => a
                            end)
                  (dict_get (NetworkData.tgw_attachments B) k)).
  { unfold _correlate_data.
    pose proof (correlate_attachments_get (NetworkData.tgw_attachments B)
                  (NetworkData.vpcs B) (NetworkData.vpcs B) k eq_refl) as G.
    destruct (correlate_attachments (NetworkData.tgw_attachments B) (NetworkData.vpcs B)).
    exact G. }
  rewrite G. clear G.
  destruct (dict_get (NetworkData.tgw_attachments B) k) as [a0|] eqn:E0; [|discriminate].
  pose proof (before_correlation_no_cidrs inp k a0 E0) as Z.
  cbn [option_map]. intros Hatt L NE. injection Hatt as <-.
  rewrite fill_cidrs_eq.
  set (linked := match option_map vpc_label (vpc_of_attachment (NetworkData.vpcs B) a0) with
                 | Some (n, c) => TGWAttachment.set_name n (TGWAttachment.set_cidrs c a0)
                 | None => a0
                 end).
  assert (Ty : TGWAttachment.type linked = TGWAttachment.type a0)
    by (unfold linked;
        destruct (option_map vpc_label (vpc_of_attachment (NetworkData.vpcs B) a0))
          as [[n c]|]; reflexivity).
  assert (Rs : TGWAttachment.resource_id linked = TGWAttachment.resource_id a0)
    by (unfold linked;
        destruct (option_map vpc_label (vpc_of_attachment (NetworkData.vpcs B) a0))
          as [[n c]|]; reflexivity).
  assert (Id : TGWAttachment.id linked = TGWAttachment.id a0)
    by (unfold linked;
        destruct (option_map vpc_label (vpc_of_attachment (NetworkData.vpcs B) a0))
          as [[n c]|]; reflexivity).
  match goal with
  | |- context [vpc_of_attachment ?v (TGWAttachment.set_cidrs ?c linked)] =>
      rewrite (vpc_of_attachment_fields v (TGWAttachment.set_cidrs c linked) a0 Ty Rs);
      set (filled := c)
  end.
  pose proof (vpc_of_attachment_label (NetworkData.vpcs B)
                (NetworkData.vpcs (_correlate_data B)) a0 L) as Lab.
  destruct (vpc_of_attachment (NetworkData.vpcs (_correlate_data B)) a0) as [vpc|] eqn:V.
  - apply vpc_of_attachment_Some in V. apply NE in V.
    cbn [option_map] in Lab.
    assert (El : linked = TGWAttachment.set_name (VPC.name vpc)
                            (TGWAttachment.set_cidrs (VPC.cidrs vpc) a0)).
    { unfold linked. rewrite <- Lab. reflexivity. }
    assert (Ef : filled = VPC.cidrs vpc).
    { unfold filled, lacks_cidrs. rewrite El.
      cbn [TGWAttachment.cidrs TGWAttachment.set_name TGWAttachment.set_cidrs].
      destruct (VPC.cidrs vpc); [contradiction V; reflexivity|].
      cbn [nonempty negb]. rewrite andb_false_r. reflexivity. }
    rewrite Ef, El. cbn [TGWAttachment.cidrs TGWAttachment.name TGWAttachment.set_cidrs
                         TGWAttachment.set_name].
    auto.
  - cbn [option_map] in Lab.
    assert (El : linked = a0).
    { unfold linked. rewrite <- Lab. reflexivity. }
    unfold vpc_or_vpn.
    cbn [TGWAttachment.type TGWAttachment.cidrs TGWAttachment.id TGWAttachment.set_cidrs].
    rewrite Ty, Id.
    unfold filled, lacks_cidrs. rewrite El, Z. cbn [nonempty negb]. rewrite andb_true_r.
    destruct (AttachmentType.eqb (TGWAttachment.type a0) AttachmentType.VPC
              || AttachmentType.eqb (TGWAttachment.type a0) AttachmentType.VPN);
      [|reflexivity].
    specialize (Col (TGWAttachment.id a0)).
    destruct (dict_get att_cidrs (TGWAttachment.id a0)) as [s|].
    + destruct Col as [_ [ND Hin]].
      split; [apply sorted_Sorted|]. split; [apply sorted_NoDup; exact ND|].
      intros c. rewrite sorted_In, Hin.
      exact (candidate_all_routes (_correlate_data B) (TGWAttachment.id a0) c).
    + split; [constructor|]. split; [constructor|].
      intros c. split; [intros []|].
      intros Hc.
      exact (Col c (proj2 (candidate_all_routes (_correlate_data B)
                             (TGWAttachment.id a0) c) Hc)).
Qed.

(** The attachment of the export with one VPC carries the name and the two
    CIDRs of that VPC. *)
Lemma loaded_attachment_cidrs_witness :
  exists att,
    dict_get (NetworkData.tgw_attachments (load local_vpc_export)) "tgw-attach-a" = Some att
    /\ TGWAttachment.cidrs att = ["10.0.0.0/16"; "10.1.0.0/16"]
    /\ TGWAttachment.name att = "core"
    /\ TGWAttachment.cidrs att <> [].
Proof.
  pose (att := TGWAttachment.mk "tgw-attach-a" "tgw-1" AttachmentType.VPC "vpc-1"
                 "111122223333" "core" "available" ["10.0.0.0/16"; "10.1.0.0/16"]
                 None [] false "").
  exists att. split; [reflexivity|].
  exact (loaded_attachment_cidrs local_vpc_export "tgw-attach-a" att eq_refl).
Defined.

(** On the hub export: the attachment of the local VPC keeps the CIDRs of
    the VPC although a route is propagated for it; the cross-account VPC
    attachment and the VPN attachment carry the propagated CIDRs, sorted. *)
Example loaded_attachment_cidrs_hub :
  map (fun att => (TGWAttachment.id att, TGWAttachment.cidrs att))
      (dict_values (NetworkData.tgw_attachments (load hub_export)))
  = [("tgw-attach-a", ["10.0.0.0/16"; "10.1.0.0/16"]);
     ("tgw-attach-b", ["10.9.0.0/16"; "10.9.8.0/24"]);
     ("tgw-attach-v", ["192.168.7.0/24"])].
Proof. vm_compute. reflexivity. Qed.

(** ** Propagations *)

Lemma dict_mem_view {V B : Type} (pr : V -> B) (d : dict V) (k : string) :
  dict_mem (dict_view pr d) k = dict_mem d k.
Proof. unfold dict_mem. rewrite dict_get_view. destruct (dict_get d k); reflexivity. Qed.

Lemma count_occ_last (l : list string) (y x : string) :
  count_occ string_dec (l ++ [y]) x
  = count_occ string_dec l x + (if y =? x then 1 else 0).
Proof.
  rewrite count_occ_app. f_equal. cbn [count_occ].
  destruct (string_dec y x) as [E|N].
  - subst. rewrite String.eqb_refl. reflexivity.
  - apply String.eqb_neq in N. rewrite N. reflexivity.
Qed.

Lemma propagations_agree_step (va vt : dict (list string)) (att_id rt_id : string) :
  dict_mem vt rt_id = true ->
  propagations_agree va vt ->
  propagations_agree (dict_update va att_id (fun l => (l ++ [rt_id])%list))
                     (dict_update vt rt_id (fun p => (p ++ [att_id])%list)).
Proof.
  intros M [Hc Hm]. split.
  - intros x l t p. rewrite !dict_get_update.
    destruct (String.eqb_spec att_id x) as [->|Nx];
      destruct (String.eqb_spec rt_id t) as [->|Nt].
    + destruct (dict_get va x) as [l0|] eqn:A; [|discriminate].
      destruct (dict_get vt t) as [p0|] eqn:T; [|discriminate].
      cbn [option_map]. intros [= <-] [= <-].
      rewrite !count_occ_last, !String.eqb_refl, (Hc x l0 t p0 A T). reflexivity.
    + destruct (dict_get va x) as [l0|] eqn:A; [|discriminate].
      cbn [option_map]. intros [= <-] T.
      rewrite count_occ_last. apply String.eqb_neq in Nt. rewrite Nt, Nat.add_0_r.
      exact (Hc x l0 t p A T).
    + destruct (dict_get vt t) as [p0|] eqn:T; [|discriminate].
      cbn [option_map]. intros A [= <-].
      rewrite count_occ_last. apply String.eqb_neq in Nx. rewrite Nx, Nat.add_0_r.
      exact (Hc x l t p0 A T).
    + apply Hc.
  - intros x l t. rewrite dict_get_update, dict_mem_update.
    destruct (String.eqb_spec att_id x) as [->|Nx].
    + destruct (dict_get va x) as [l0|] eqn:A; [|discriminate].
      cbn [option_map]. intros [= <-] Hin. apply in_app_or in Hin.
      destruct Hin as [Hin|[<-|[]]]; [exact (Hm x l0 t A Hin) | exact M].
    + apply Hm.
Qed.

Lemma dict_view_update_with {V B : Type} (pr : V -> B) (d : dict V) (k : string)
  (f : V -> V) (g : B -> B) :
  (forall v, pr (f v) = g (pr v)) ->
  dict_view pr (dict_update d k f) = dict_update (dict_view pr d) k g.
Proof.
  intros Hf. induction d as [|[k' v] r IH]; [reflexivity|].
  cbn [dict_update dict_view map fst snd].
  destruct (k' =? k); cbn [dict_view map fst snd].
  - rewrite Hf. reflexivity.
  - unfold dict_view in IH. rewrite IH. reflexivity.
Qed.

Lemma load_propagation_agree (rt_id : string) (d : NetworkData.t) (e : RawAssociation.t) :
  dict_mem (NetworkData.tgw_route_tables d) rt_id = true ->
  propagations_agree (fst (propagation_views d)) (snd (propagation_views d)) ->
  propagations_agree (fst (propagation_views (load_propagation rt_id d e)))
                     (snd (propagation_views (load_propagation rt_id d e))).
Proof.
  intros M H. unfold load_propagation.
  destruct (opt_eqb (RawAssociation.State e) "enabled"); [|exact H].
  destruct (RawAssociation.TransitGatewayAttachmentId e) as [att_id|]; [|exact H].
  destruct (truthy att_id); [|exact H].
  unfold propagation_views in *.
  cbn [fst snd NetworkData.tgw_attachments NetworkData.tgw_route_tables
       NetworkData.set_tgw_attachments NetworkData.set_tgw_route_tables] in *.
  rewrite (dict_view_update_with TGWAttachment.propagating_to _ att_id
             (TGWAttachment.add_propagating_to rt_id) (fun l => (l ++ [rt_id])%list))
    by reflexivity.
  rewrite (dict_view_update_with TGWRouteTable.propagations _ rt_id
             (TGWRouteTable.add_propagation att_id) (fun p => (p ++ [att_id])%list))
    by reflexivity.
  apply propagations_agree_step; [|exact H].
  rewrite dict_mem_view. exact M.
Qed.

Lemma load_propagation_mem (rt_id : string) (d : NetworkData.t) (e : RawAssociation.t)
  (k : string) :
  dict_mem (NetworkData.tgw_route_tables (load_propagation rt_id d e)) k
  = dict_mem (NetworkData.tgw_route_tables d) k.
Proof.
  unfold load_propagation.
  destruct (opt_eqb (RawAssociation.State e) "enabled"); [|reflexivity].
  destruct (RawAssociation.TransitGatewayAttachmentId e) as [att_id|]; [|reflexivity].
  destruct (truthy att_id); [|reflexivity].
  cbn [NetworkData.tgw_attachments NetworkData.tgw_route_tables
       NetworkData.set_tgw_attachments NetworkData.set_tgw_route_tables].
  apply dict_mem_update.
Qed.

Lemma load_propagation_file_agree (d : NetworkData.t) (f : string * list RawAssociation.t) :
  propagations_agree (fst (propagation_views d)) (snd (propagation_views d)) ->
  propagations_agree (fst (propagation_views (load_propagation_file d f)))
                     (snd (propagation_views (load_propagation_file d f))).
Proof.
  intros H. unfold load_propagation_file.
  destruct (dict_mem (NetworkData.tgw_route_tables d) (fst f)) eqn:M; [|exact H].
  apply (fold_left_invariant (load_propagation (fst f))
           (fun s => dict_mem (NetworkData.tgw_route_tables s) (fst f) = true
                     /\ propagations_agree (fst (propagation_views s))
                                           (snd (propagation_views s)))
           (fun s e Hs => conj (eq_trans (load_propagation_mem (fst f) s e (fst f))
                                         (proj1 Hs))
                               (load_propagation_agree (fst f) s e (proj1 Hs) (proj2 Hs)))
           (snd f) d (conj M H)).
Qed.

Lemma after_association_files_no_propagations (inp : RawInput.t) :
  propagations_agree (fst (propagation_views (after_association_files inp)))
                     (snd (propagation_views (after_association_files inp))).
Proof.
  assert (A : forall x l,
             dict_get (fst (propagation_views (after_association_files inp))) x = Some l ->
             l = []).
  { intros x l. unfold propagation_views. cbn [fst].
    change (dict_view TGWAttachment.propagating_to
              (NetworkData.tgw_attachments (after_association_files inp)))
      with (attachment_view TGWAttachment.propagating_to (after_association_files inp)).
    assert (E : attachment_view TGWAttachment.propagating_to (after_association_files inp)
                = attachment_view TGWAttachment.propagating_to (after_route_tables inp)).
    { unfold after_association_files.
      apply (fold_left_invariant _
               (fun s => attachment_view TGWAttachment.propagating_to s
                         = attachment_view TGWAttachment.propagating_to
                             (after_route_tables inp))); [|reflexivity].
      intros s f H. unfold load_association_file.
      destruct (dict_mem (NetworkData.tgw_route_tables s) (fst f)); [|exact H].
      apply (fold_left_invariant _
               (fun s => attachment_view TGWAttachment.propagating_to s
                         = attachment_view TGWAttachment.propagating_to
                             (after_route_tables inp))); [|exact H].
      intros s' e H'. rewrite load_association_view by reflexivity. exact H'. }
    rewrite E. unfold attachment_view. rewrite dict_get_view.
    change (NetworkData.tgw_attachments (after_route_tables inp))
      with (NetworkData.tgw_attachments (after_attachments inp)).
    destruct (dict_get (NetworkData.tgw_attachments (after_attachments inp)) x)
      as [a0|] eqn:E0; [|discriminate].
    cbn [option_map]. intros [= <-]. apply dict_get_In in E0.
    assert (F : Forall (fun kv => TGWAttachment.propagating_to (snd kv) = [])
                       (NetworkData.tgw_attachments (after_attachments inp))).
    { unfold after_attachments, _load_tgw_attachments.
      cbn [NetworkData.tgw_attachments NetworkData.set_tgw_attachments].
      apply (fold_dict_set_entries (fun kv => TGWAttachment.propagating_to (snd kv) = []));
        [reflexivity | constructor]. }
    rewrite Forall_forall in F. exact (F _ E0). }
  assert (T : forall t p,
             dict_get (snd (propagation_views (after_association_files inp))) t = Some p ->
             p = []).
  { intros t p. unfold propagation_views. cbn [snd].
    change (dict_view TGWRouteTable.propagations
              (NetworkData.tgw_route_tables (after_association_files inp)))
      with (table_view TGWRouteTable.propagations (after_association_files inp)).
    rewrite after_association_files_table_view by reflexivity.
    unfold table_view. rewrite dict_get_view.
    destruct (dict_get (NetworkData.tgw_route_tables (after_route_tables inp)) t)
      as [rt|] eqn:E0; [|discriminate].
    cbn [option_map]. intros [= <-]. apply dict_get_In in E0.
    pose proof (after_route_tables_empty_lists inp) as F.
    rewrite Forall_forall in F. exact (proj1 (proj2 (F _ E0))). }
  split.
  - intros x l t p Hl Hp. rewrite (A x l Hl), (T t p Hp). reflexivity.
  - intros x l t Hl Hin. rewrite (A x l Hl) in Hin. destruct Hin.
Qed.

Lemma load_propagation_views (inp : RawInput.t) :
  propagation_views (load inp) = propagation_views (after_propagation_files inp).
Proof.
  unfold propagation_views. f_equal.
  - change (attachment_view TGWAttachment.propagating_to (load inp)
            = attachment_view TGWAttachment.propagating_to (after_propagation_files inp)).
    rewrite load_before_classification.
    change (attachment_view TGWAttachment.propagating_to
              (_classify_subnets (before_classification inp)))
      with (attachment_view TGWAttachment.propagating_to (before_classification inp)).
    unfold before_classification.
    rewrite extract_cross_account_cidrs_view by reflexivity.
    rewrite correlate_data_view by reflexivity.
    unfold attachment_view.
    match goal with
    | |- context [_load_vpc_route_tables inp ?d] =>
        pose proof (load_vpc_route_tables_tgw_side inp d) as H
    end.
    apply (f_equal (fun x => fst (fst x))) in H. cbn [fst tgw_side] in H. rewrite H.
    change (attachment_view TGWAttachment.propagating_to (after_route_details inp)
            = attachment_view TGWAttachment.propagating_to (after_propagation_files inp)).
    rewrite after_route_details_eq.
    apply (fold_left_invariant _
             (fun s => attachment_view TGWAttachment.propagating_to s
                       = attachment_view TGWAttachment.propagating_to
                           (after_propagation_files inp))); [|reflexivity].
    intros s f Hs. rewrite load_route_file_view. exact Hs.
  - rewrite load_tables_after_route_details, after_route_details_eq.
    change (table_view TGWRouteTable.propagations
              (fold_left load_route_file (RawInput.route_files inp)
                         (after_propagation_files inp))
            = table_view TGWRouteTable.propagations (after_propagation_files inp)).
    apply (fold_left_invariant _
             (fun s => table_view TGWRouteTable.propagations s
                       = table_view TGWRouteTable.propagations
                           (after_propagation_files inp))); [|reflexivity].
    intros s f Hs. rewrite load_route_file_table_view by reflexivity. exact Hs.
Qed.

Lemma load_propagations_agree (inp : RawInput.t) :
  propagations_agree (fst (propagation_views (load inp)))
                     (snd (propagation_views (load inp))).
Proof.
  rewrite load_propagation_views. unfold after_propagation_files.
  apply (fold_left_invariant load_propagation_file
           (fun s => propagations_agree (fst (propagation_views s))
                                        (snd (propagation_views s)))).
  - intros s f H. apply load_propagation_file_agree. exact H.
  - apply after_association_files_no_propagations.
Qed.

(** Unlike the association, which an attachment holds as one id, the
    propagations agree on both sides of the loaded catalog: a table of the
    catalog lists an attachment of the catalog among its propagations as
    often as the attachment lists the table in [propagating_to], so one
    names the other exactly when the other names it; and every table id in
    the [propagating_to] of an attachment is a table of the catalog.  A
    table may still list an attachment id that is not in the catalog. *)
Theorem propagations_round_trip (inp : RawInput.t) :
  (forall x att t rt,
     dict_get (NetworkData.tgw_attachments (load inp)) x = Some att ->
     dict_get (NetworkData.tgw_route_tables (load inp)) t = Some rt ->
     count_occ string_dec (TGWRouteTable.propagations rt) x
     = count_occ string_dec (TGWAttachment.propagating_to att) t
     /\ (In x (TGWRouteTable.propagations rt)
         <-> In t (TGWAttachment.propagating_to att)))
  /\ (forall x att t,
        dict_get (NetworkData.tgw_attachments (load inp)) x = Some att ->
        In t (TGWAttachment.propagating_to att) ->
        exists rt, dict_get (NetworkData.tgw_route_tables (load inp)) t = Some rt
                   /\ In x (TGWRouteTable.propagations rt)).
Proof.
  destruct (load_propagations_agree inp) as [Hc Hm].
  unfold propagation_views in Hc, Hm. cbn [fst snd] in Hc, Hm.
  assert (C : forall x att t rt,
             dict_get (NetworkData.tgw_attachments (load inp)) x = Some att ->
             dict_get (NetworkData.tgw_route_tables (load inp)) t = Some rt ->
             count_occ string_dec (TGWRouteTable.propagations rt) x
             = count_occ string_dec (TGWAttachment.propagating_to att) t).
  { intros x att t rt A T. apply (Hc x _ t _).
    - rewrite dict_get_view, A. reflexivity.
    - rewrite dict_get_view, T. reflexivity. }
  split.
  - intros x att t rt A T. split; [exact (C x att t rt A T)|].
    rewrite (count_occ_In string_dec), (count_occ_In string_dec), (C x att t rt A T).
    reflexivity.
  - intros x att t A Hin.
    assert (M : dict_mem (NetworkData.tgw_route_tables (load inp)) t = true).
    { rewrite <- (dict_mem_view TGWRouteTable.propagations).
      apply (Hm x (TGWAttachment.propagating_to att) t); [|exact Hin].
      rewrite dict_get_view, A. reflexivity. }
    apply dict_mem_true_iff in M. destruct M as [rt T]. exists rt. split; [exact T|].
    apply (count_occ_In string_dec). rewrite (C x att t rt A T).
    apply (count_occ_In string_dec). exact Hin.
Qed.

(** On the hub export, table [tgw-rtb-a] lists the attachments [b] and [v]
    as propagations and each of them lists the table. *)
Example propagations_round_trip_hub :
  map (fun rt => (TGWRouteTable.id rt, TGWRouteTable.propagations rt))
      (dict_values (NetworkData.tgw_route_tables (load hub_export)))
  = [("tgw-rtb-a", ["tgw-attach-b"; "tgw-attach-v"]); ("tgw-rtb-b", [])]
  /\ map (fun att => (TGWAttachment.id att, TGWAttachment.propagating_to att))
         (dict_values (NetworkData.tgw_attachments (load hub_export)))
     = [("tgw-attach-a", []); ("tgw-attach-b", ["tgw-rtb-a"]);
        ("tgw-attach-v", ["tgw-rtb-a"])].
Proof. vm_compute. split; reflexivity. Qed.

(** ** Derived queries *)

Lemma referenced_fold (atts : list TGWAttachment.t) (seen : list TGWAttachment.t)
  (acc : list string) :
  NoDup acc ->
  (forall id, In id acc <->
              id <> "" /\ exists a, In a seen /\ TGWAttachment.tgw_id a = id) ->
  let r := fold_left
             (fun acc att =>
                if truthy (TGWAttachment.tgw_id att)
                then set_add (TGWAttachment.tgw_id att) acc else acc)
             atts acc in
  NoDup r
  /\ forall id, In id r <->
                id <> "" /\ exists a, In a (seen ++ atts)%list /\ TGWAttachment.tgw_id a = id.
Proof.
  revert seen acc. induction atts as [|att rest IH]; intros seen acc ND H; cbn zeta.
  - cbn [fold_left]. rewrite app_nil_r. auto.
  - cbn [fold_left].
    replace (seen ++ att :: rest)%list with ((seen ++ [att]) ++ rest)%list
      by (rewrite <- app_assoc; reflexivity).
    apply IH.
    + destruct (truthy (TGWAttachment.tgw_id att)); [|exact ND].
      unfold set_add. destruct (str_in (TGWAttachment.tgw_id att) acc) eqn:E; [exact ND|].
      apply str_in_false_iff in E.
      apply NoDup_app; [exact ND | constructor; [intros [] | constructor] |].
      intros x Hx [<-|[]]. contradiction.
    + intros id. destruct (truthy (TGWAttachment.tgw_id att)) eqn:T.
      * apply truthy_true_iff in T.
        assert (M : In id (set_add (TGWAttachment.tgw_id att) acc)
                    <-> In id acc \/ id = TGWAttachment.tgw_id att).
        { unfold set_add. destruct (str_in (TGWAttachment.tgw_id att) acc) eqn:E.
          - apply str_in_true_iff in E. split; [auto|]. intros [?| ->]; assumption.
          - rewrite in_app_iff. simpl. intuition. }
        rewrite M, H. split.
        -- intros [[N [a [Ha E]]]| ->].
           ++ split; [exact N|]. exists a. rewrite in_app_iff. auto.
           ++ split; [exact T|]. exists att. rewrite in_app_iff. simpl. auto.
        -- intros [N [a [Ha E]]]. apply in_app_iff in Ha. destruct Ha as [Ha|[<-|[]]].
           ++ left. split; [exact N|]. exists a. auto.
           ++ right. symmetry. exact E.
      * apply truthy_false_iff in T. rewrite H. split.
        -- intros [N [a [Ha E]]]. split; [exact N|]. exists a. rewrite in_app_iff. auto.
        -- intros [N [a [Ha E]]]. split; [exact N|].
           apply in_app_iff in Ha. destruct Ha as [Ha|[<-|[]]].
           ++ exists a. auto.
           ++ exfalso. apply N. rewrite <- E. exact T.
Qed.

Lemma filter_split_Permutation {A : Type} (p : A -> bool) (l : list A) :
  Permutation (filter p l ++ filter (fun x => negb (p x)) l) l.
Proof.
  induction l as [|x r IH]; [constructor|].
  cbn [filter]. destruct (p x); cbn [negb app].
  - constructor. exact IH.
  - apply Permutation_sym. apply Permutation_cons_app. apply Permutation_sym. exact IH.
Qed.

(** The derived queries of the catalog.  The gateway ids referenced by the
    attachments are the non-empty [tgw_id]s, each once.  Every attachment
    is either cross-account or local, never both, so the two lists
    together are the attachments of the catalog.  An account is never hub
    and spoke at once, and it is neither exactly when the catalog has no
    gateway and no attachment. *)
Theorem derived_queries_partition (d : NetworkData.t) :
  NoDup (referenced_tgw_ids d)
  /\ (forall id, In id (referenced_tgw_ids d) <->
                 id <> ""
                 /\ exists a, In a (dict_values (NetworkData.tgw_attachments d))
                              /\ TGWAttachment.tgw_id a = id)
  /\ Permutation (cross_account_attachments d ++ local_attachments d)
                 (dict_values (NetworkData.tgw_attachments d))
  /\ (forall a, In a (cross_account_attachments d) -> ~ In a (local_attachments d))
  /\ is_hub_account d && is_spoke_account d = false
  /\ (is_hub_account d || is_spoke_account d = false <->
      NetworkData.tgws d = [] /\ NetworkData.tgw_attachments d = []).
Proof.
  destruct (referenced_fold (dict_values (NetworkData.tgw_attachments d)) [] [])
    as [ND Hin].
  { constructor. }
  { intros id. simpl. split; [intros [] | intros [_ [a [[] _]]]]. }
  split; [exact ND|]. split; [exact Hin|].
  split; [apply filter_split_Permutation|].
  split.
  { intros a Hc Hl. unfold cross_account_attachments, local_attachments in *.
    apply filter_In in Hc. apply filter_In in Hl.
    destruct Hc as [_ Hc]. destruct Hl as [_ Hl]. rewrite Hc in Hl. discriminate. }
  unfold is_hub_account, is_spoke_account.
  destruct (NetworkData.tgws d) as [|g gs]; destruct (NetworkData.tgw_attachments d) as [|a r];
    cbn; split; try reflexivity; split; try reflexivity;
    try discriminate; try (intros [? ?]; discriminate); auto.
Qed.

(** ** VPC route tables and what they link *)

Lemma load_rt_association_table (rt : RawVPCRouteTable.t) (d : NetworkData.t)
  (t : VPCRouteTable.t) (assoc : RawRTAssociation.t) :
  snd (load_rt_association rt (d, t) assoc)
  = VPCRouteTable.mk (VPCRouteTable.id t) (VPCRouteTable.vpc_id t) (VPCRouteTable.name t)
      (VPCRouteTable.is_main t || assoc_main assoc) (VPCRouteTable.routes t)
      (VPCRouteTable.subnet_ids t ++ assoc_subnet assoc).
Proof.
  unfold load_rt_association, assoc_main, assoc_subnet.
  destruct (get_default (RawRTAssociation.Main assoc) false);
    destruct (RawRTAssociation.SubnetId assoc) as [s|];
    try destruct (truthy s); destruct t; cbn;
    rewrite ?orb_true_r, ?orb_false_r, ?app_nil_r; reflexivity.
Qed.

Lemma load_rt_associations_table (rt : RawVPCRouteTable.t)
  (assocs : list RawRTAssociation.t) (d : NetworkData.t) (t : VPCRouteTable.t) :
  snd (fold_left (load_rt_association rt) assocs (d, t))
  = VPCRouteTable.mk (VPCRouteTable.id t) (VPCRouteTable.vpc_id t) (VPCRouteTable.name t)
      (VPCRouteTable.is_main t || existsb assoc_main assocs) (VPCRouteTable.routes t)
      (VPCRouteTable.subnet_ids t ++ flat_map assoc_subnet assocs).
Proof.
  revert d t. induction assocs as [|a r IH]; intros d t.
  - cbn. rewrite orb_false_r, app_nil_r. destruct t; reflexivity.
  - cbn [fold_left existsb flat_map].
    pose proof (load_rt_association_table rt d t a) as E.
    destruct (load_rt_association rt (d, t) a) as [d' t']. cbn [snd] in E.
    rewrite IH, E. cbn. rewrite orb_assoc, app_assoc. reflexivity.
Qed.

Lemma load_rt_associations_subnets (rt : RawVPCRouteTable.t)
  (assocs : list RawRTAssociation.t) (d : NetworkData.t) (t : VPCRouteTable.t) :
  NetworkData.subnets (fst (fold_left (load_rt_association rt) assocs (d, t)))
  = fold_left
      (fun sd s => dict_update sd s
                     (Subnet.set_route_table_id (Some (RawVPCRouteTable.RouteTableId rt))))
      (flat_map assoc_subnet assocs) (NetworkData.subnets d).
Proof.
  revert d t. induction assocs as [|a r IH]; intros d t; [reflexivity|].
  cbn [fold_left flat_map]. rewrite fold_left_app.
  assert (E : NetworkData.subnets (fst (load_rt_association rt (d, t) a))
              = fold_left
                  (fun sd s => dict_update sd s
                                 (Subnet.set_route_table_id
                                    (Some (RawVPCRouteTable.RouteTableId rt))))
                  (assoc_subnet a) (NetworkData.subnets d)).
  { unfold load_rt_association, assoc_subnet.
    destruct (get_default (RawRTAssociation.Main a) false);
      destruct (RawRTAssociation.SubnetId a) as [s|];
      try destruct (truthy s); reflexivity. }
  destruct (load_rt_association rt (d, t) a) as [d' t']. cbn [fst] in E.
  rewrite IH, E. reflexivity.
Qed.

Lemma load_rt_associations_vpcs (rt : RawVPCRouteTable.t)
  (assocs : list RawRTAssociation.t) (d : NetworkData.t) (t : VPCRouteTable.t) :
  NetworkData.vpcs (fst (fold_left (load_rt_association rt) assocs (d, t)))
  = fold_left
      (fun vd v => dict_update vd v
                     (VPC.set_main_route_table_id (Some (RawVPCRouteTable.RouteTableId rt))))
      (map (fun _ => RawVPCRouteTable.VpcId rt) (filter assoc_main assocs))
      (NetworkData.vpcs d).
Proof.
  revert d t. induction assocs as [|a r IH]; intros d t; [reflexivity|].
  cbn [fold_left filter].
  assert (E : NetworkData.vpcs (fst (load_rt_association rt (d, t) a))
              = if assoc_main a
                then dict_update (NetworkData.vpcs d) (RawVPCRouteTable.VpcId rt)
                       (VPC.set_main_route_table_id
                          (Some (RawVPCRouteTable.RouteTableId rt)))
                else NetworkData.vpcs d).
  { unfold load_rt_association, assoc_main.
    destruct (get_default (RawRTAssociation.Main a) false);
      destruct (RawRTAssociation.SubnetId a) as [s|];
      try destruct (truthy s); reflexivity. }
  destruct (load_rt_association rt (d, t) a) as [d' t']. cbn [fst] in E.
  rewrite IH, E. destruct (assoc_main a); reflexivity.
Qed.

Lemma load_rt_associations_tables (rt : RawVPCRouteTable.t)
  (assocs : list RawRTAssociation.t) (d : NetworkData.t) (t : VPCRouteTable.t) :
  NetworkData.vpc_route_tables (fst (fold_left (load_rt_association rt) assocs (d, t)))
  = NetworkData.vpc_route_tables d.
Proof.
  revert d t. induction assocs as [|a r IH]; intros d t; [reflexivity|].
  cbn [fold_left].
  assert (E : NetworkData.vpc_route_tables (fst (load_rt_association rt (d, t) a))
              = NetworkData.vpc_route_tables d).
  { unfold load_rt_association.
    destruct (get_default (RawRTAssociation.Main a) false);
      destruct (RawRTAssociation.SubnetId a) as [s|];
      try destruct (truthy s); reflexivity. }
  destruct (load_rt_association rt (d, t) a) as [d' t']. cbn [fst] in E.
  rewrite IH, E. reflexivity.
Qed.

Lemma add_routes_table (routes : list RawVPCRoute.t) (t : VPCRouteTable.t) :
  fold_left (fun acc route => VPCRouteTable.add_route (make_vpc_route route) acc) routes t
  = VPCRouteTable.mk (VPCRouteTable.id t) (VPCRouteTable.vpc_id t) (VPCRouteTable.name t)
      (VPCRouteTable.is_main t) (VPCRouteTable.routes t ++ map make_vpc_route routes)
      (VPCRouteTable.subnet_ids t).
Proof.
  revert t. induction routes as [|r rest IH]; intros t.
  - cbn. rewrite app_nil_r. destruct t; reflexivity.
  - cbn [fold_left map]. rewrite IH. cbn. rewrite <- app_assoc. reflexivity.
Qed.

Lemma dict_get_fold_update {V : Type} (f : V -> V) (keys : list string) (d : dict V)
  (k : string) :
  (forall v, f (f v) = f v) ->
  dict_get (fold_left (fun d s => dict_update d s f) keys d) k
  = option_map (fun v => if str_in k keys then f v else v) (dict_get d k).
Proof.
  intros Hf. revert d. induction keys as [|s r IH]; intros d.
  - cbn. destruct (dict_get d k); reflexivity.
  - cbn [fold_left]. rewrite IH, dict_get_update.
    unfold str_in. cbn [existsb]. fold (str_in k r).
    rewrite (String.eqb_sym k s).
    destruct (s =? k); cbn [orb].
    + destruct (dict_get d k) as [v|]; [|reflexivity]. cbn [option_map].
      destruct (str_in k r); [rewrite Hf|]; reflexivity.
    + reflexivity.
Qed.

Lemma str_in_constant {A : Type} (k v : string) (l : list A) (p : A -> bool) :
  str_in k (map (fun _ => v) (filter p l)) = (v =? k) && existsb p l.
Proof.
  unfold str_in. induction l as [|x r IH]; cbn [filter map existsb].
  - rewrite andb_false_r. reflexivity.
  - destruct (p x); cbn [map existsb orb].
    + rewrite IH, (String.eqb_sym k v). destruct (v =? k); reflexivity.
    + exact IH.
Qed.

Lemma load_vpc_route_table_effect (d : NetworkData.t) (rt : RawVPCRouteTable.t) :
  NetworkData.vpc_route_tables (load_vpc_route_table d rt)
  = dict_set (NetworkData.vpc_route_tables d) (RawVPCRouteTable.RouteTableId rt)
             (make_vpc_route_table rt)
  /\ (forall k,
        dict_get (NetworkData.subnets (load_vpc_route_table d rt)) k
        = option_map
            (fun s => if names_subnet k rt
                      then Subnet.set_route_table_id
                             (Some (RawVPCRouteTable.RouteTableId rt)) s
                      else s)
            (dict_get (NetworkData.subnets d) k))
  /\ (forall k,
        dict_get (NetworkData.vpcs (load_vpc_route_table d rt)) k
        = option_map
            (fun v => if main_table_of k rt
                      then VPC.set_main_route_table_id
                             (Some (RawVPCRouteTable.RouteTableId rt)) v
                      else v)
            (dict_get (NetworkData.vpcs d) k)).
Proof.
  unfold load_vpc_route_table.
  match goal with
  | |- context [fold_left (load_rt_association rt) ?l (d, ?t0)] =>
      pose proof (load_rt_associations_table rt l d t0) as T;
      pose proof (load_rt_associations_subnets rt l d t0) as S;
      pose proof (load_rt_associations_vpcs rt l d t0) as V;
      pose proof (load_rt_associations_tables rt l d t0) as R;
      destruct (fold_left (load_rt_association rt) l (d, t0)) as [d' t']
  end.
  cbn [fst snd] in *.
  cbn [NetworkData.vpc_route_tables NetworkData.set_vpc_route_tables NetworkData.subnets
       NetworkData.vpcs].
  split; [|split].
  - rewrite R, add_routes_table, T. reflexivity.
  - intros k. rewrite S. apply dict_get_fold_update. reflexivity.
  - intros k. rewrite V, dict_get_fold_update by reflexivity.
    unfold main_table_of. rewrite str_in_constant. reflexivity.
Qed.

Lemma fold_last_writer {S X V : Type} (step : S -> X -> S) (get : S -> option V)
  (p : X -> bool) (f : X -> V -> V) :
  (forall x y v, f x (f y v) = f x v) ->
  (forall s x, get (step s x) = option_map (fun v => if p x then f x v else v) (get s)) ->
  forall xs s,
    get (fold_left step xs s)
    = option_map (fun v => match find p (rev xs) with
                           | Some x => f x v
                           | None => v
                           end) (get s).
Proof.
  intros Hf Hs xs. induction xs as [|x r IH]; intros s.
  - cbn. destruct (get s); reflexivity.
  - cbn [fold_left rev]. rewrite IH, Hs, find_last.
    destruct (get s) as [v|]; [|reflexivity]. cbn [option_map].
    destruct (find p (rev r)) as [y|]; destruct (p x); try reflexivity.
    rewrite Hf. reflexivity.
Qed.

Lemma load_vpc_route_tables_effect (inp : RawInput.t) (d : NetworkData.t) :
  (forall k,
     dict_get (NetworkData.vpc_route_tables (_load_vpc_route_tables inp d)) k
     = match find (fun rt => RawVPCRouteTable.RouteTableId rt =? k)
                  (rev (RawInput.RouteTables inp)) with
       | Some rt => Some (make_vpc_route_table rt)
       | None => dict_get (NetworkData.vpc_route_tables d) k
       end)
  /\ (forall k,
        dict_get (NetworkData.subnets (_load_vpc_route_tables inp d)) k
        = option_map
            (fun s => match find (names_subnet k) (rev (RawInput.RouteTables inp)) with
                      | Some rt => Subnet.set_route_table_id
                                     (Some (RawVPCRouteTable.RouteTableId rt)) s
                      | None => s
                      end)
            (dict_get (NetworkData.subnets d) k))
  /\ (forall k,
        dict_get (NetworkData.vpcs (_load_vpc_route_tables inp d)) k
        = option_map
            (fun v => match find (main_table_of k) (rev (RawInput.RouteTables inp)) with
                      | Some rt => VPC.set_main_route_table_id
                                     (Some (RawVPCRouteTable.RouteTableId rt)) v
                      | None => v
                      end)
            (dict_get (NetworkData.vpcs d) k)).
Proof.
  unfold _load_vpc_route_tables. split; [|split]; intros k.
  - assert (E : forall rts s,
               NetworkData.vpc_route_tables (fold_left load_vpc_route_table rts s)
               = fold_left (fun acc rt => dict_set acc (RawVPCRouteTable.RouteTableId rt)
                                                   (make_vpc_route_table rt))
                           rts (NetworkData.vpc_route_tables s)).
    { induction rts as [|rt r IH]; intros s; [reflexivity|].
      cbn [fold_left]. rewrite IH, (proj1 (load_vpc_route_table_effect s rt)).
      reflexivity. }
    rewrite E. apply dict_get_fold_set.
  - apply (fold_last_writer load_vpc_route_table
             (fun s => dict_get (NetworkData.subnets s) k) (names_subnet k)
             (fun rt => Subnet.set_route_table_id
                          (Some (RawVPCRouteTable.RouteTableId rt)))).
    + reflexivity.
    + intros s rt. apply (proj1 (proj2 (load_vpc_route_table_effect s rt))).
  - apply (fold_last_writer load_vpc_route_table
             (fun s => dict_get (NetworkData.vpcs s) k) (main_table_of k)
             (fun rt => VPC.set_main_route_table_id
                          (Some (RawVPCRouteTable.RouteTableId rt)))).
    + reflexivity.
    + intros s rt. apply (proj2 (proj2 (load_vpc_route_table_effect s rt))).
Qed.

Lemma load_tgw_route_details_vpc_side (inp : RawInput.t) (d : NetworkData.t) :
  vpc_side (_load_tgw_route_details inp d) = vpc_side d.
Proof.
  unfold _load_tgw_route_details.
  set (Q := fun s => vpc_side s = vpc_side d).
  apply (fold_left_invariant _ Q).
  { intros s x H. unfold load_route_file.
    destruct (dict_mem (NetworkData.tgw_route_tables s) (fst x)); [|exact H].
    apply (fold_left_invariant _ Q); [|exact H]. intros s' y H'. exact H'. }
  apply (fold_left_invariant _ Q).
  { intros s x H. unfold load_propagation_file.
    destruct (dict_mem (NetworkData.tgw_route_tables s) (fst x)); [|exact H].
    apply (fold_left_invariant _ Q); [|exact H].
    intros s' y H'. unfold Q, load_propagation.
    destruct (opt_eqb (RawAssociation.State y) "enabled"); [|exact H'].
    destruct (RawAssociation.TransitGatewayAttachmentId y) as [a|]; [|exact H'].
    destruct (truthy a); exact H'. }
  apply (fold_left_invariant _ Q); [|reflexivity].
  intros s x H. unfold load_association_file.
  destruct (dict_mem (NetworkData.tgw_route_tables s) (fst x)); [|exact H].
  apply (fold_left_invariant _ Q); [|exact H].
  intros s' y H'. unfold Q, load_association.
  destruct (opt_eqb (RawAssociation.State y) "associated"); [|exact H'].
  destruct (RawAssociation.TransitGatewayAttachmentId y) as [a|]; [|exact H'].
  destruct (truthy a); exact H'.
Qed.

Lemma after_vpcs_rest (inp : RawInput.t) :
  NetworkData.vpc_route_tables (after_vpcs inp) = []
  /\ NetworkData.subnets (after_vpcs inp) = [].
Proof.
  pose proof (load_tgw_route_details_vpc_side inp (after_route_tables inp)) as H.
  unfold vpc_side in H.
  change (NetworkData.vpc_route_tables (after_vpcs inp))
    with (NetworkData.vpc_route_tables (_load_tgw_route_details inp (after_route_tables inp))).
  change (NetworkData.subnets (after_vpcs inp))
    with (NetworkData.subnets (_load_tgw_route_details inp (after_route_tables inp))).
  split; [apply (f_equal (fun x => snd (fst x))) in H | apply (f_equal snd) in H];
    cbn [fst snd] in H; rewrite H; reflexivity.
Qed.

Lemma correlate_data_rest (d : NetworkData.t) :
  NetworkData.vpc_route_tables (_correlate_data d) = NetworkData.vpc_route_tables d
  /\ NetworkData.subnets (_correlate_data d) = NetworkData.subnets d.
Proof.
  unfold _correlate_data.
  destruct (correlate_attachments (NetworkData.tgw_attachments d) (NetworkData.vpcs d)).
  split; reflexivity.
Qed.

Lemma loaded_vpc_route_tables_get (inp : RawInput.t) (k : string) :
  dict_get (NetworkData.vpc_route_tables (load inp)) k
  = option_map make_vpc_route_table
      (find (fun rt => RawVPCRouteTable.RouteTableId rt =? k)
            (rev (RawInput.RouteTables inp))).
Proof.
  rewrite load_from_correlation.
  change (NetworkData.vpc_route_tables
            (_classify_subnets (_extract_cross_account_cidrs
                                  (_correlate_data (before_correlation inp)))))
    with (NetworkData.vpc_route_tables (_correlate_data (before_correlation inp))).
  rewrite (proj1 (correlate_data_rest _)). unfold before_correlation.
  rewrite (proj1 (load_vpc_route_tables_effect inp _)).
  change (NetworkData.vpc_route_tables (_load_subnets inp (after_vpcs inp)))
    with (NetworkData.vpc_route_tables (after_vpcs inp)).
  rewrite (proj1 (after_vpcs_rest inp)).
  destruct (find (fun rt => RawVPCRouteTable.RouteTableId rt =? k)
                 (rev (RawInput.RouteTables inp))); reflexivity.
Qed.

Lemma loaded_table_known (inp : RawInput.t) (p : RawVPCRouteTable.t -> bool) (t : string) :
  option_map RawVPCRouteTable.RouteTableId (find p (rev (RawInput.RouteTables inp)))
  = Some t ->
  dict_mem (NetworkData.vpc_route_tables (load inp)) t = true.
Proof.
  intros H. unfold dict_mem. rewrite loaded_vpc_route_tables_get.
  destruct (find p (rev (RawInput.RouteTables inp))) as [rt|] eqn:F; [|discriminate].
  cbn [option_map] in H. injection H as <-. apply find_some in F. destruct F as [Hin _].
  destruct (find (fun rt0 => RawVPCRouteTable.RouteTableId rt0
                             =? RawVPCRouteTable.RouteTableId rt)
                 (rev (RawInput.RouteTables inp))) as [rt'|] eqn:G; [reflexivity|].
  pose proof (find_none _ _ G rt Hin) as N. cbn in N.
  rewrite String.eqb_refl in N. discriminate.
Qed.

Lemma before_classification_subnet_get (inp : RawInput.t) (k : string) :
  dict_get (NetworkData.subnets (before_classification inp)) k
  = option_map
      (fun raw =>
         Subnet.set_route_table_id
           (option_map RawVPCRouteTable.RouteTableId
              (find (names_subnet k) (rev (RawInput.RouteTables inp))))
           (make_subnet raw))
      (find (fun raw => RawSubnet.SubnetId raw =? k) (rev (RawInput.Subnets inp))).
Proof.
  change (before_classification inp)
    with (_extract_cross_account_cidrs (_correlate_data (before_correlation inp))).
  change (NetworkData.subnets (_extract_cross_account_cidrs ?d)) with (NetworkData.subnets d).
  rewrite (proj2 (correlate_data_rest _)). unfold before_correlation.
  rewrite (proj1 (proj2 (load_vpc_route_tables_effect inp _))).
  unfold _load_subnets.
  cbn [NetworkData.subnets NetworkData.set_subnets].
  rewrite (proj2 (after_vpcs_rest inp)), dict_get_fold_set.
  destruct (find (fun raw => RawSubnet.SubnetId raw =? k) (rev (RawInput.Subnets inp)))
    as [raw|]; [|reflexivity].
  cbn [option_map dict_get].
  destruct (find (names_subnet k) (rev (RawInput.RouteTables inp))); reflexivity.
Qed.

Lemma loaded_subnet_get (inp : RawInput.t) (k : string) :
  dict_get (NetworkData.subnets (load inp)) k
  = option_map
      (fun raw =>
         classify_subnet (load inp)
           (Subnet.set_route_table_id
              (option_map RawVPCRouteTable.RouteTableId
                 (find (names_subnet k) (rev (RawInput.RouteTables inp))))
              (make_subnet raw)))
      (find (fun raw => RawSubnet.SubnetId raw =? k) (rev (RawInput.Subnets inp))).
Proof.
  pose proof (before_classification_subnet_get inp k) as G.
  pose proof (classify_subnets_get (before_classification inp) k) as C.
  rewrite G in C.
  change (_classify_subnets (before_classification inp)) with (load inp) in C.
  rewrite C.
  destruct (find (fun raw => RawSubnet.SubnetId raw =? k) (rev (RawInput.Subnets inp)));
    reflexivity.
Qed.

Lemma loaded_vpc_main_table (inp : RawInput.t) (k : string) (vpc : VPC.t) :
  dict_get (NetworkData.vpcs (load inp)) k = Some vpc ->
  VPC.main_route_table_id vpc
  = option_map RawVPCRouteTable.RouteTableId
      (find (main_table_of k) (rev (RawInput.RouteTables inp))).
Proof.
  intros H.
  assert (E : dict_get (vpc_view VPC.main_route_table_id (load inp)) k
              = Some (VPC.main_route_table_id vpc)).
  { unfold vpc_view. rewrite dict_get_view, H. reflexivity. }
  rewrite load_from_correlation in E.
  change (vpc_view VPC.main_route_table_id
            (_classify_subnets (_extract_cross_account_cidrs
                                  (_correlate_data (before_correlation inp)))))
    with (vpc_view VPC.main_route_table_id (_correlate_data (before_correlation inp))) in E.
  unfold vpc_view, _correlate_data in E.
  pose proof (correlate_attachments_vpc_view VPC.main_route_table_id (fun _ _ => eq_refl)
                (NetworkData.tgw_attachments (before_correlation inp))
                (NetworkData.vpcs (before_correlation inp))) as V.
  destruct (correlate_attachments (NetworkData.tgw_attachments (before_correlation inp))
              (NetworkData.vpcs (before_correlation inp))) as [atts vpcs].
  cbn [snd NetworkData.vpcs NetworkData.set_vpcs] in *.
  rewrite V, dict_get_view in E. unfold before_correlation in E.
  rewrite (proj2 (proj2 (load_vpc_route_tables_effect inp _))) in E.
  change (NetworkData.vpcs (_load_subnets inp (after_vpcs inp)))
    with (NetworkData.vpcs (after_vpcs inp)) in E.
  rewrite after_vpcs_vpcs, dict_get_fold_set in E.
  destruct (find (fun x => RawVPC.VpcId x =? k) (rev (RawInput.Vpcs inp))) as [raw|];
    [|discriminate].
  cbn [option_map] in E. injection E as <-.
  destruct (find (main_table_of k) (rev (RawInput.RouteTables inp))); reflexivity.
Qed.

(** What the loader builds from the VPC route table records.  When a table
    id occurs more than once the last record wins: the table of the loaded
    catalog has the id, VPC and name of that record, is main exactly when
    the record has a main association, lists the subnets its associations
    name and has the routes of the record, in order.  A subnet comes from
    the last record of its id, is associated with the last table record, in
    export order, that names it (with none when no record does) and is
    classified on that; a VPC has as main route table the last table record
    of that VPC with a main association.  The table a subnet or a VPC names
    is always a table of the catalog. *)
Theorem loaded_vpc_route_tables_last_record (inp : RawInput.t) (k : string) :
  dict_get (NetworkData.vpc_route_tables (load inp)) k
  = option_map make_vpc_route_table
      (find (fun rt => RawVPCRouteTable.RouteTableId rt =? k)
            (rev (RawInput.RouteTables inp)))
  /\ dict_get (NetworkData.subnets (load inp)) k
     = option_map
         (fun raw =>
            classify_subnet (load inp)
              (Subnet.set_route_table_id
                 (option_map RawVPCRouteTable.RouteTableId
                    (find (names_subnet k) (rev (RawInput.RouteTables inp))))
                 (make_subnet raw)))
         (find (fun raw => RawSubnet.SubnetId raw =? k) (rev (RawInput.Subnets inp)))
  /\ (forall subnet t,
        dict_get (NetworkData.subnets (load inp)) k = Some subnet ->
        Subnet.route_table_id subnet = Some t ->
        dict_mem (NetworkData.vpc_route_tables (load inp)) t = true)
  /\ (forall vpc,
        dict_get (NetworkData.vpcs (load inp)) k = Some vpc ->
        VPC.main_route_table_id vpc
        = option_map RawVPCRouteTable.RouteTableId
            (find (main_table_of k) (rev (RawInput.RouteTables inp)))
        /\ forall t, VPC.main_route_table_id vpc = Some t ->
                     dict_mem (NetworkData.vpc_route_tables (load inp)) t = true).
Proof.
  split; [apply loaded_vpc_route_tables_get|].
  split; [apply loaded_subnet_get|].
  split.
  - intros subnet t H Ht. rewrite loaded_subnet_get in H.
    destruct (find (fun raw => RawSubnet.SubnetId raw =? k) (rev (RawInput.Subnets inp)))
      as [raw|]; [|discriminate].
    cbn [option_map] in H. injection H as <-.
    rewrite classify_subnet_eq in Ht. cbn in Ht.
    exact (loaded_table_known inp (names_subnet k) t Ht).
  - intros vpc H. pose proof (loaded_vpc_main_table inp k vpc H) as M.
    split; [exact M|].
    intros t Ht. rewrite Ht in M. symmetry in M.
    exact (loaded_table_known inp (main_table_of k) t M).
Qed.

(** ** Identifiers for the diagram *)

Lemma safe_id_cons (c : ascii) (r : string) :
  _safe_id (String c r) = String (if unsafe_char c then "_"%char else c) (_safe_id r).
Proof.
  unfold _safe_id, unsafe_char. cbn [replace_char]. f_equal.
  destruct (Ascii.eqb_spec c "-") as [->|N1]; [reflexivity|].
  destruct (Ascii.eqb_spec c ".") as [->|N2]; [reflexivity|].
  destruct (Ascii.eqb_spec c "/") as [->|N3]; reflexivity.
Qed.

(** [_safe_id] replaces each of the characters [-], [.] and [/] by [_] and
    keeps every other character in its place: the result has the length
    of the input and none of the three characters, and a string without
    them, in particular any result of [_safe_id], is left as it is. *)
Theorem safe_id_replaces_unsafe_characters (s : string) :
  String.length (_safe_id s) = String.length s
  /\ (forall n, String.get n (_safe_id s)
                = option_map (fun c => if unsafe_char c then "_"%char else c)
                             (String.get n s))
  /\ forallb (fun c => negb (unsafe_char c)) (list_ascii_of_string (_safe_id s)) = true
  /\ (forallb (fun c => negb (unsafe_char c)) (list_ascii_of_string s) = true ->
      _safe_id s = s)
  /\ _safe_id (_safe_id s) = _safe_id s.
Proof.
  assert (L : String.length (_safe_id s) = String.length s).
  { induction s as [|c r IH]; [reflexivity|].
    rewrite safe_id_cons. cbn [String.length]. rewrite IH. reflexivity. }
  assert (G : forall n, String.get n (_safe_id s)
                        = option_map (fun c => if unsafe_char c then "_"%char else c)
                                     (String.get n s)).
  { induction s as [|c r IH]; intros n; [reflexivity|].
    rewrite safe_id_cons. destruct n as [|n]; cbn [String.get option_map];
      [reflexivity | apply IH; clear IH].
    clear L. induction r as [|c' r' IH']; [reflexivity|].
    rewrite safe_id_cons. cbn [String.length]. rewrite IH'. reflexivity. }
  assert (F : forallb (fun c => negb (unsafe_char c)) (list_ascii_of_string (_safe_id s))
              = true).
  { clear L G. induction s as [|c r IH]; [reflexivity|].
    rewrite safe_id_cons. cbn [list_ascii_of_string forallb]. rewrite IH, andb_true_r.
    destruct (unsafe_char c) eqn:U; [reflexivity | rewrite U; reflexivity]. }
  assert (K : forall t, forallb (fun c => negb (unsafe_char c)) (list_ascii_of_string t) = true ->
                        _safe_id t = t).
  { clear. induction t as [|c r IH]; [reflexivity|].
    cbn [list_ascii_of_string forallb]. intros H. apply andb_true_iff in H.
    destruct H as [U H]. rewrite safe_id_cons, (IH H).
    apply negb_true_iff in U. rewrite U. reflexivity. }
  split; [exact L|]. split; [exact G|]. split; [exact F|]. split; [apply K|].
  apply K. exact F.
Qed.

(** ** The three checks and phases as the specification words them *)

Lemma before_total {A : Type} (l : list A) (x y : A) :
  In x l -> In y l -> x <> y -> before l x y \/ before l y x.
Proof.
  induction l as [|a r IH]; intros Hx Hy N; [destruct Hx|].
  rewrite !before_cons.
  destruct Hx as [Ex|Hx], Hy as [Ey|Hy].
  - exfalso. apply N. congruence.
  - left. left. auto.
  - right. left. auto.
  - destruct (IH Hx Hy N) as [H|H]; [left | right]; right; exact H.
Qed.


(** C7: recovery of cross-account CIDRs.  A route of a TGW route table
    contributes its destination to the candidates of an attachment id only
    when it is propagated, has a destination CIDR and is attributed to
    that id.  The recovery changes nothing but CIDR lists of attachments:
    an attachment of type VPC or VPN whose CIDR list is empty receives the
    candidates of its id, in ascending order and without repetition; an
    attachment whose CIDR list is not empty keeps it, whatever the
    candidates are, and so does an attachment of any other type. *)
Theorem cross_account_cidrs_fill_only_empty_lists (d : NetworkData.t) :
  let d' := _extract_cross_account_cidrs d in
  (forall att_id cidr,
     candidate d att_id cidr <->
     exists rt route,
       In rt (dict_values (NetworkData.tgw_route_tables d))
       /\ In route (TGWRouteTable.routes rt)
       /\ TGWRoute.route_type route = RouteType.PROPAGATED
       /\ TGWRoute.destination_cidr route = cidr /\ cidr <> ""
       /\ TGWRoute.attachment_id route = Some att_id /\ att_id <> "")
  /\ (NetworkData.tgws d' = NetworkData.tgws d
      /\ NetworkData.tgw_route_tables d' = NetworkData.tgw_route_tables d
      /\ NetworkData.vpcs d' = NetworkData.vpcs d
      /\ NetworkData.vpc_route_tables d' = NetworkData.vpc_route_tables d
      /\ NetworkData.subnets d' = NetworkData.subnets d
      /\ NetworkData.local_account_id d' = NetworkData.local_account_id d
      /\ dict_keys (NetworkData.tgw_attachments d')
         = dict_keys (NetworkData.tgw_attachments d))
  /\ (forall k att,
        dict_get (NetworkData.tgw_attachments d) k = Some att ->
        (vpc_or_vpn att = true -> TGWAttachment.cidrs att = [] ->
         exists cidrs,
           dict_get (NetworkData.tgw_attachments d') k
           = Some (TGWAttachment.set_cidrs cidrs att)
           /\ Sorted str_le cidrs /\ NoDup cidrs
           /\ forall c, In c cidrs <-> candidate d (TGWAttachment.id att) c)
        /\ (TGWAttachment.cidrs att <> [] ->
            dict_get (NetworkData.tgw_attachments d') k = Some att)
        /\ (vpc_or_vpn att = false ->
            dict_get (NetworkData.tgw_attachments d') k = Some att)).
Proof.
  cbv zeta. split.
  { intros att_id cidr. unfold candidate, contributes. split.
    - intros [rt [route [Hrt [Hr [P [A [N [C NC]]]]]]]]. exists rt, route. tauto.
    - intros [rt [route [Hrt [Hr [P [C [NC [A N]]]]]]]]. exists rt, route. tauto. }
  split.
  { repeat (split; [reflexivity|]).
    unfold _extract_cross_account_cidrs, dict_keys.
    cbn [NetworkData.tgw_attachments NetworkData.set_tgw_attachments].
    rewrite map_map. reflexivity. }
  intros k att Ha.
  set (att_cidrs := collect_att_cidrs (NetworkData.tgw_route_tables d)).
  assert (G : dict_get (NetworkData.tgw_attachments (_extract_cross_account_cidrs d)) k
              = Some (TGWAttachment.set_cidrs
                        (if lacks_cidrs att then
                           match dict_get att_cidrs (TGWAttachment.id att) with
                           | Some s => sorted s
                           | None => []
                           end
                         else TGWAttachment.cidrs att) att)).
  { unfold _extract_cross_account_cidrs.
    cbn [NetworkData.tgw_attachments NetworkData.set_tgw_attachments].
    rewrite dict_get_map_values, Ha. cbn [option_map].
    rewrite fill_cidrs_eq. reflexivity. }
  assert (L : lacks_cidrs att
              = vpc_or_vpn att && negb (nonempty (TGWAttachment.cidrs att)))
    by reflexivity.
  split; [|split].
  - intros T E. rewrite G, L, T, E. cbn [nonempty negb andb].
    eexists. split; [reflexivity|].
    pose proof (collect_att_cidrs_collected d (TGWAttachment.id att)) as C.
    fold att_cidrs in C.
    destruct (dict_get att_cidrs (TGWAttachment.id att)) as [s|].
    + destruct C as [_ [ND Hin]].
      split; [apply sorted_Sorted|]. split; [apply sorted_NoDup; exact ND|].
      intros c. rewrite sorted_In, Hin. apply candidate_all_routes.
    + split; [constructor|]. split; [constructor|].
      intros c. split; [intros []|].
      intros Hc. apply candidate_all_routes in Hc. exact (C c Hc).
  - intros NE. rewrite G, L.
    destruct (TGWAttachment.cidrs att) as [|c cs] eqn:E; [contradiction NE; reflexivity|].
    cbn [nonempty negb]. rewrite andb_false_r, <- E, set_cidrs_same. reflexivity.
  - intros T. rewrite G, L, T. cbn [andb]. rewrite set_cidrs_same. reflexivity.
Qed.

(** C9: overlapping VPC CIDRs.  The check emits one warning of type
    [overlap] per flagged quadruple (vpc1, cidr1, vpc2, cidr2), flagged
    exactly when vpc1 stands before vpc2 in the catalog, the CIDRs are
    theirs, both parse and the networks overlap.  In a catalog whose VPC
    ids are pairwise distinct and whose VPCs list no CIDR twice, no
    quadruple is flagged twice, no VPC is flagged against itself, and for
    two different VPCs and a CIDR of each there is a finding exactly when
    the CIDRs overlap, in one of the two orders and never in both.  The
    number of findings does not depend on the order of the VPCs.  A CIDR
    that does not parse overlaps nothing.  Two VPCs with one CIDR each
    that overlap give exactly one finding. *)
Theorem check_cidr_overlaps_once_per_unordered_pair
  (ip_network : string -> option IPNetwork.t) (d : NetworkData.t) :
  let vpcs := dict_values (NetworkData.vpcs d) in
  let hits := overlap_hits ip_network d in
  _check_cidr_overlaps ip_network d
  = map (fun h => overlap_issue (fst (fst (fst h))) (snd (fst (fst h)))
                                (snd (fst h)) (snd h)) hits
  /\ (forall vpc1 cidr1 vpc2 cidr2,
        Issue.type (overlap_issue vpc1 cidr1 vpc2 cidr2) = "overlap"
        /\ Issue.severity (overlap_issue vpc1 cidr1 vpc2 cidr2) = "warning")
  /\ (forall vpc1 cidr1 vpc2 cidr2,
        In (vpc1, cidr1, vpc2, cidr2) hits <->
        before vpcs vpc1 vpc2
        /\ In cidr1 (VPC.cidrs vpc1) /\ In cidr2 (VPC.cidrs vpc2)
        /\ exists net1 net2,
             ip_network cidr1 = Some net1 /\ ip_network cidr2 = Some net2
             /\ IPNetwork.overlaps net1 net2 = true)
  /\ (NoDup (map VPC.id vpcs) ->
      (forall v, In v vpcs -> NoDup (VPC.cidrs v)) ->
      NoDup hits
      /\ (forall vpc cidr1 cidr2, ~ In (vpc, cidr1, vpc, cidr2) hits)
      /\ (forall vpc1 cidr1 vpc2 cidr2,
            In vpc1 vpcs -> In vpc2 vpcs -> vpc1 <> vpc2 ->
            In cidr1 (VPC.cidrs vpc1) -> In cidr2 (VPC.cidrs vpc2) ->
            ((In (vpc1, cidr1, vpc2, cidr2) hits \/ In (vpc2, cidr2, vpc1, cidr1) hits)
             <-> cidrs_overlap ip_network cidr1 cidr2 = true)
            /\ ~ (In (vpc1, cidr1, vpc2, cidr2) hits
                  /\ In (vpc2, cidr2, vpc1, cidr1) hits)))
  /\ (forall d',
        Permutation vpcs (dict_values (NetworkData.vpcs d')) ->
        length (_check_cidr_overlaps ip_network d)
        = length (_check_cidr_overlaps ip_network d'))
  /\ (forall cidr1 cidr2,
        ip_network cidr1 = None \/ ip_network cidr2 = None ->
        cidrs_overlap ip_network cidr1 cidr2 = false)
  /\ (forall vpc1 cidr1 vpc2 cidr2,
        vpcs = [vpc1; vpc2] ->
        VPC.cidrs vpc1 = [cidr1] -> VPC.cidrs vpc2 = [cidr2] ->
        cidrs_overlap ip_network cidr1 cidr2 = true ->
        _check_cidr_overlaps ip_network d = [overlap_issue vpc1 cidr1 vpc2 cidr2]).
Proof.
  cbv zeta.
  split.
  { unfold _check_cidr_overlaps, overlap_hits. rewrite <- overlap_loop_map. reflexivity. }
  split; [intros; split; reflexivity|].
  split; [apply overlap_hits_In|].
  split.
  { intros Hids Hcidrs.
    assert (ND : NoDup (dict_values (NetworkData.vpcs d)))
      by exact (NoDup_map_inv _ _ Hids).
    split; [apply overlap_loop_NoDup; assumption|].
    split.
    - intros vpc c1 c2 H. apply overlap_hits_In in H. destruct H as [Bf _].
      exact (before_irrefl _ _ ND Bf).
    - intros v1 c1 v2 c2 H1 H2 N Hc1 Hc2. split.
      + rewrite !overlap_hits_In, <- !cidrs_overlap_true_iff.
        rewrite (cidrs_overlap_sym ip_network c2 c1). split.
        * intros [[_ [_ [_ H]]]|[_ [_ [_ H]]]]; exact H.
        * intros H. destruct (before_total _ _ _ H1 H2 N) as [Bf|Bf]; [left | right]; auto.
      + intros [Ha Hb]. apply overlap_hits_In in Ha, Hb.
        exact (before_asym _ _ _ ND (proj1 Ha) (proj1 Hb)). }
  split.
  { intros d' P. unfold _check_cidr_overlaps.
    apply overlap_loop_length_Permutation. exact P. }
  split.
  { intros c1 c2 H. unfold cidrs_overlap, overlap_try.
    destruct (ip_network c1); [|reflexivity].
    destruct H as [H|H]; [discriminate | rewrite H; reflexivity]. }
  intros v1 c1 v2 c2 Hv E1 E2 O.
  unfold _check_cidr_overlaps. rewrite Hv.
  cbn [overlap_loop flat_map]. unfold overlap_pair. rewrite E1, E2.
  cbn [flat_map app]. rewrite O. reflexivity.
Qed.
